(** * go-airstack: a GraphQL client for the Airstack API

    A shallow embedding of [airstack/airstack.go] and of its demo program,
    and proofs about the request/response envelope handling of
    [SendRequest], [ExecuteQuery] and [GetTokenBalances].

    Go's [string] and [[]byte] are byte sequences; both are modelled by
    [string] (a list of 8-bit [ascii] characters).  A nil byte slice and an
    empty one are both the empty string: the code only takes their length
    or hands them to [json.Unmarshal], which cannot tell them apart.
    Go's [int] is modelled by [Z]; the code does no arithmetic on it.

    The parts of the Go standard library the code calls ([encoding/json],
    [fmt.Sprintf], [net/http]) are not part of the repository.  The JSON
    decoder and encoder and the one [Sprintf] call are modelled below as
    executable functions; the HTTP exchange is an input of the model. *)

From Stdlib Require Import ZArith NArith Ascii String List DecimalString.
From Stdlib Require Import DecimalFacts DecimalPos DecimalN.
From stdpp Require Import base option gmap strings list.

Local Open Scope N_scope.
Local Set Warnings "-register-all".

(** ** Bytes *)

Definition dq : ascii := "034"%char.        (* the double quote *)
Definition bs : ascii := "092"%char.        (* the backslash *)
Definition sq : ascii := "039"%char.        (* the single quote *)

Definition code (c : ascii) : N := N_of_ascii c.
Definition chr (n : N) : ascii := ascii_of_N n.

Definition between (lo hi : N) (c : ascii) : bool :=
  (lo <=? code c) && (code c <=? hi).

Definition str1 (c : ascii) : string := String c "".

(** [s[:n]] and [s[n:]]. *)
Fixpoint take_s (n : nat) (s : string) : string :=
  match n, s with
  | S n', String c s' => String c (take_s n' s')
  | _, _ => ""
  end.

Fixpoint drop_s (n : nat) (s : string) : string :=
  match n, s with
  | S n', String c s' => drop_s n' s'
  | _, _ => s
  end.

(** The bytes of [s] that come before its suffix [rest]. *)
Definition consumed (s rest : string) : string :=
  take_s (String.length s - String.length rest) s.

(** [%x] with two and four digits, lower case. *)
Definition hexdigit (n : N) : ascii :=
  if n <? 10 then chr (48 + n) else chr (87 + n).

Definition hex2 (n : N) : string :=
  String (hexdigit (n / 16 mod 16)) (str1 (hexdigit (n mod 16))).

Definition hex4 (n : N) : string :=
  String (hexdigit (n / 4096 mod 16)) (String (hexdigit (n / 256 mod 16)) (hex2 n)).

(** [strconv.Itoa], the [%d] verb. *)
Definition itoa (n : Z) : string := NilZero.string_of_int (Z.to_int n).

(** ** Errors

    A Go [error] is modelled by the dynamic type of the value and the
    fields its [Error()] method prints.  Byte offsets are left out: no
    code of this package reads them. *)

Inductive error : Type :=
| TransportError (msg : string)
    (* an error of net/http, net/url, context or io; [msg] is its Error() *)
| SyntaxError (msg : string)
    (* *json.SyntaxError *)
| UnmarshalTypeError (Value Type_ Struct Field : string)
    (* *json.UnmarshalTypeError *)
| UnsupportedTypeError (Type_ : string).
    (* *json.UnsupportedTypeError *)

Definition Error_msg (e : error) : string :=
  match e with
  | TransportError msg => msg
  | SyntaxError msg => msg
  | UnmarshalTypeError v t s f =>
      if decide (s = "" ∧ f = "")
      then "json: cannot unmarshal " +:+ v +:+ " into Go value of type " +:+ t
      else "json: cannot unmarshal " +:+ v +:+ " into Go struct field "
             +:+ s +:+ "." +:+ f +:+ " of type " +:+ t
  | UnsupportedTypeError t => "json: unsupported type: " +:+ t
  end.

Inductive result (A : Type) : Type :=
| Ok (a : A)
| Err (e : error).
Arguments Ok {A} a.
Arguments Err {A} e.

(** ** UTF-8 (package unicode/utf8) *)

(** The number of bytes of the well-formed UTF-8 sequence [s] starts with,
    or 0 where [utf8.DecodeRuneInString] returns (RuneError, 1). *)
Definition utf8_len (s : string) : nat :=
  let cont := between 128 191 in
  match s with
  | "" => 0%nat
  | String c0 s1 =>
    if code c0 <? 128 then 1%nat else
    match s1 with
    | "" => 0%nat
    | String c1 s2 =>
      if between 194 223 c0 then (if cont c1 then 2%nat else 0%nat) else
      let three :=
        (code c0 =? 224) && between 160 191 c1
        || between 225 236 c0 && cont c1
        || (code c0 =? 237) && between 128 159 c1
        || between 238 239 c0 && cont c1 in
      let four :=
        (code c0 =? 240) && between 144 191 c1
        || between 241 243 c0 && cont c1
        || (code c0 =? 244) && between 128 143 c1 in
      match s2 with
      | "" => 0%nat
      | String c2 s3 =>
        if three then (if cont c2 then 3%nat else 0%nat) else
        match s3 with
        | "" => 0%nat
        | String c3 _ =>
          if four && cont c2 && cont c3 then 4%nat else 0%nat
        end
      end
    end
  end.

(** U+FFFD, [unicode.ReplacementChar], in UTF-8. *)
Definition replacement : string :=
  String (chr 239) (String (chr 191) (str1 (chr 189))).

(** [utf8.EncodeRune]. *)
Definition utf8_encode (r : N) : string :=
  if r <? 128 then str1 (chr r)
  else if r <? 2048 then
    String (chr (192 + r / 64)) (str1 (chr (128 + r mod 64)))
  else if (55296 <=? r) && (r <? 57344) || (1114111 <? r) then replacement
  else if r <? 65536 then
    String (chr (224 + r / 4096))
      (String (chr (128 + r / 64 mod 64)) (str1 (chr (128 + r mod 64))))
  else
    String (chr (240 + r / 262144))
      (String (chr (128 + r / 4096 mod 64))
        (String (chr (128 + r / 64 mod 64)) (str1 (chr (128 + r mod 64))))).

(** ** encoding/json: syntax errors *)

(** [strconv.Quote(string(c))] without its quotes, for a byte [c] other
    than the double quote. *)
Definition quote_inner (c : ascii) : string :=
  let n := code c in
  if Ascii.eqb c bs then String bs (str1 bs)
  else if between 32 126 c then str1 c
  else if (161 <=? n) && negb (n =? 173) then utf8_encode n
  else if n =? 7 then String bs "a"
  else if n =? 8 then String bs "b"
  else if n =? 12 then String bs "f"
  else if n =? 10 then String bs "n"
  else if n =? 13 then String bs "r"
  else if n =? 9 then String bs "t"
  else if n =? 11 then String bs "v"
  else if (n <? 32) || (n =? 127) then String bs (String "x" (hex2 n))
  else String bs (String "u" (hex4 n)).

(** [quoteChar] of scanner.go. *)
Definition quoteChar (c : ascii) : string :=
  if Ascii.eqb c sq then String sq (String bs (String sq (str1 sq)))
  else if Ascii.eqb c dq then String sq (String dq (str1 sq))
  else String sq (quote_inner c +:+ str1 sq).

(** The method [error] of the scanner. *)
Definition invalid_char (c : ascii) (context : string) : error :=
  SyntaxError ("invalid character " +:+ quoteChar c +:+ " " +:+ context).

Definition unexpected_end : error :=
  SyntaxError "unexpected end of JSON input".

(** ** encoding/json: literals

    The scanner of encoding/json is a state machine fed one byte at a
    time; at the end of the input it is fed one space, so that an input
    ending inside an escape, a number or a keyword is reported as an
    invalid space there.  The functions below follow its states. *)

Definition isSpace (c : ascii) : bool :=
  Ascii.eqb c " " || Ascii.eqb c "009" || Ascii.eqb c "013" || Ascii.eqb c "010".

Fixpoint skip_space (s : string) : string :=
  match s with
  | "" => ""
  | String c s' => if isSpace c then skip_space s' else s
  end.

Definition isDigit (c : ascii) : bool := between 48 57 c.

Definition hexval (c : ascii) : option N :=
  if between 48 57 c then Some (code c - 48)
  else if between 97 102 c then Some (code c - 87)
  else if between 65 70 c then Some (code c - 55)
  else None.

(** A scanned piece of input: the bytes taken and the bytes left. *)
Definition push (c : ascii) (r : result (string * string)) : result (string * string) :=
  match r with
  | Ok (lit, rest) => Ok (String c lit, rest)
  | Err e => Err e
  end.

Inductive str_state : Type :=
| InString
| InStringEsc
| InStringEscU (seen : nat).

Definition in_escape_u : string := "in \u hexadecimal character escape".

(** The bytes of a string literal after its opening quote, up to its
    closing quote (stateInString, stateInStringEsc, stateInStringEscU...). *)
Fixpoint scan_string (st : str_state) (s : string) : result (string * string) :=
  match s with
  | "" =>
    match st with
    | InString => Err unexpected_end
    | InStringEsc => Err (invalid_char " " "in string escape code")
    | InStringEscU _ => Err (invalid_char " " in_escape_u)
    end
  | String c s' =>
    match st with
    | InString =>
      if Ascii.eqb c dq then Ok ("", s')
      else if Ascii.eqb c bs then push c (scan_string InStringEsc s')
      else if code c <? 32 then Err (invalid_char c "in string literal")
      else push c (scan_string InString s')
    | InStringEsc =>
      if Ascii.eqb c "b" || Ascii.eqb c "f" || Ascii.eqb c "n" || Ascii.eqb c "r"
         || Ascii.eqb c "t" || Ascii.eqb c bs || Ascii.eqb c "/" || Ascii.eqb c dq
      then push c (scan_string InString s')
      else if Ascii.eqb c "u" then push c (scan_string (InStringEscU 0) s')
      else Err (invalid_char c "in string escape code")
    | InStringEscU seen =>
      match hexval c with
      | Some _ =>
        push c (scan_string (if (seen <? 3)%nat then InStringEscU (S seen) else InString) s')
      | None => Err (invalid_char c in_escape_u)
      end
    end
  end.

Inductive num_state : Type :=
| NumNeg | Num0 | Num1 | NumDot | NumDot0 | NumE | NumESign | NumE0.

(** The bytes of a number after its first byte (stateNeg, state0, state1,
    stateDot, stateDot0, stateE, stateESign, stateE0). *)
Fixpoint scan_number (st : num_state) (s : string) : result (string * string) :=
  match s with
  | "" =>
    match st with
    | NumNeg => Err (invalid_char " " "in numeric literal")
    | NumDot => Err (invalid_char " " "after decimal point in numeric literal")
    | NumE | NumESign => Err (invalid_char " " "in exponent of numeric literal")
    | Num0 | Num1 | NumDot0 | NumE0 => Ok ("", "")
    end
  | String c s' =>
    let state0 :=
      if Ascii.eqb c "." then push c (scan_number NumDot s')
      else if Ascii.eqb c "e" || Ascii.eqb c "E" then push c (scan_number NumE s')
      else Ok ("", s) in
    let stateESign :=
      if isDigit c then push c (scan_number NumE0 s')
      else Err (invalid_char c "in exponent of numeric literal") in
    match st with
    | NumNeg =>
      if Ascii.eqb c "0" then push c (scan_number Num0 s')
      else if between 49 57 c then push c (scan_number Num1 s')
      else Err (invalid_char c "in numeric literal")
    | Num1 => if isDigit c then push c (scan_number Num1 s') else state0
    | Num0 => state0
    | NumDot =>
      if isDigit c then push c (scan_number NumDot0 s')
      else Err (invalid_char c "after decimal point in numeric literal")
    | NumDot0 =>
      if isDigit c then push c (scan_number NumDot0 s')
      else if Ascii.eqb c "e" || Ascii.eqb c "E" then push c (scan_number NumE s')
      else Ok ("", s)
    | NumE =>
      if Ascii.eqb c "+" || Ascii.eqb c "-" then push c (scan_number NumESign s')
      else stateESign
    | NumESign => stateESign
    | NumE0 => if isDigit c then push c (scan_number NumE0 s') else Ok ("", s)
    end
  end.

(** The rest of a keyword after its first byte (stateT, stateTr, ...). *)
Fixpoint scan_word (name expect s : string) : result string :=
  match expect with
  | "" => Ok s
  | String e expect' =>
    let context :=
      "in literal " +:+ name +:+ " (expecting " +:+ String sq (String e (str1 sq)) +:+ ")" in
    match s with
    | "" => Err (invalid_char " " context)
    | String c s' =>
      if Ascii.eqb c e then scan_word name expect' s' else Err (invalid_char c context)
    end
  end.

(** [getu4]: the value of a leading [\uXXXX]. *)
Definition getu4 (s : string) : option N :=
  match s with
  | String b (String u (String h1 (String h2 (String h3 (String h4 _))))) =>
    if Ascii.eqb b bs && Ascii.eqb u "u" then
      match hexval h1, hexval h2, hexval h3, hexval h4 with
      | Some x1, Some x2, Some x3, Some x4 => Some (((x1 * 16 + x2) * 16 + x3) * 16 + x4)
      | _, _, _, _ => None
      end
    else None
  | _ => None
  end.

Definition isSurrogate (r : N) : bool := (55296 <=? r) && (r <? 57344).

(** One step of [unquoteBytes] at the head of [s]: the bytes written and
    the number of bytes read.  The cases the scanner has excluded (a
    dangling backslash, an unknown escape) copy nothing. *)
Definition unquote_step (s : string) : string * nat :=
  match s with
  | "" => ("", 1%nat)
  | String c rest =>
    if Ascii.eqb c bs then
      match rest with
      | "" => ("", 1%nat)
      | String e _ =>
        if Ascii.eqb e "u" then
          match getu4 s with
          | None => ("", 2%nat)
          | Some rr =>
            if isSurrogate rr then
              match getu4 (drop_s 6 s) with
              | Some rr1 =>
                if (rr <? 56320) && (56320 <=? rr1) && (rr1 <? 57344)
                then (utf8_encode ((rr - 55296) * 1024 + (rr1 - 56320) + 65536), 12%nat)
                else (replacement, 6%nat)
              | None => (replacement, 6%nat)
              end
            else (utf8_encode rr, 6%nat)
          end
        else if Ascii.eqb e "b" then (str1 (chr 8), 2%nat)
        else if Ascii.eqb e "f" then (str1 (chr 12), 2%nat)
        else if Ascii.eqb e "n" then (str1 (chr 10), 2%nat)
        else if Ascii.eqb e "r" then (str1 (chr 13), 2%nat)
        else if Ascii.eqb e "t" then (str1 (chr 9), 2%nat)
        else if Ascii.eqb e dq || Ascii.eqb e bs || Ascii.eqb e "/" then (str1 e, 2%nat)
        else ("", 2%nat)
      end
    else if code c <? 128 then (str1 c, 1%nat)
    else
      match utf8_len s with
      | O => (replacement, 1%nat)
      | n => (take_s n s, n)
      end
  end.

(** [unquote]: the Go string a literal's bytes stand for.  Escapes are
    decoded and bytes that are not UTF-8 become U+FFFD.  [skip] counts the
    bytes the previous step has already read. *)
Fixpoint unquote_from (skip : nat) (s : string) : string :=
  match s with
  | "" => ""
  | String _ rest =>
    match skip with
    | S k => unquote_from k rest
    | O =>
      let '(out, n) := unquote_step s in
      out +:+ unquote_from (n - 1) rest
    end
  end.

Definition unquote (lit : string) : string := unquote_from 0 lit.

(** ** encoding/json: values

    A JSON text as the decoder walks it.  A member of an object keeps,
    next to its decoded key and its value, the bytes of the value as they
    stand in the input: this is what a [json.RawMessage] receives. *)

Inductive json : Type :=
| JNull
| JBool (b : bool)
| JNumber (lit : string)
| JString (s : string)
| JArray (elems : list json)
| JObject (members : list (string * string * json)).

Inductive parsed (A : Type) : Type :=
| Parsed (a : A) (rest : string)
| Failed (e : error)
| OutOfFuel.
Arguments Parsed {A} a rest.
Arguments Failed {A} e.
Arguments OutOfFuel {A}.

(** The scanner refuses more than 10000 open arrays and objects, with
    the opening byte as the invalid character. *)
Definition maxNestingDepth : N := 10000.

Definition literal (mk : string -> json) (r : result (string * string)) : parsed json :=
  match r with
  | Ok (lit, rest) => Parsed (mk lit) rest
  | Err e => Failed e
  end.

Definition keyword (v : json) (r : result string) : parsed json :=
  match r with
  | Ok rest => Parsed v rest
  | Err e => Failed e
  end.

(** [parse_value] reads one value (stateBeginValue ... stateEndValue);
    [parse_elements] the elements of an array from the start of an
    element; [parse_members] the members of an object from the start of a
    key.  [depth] is the number of arrays and objects open.  Every call
    takes one unit of [fuel]; [json_parse] gives enough. *)
Fixpoint parse_value (fuel : nat) (depth : N) (s : string) {struct fuel} : parsed json :=
  match fuel with
  | O => OutOfFuel
  | S fuel' =>
    match skip_space s with
    | "" => Failed unexpected_end
    | String c s' =>
      if Ascii.eqb c "{" then
        if maxNestingDepth <? depth + 1
        then Failed (invalid_char c "exceeded max depth") else
        match skip_space s' with
        | "" => Failed unexpected_end
        | String c1 s1 =>
          if Ascii.eqb c1 "}" then Parsed (JObject []) s1
          else
            match parse_members fuel' (depth + 1) (String c1 s1) with
            | Parsed ms rest => Parsed (JObject ms) rest
            | Failed e => Failed e
            | OutOfFuel => OutOfFuel
            end
        end
      else if Ascii.eqb c "[" then
        if maxNestingDepth <? depth + 1
        then Failed (invalid_char c "exceeded max depth") else
        match skip_space s' with
        | "" => Failed unexpected_end
        | String c1 s1 =>
          if Ascii.eqb c1 "]" then Parsed (JArray []) s1
          else
            match parse_elements fuel' (depth + 1) (String c1 s1) with
            | Parsed vs rest => Parsed (JArray vs) rest
            | Failed e => Failed e
            | OutOfFuel => OutOfFuel
            end
        end
      else if Ascii.eqb c dq then
        literal (fun lit => JString (unquote lit)) (scan_string InString s')
      else if Ascii.eqb c "-" then
        literal (fun lit => JNumber (String c lit)) (scan_number NumNeg s')
      else if Ascii.eqb c "0" then
        literal (fun lit => JNumber (String c lit)) (scan_number Num0 s')
      else if between 49 57 c then
        literal (fun lit => JNumber (String c lit)) (scan_number Num1 s')
      else if Ascii.eqb c "t" then keyword (JBool true) (scan_word "true" "rue" s')
      else if Ascii.eqb c "f" then keyword (JBool false) (scan_word "false" "alse" s')
      else if Ascii.eqb c "n" then keyword JNull (scan_word "null" "ull" s')
      else Failed (invalid_char c "looking for beginning of value")
    end
  end

with parse_elements (fuel : nat) (depth : N) (s : string) {struct fuel}
  : parsed (list json) :=
  match fuel with
  | O => OutOfFuel
  | S fuel' =>
    match parse_value fuel' depth s with
    | Parsed v r =>
      match skip_space r with
      | "" => Failed unexpected_end
      | String c r' =>
        if Ascii.eqb c "," then
          match parse_elements fuel' depth r' with
          | Parsed vs rest => Parsed (v :: vs) rest
          | Failed e => Failed e
          | OutOfFuel => OutOfFuel
          end
        else if Ascii.eqb c "]" then Parsed [v] r'
        else Failed (invalid_char c "after array element")
      end
    | Failed e => Failed e
    | OutOfFuel => OutOfFuel
    end
  end

with parse_members (fuel : nat) (depth : N) (s : string) {struct fuel}
  : parsed (list (string * string * json)) :=
  match fuel with
  | O => OutOfFuel
  | S fuel' =>
    match skip_space s with
    | "" => Failed unexpected_end
    | String c s' =>
      if negb (Ascii.eqb c dq)
      then Failed (invalid_char c "looking for beginning of object key string") else
      match scan_string InString s' with
      | Err e => Failed e
      | Ok (key, r1) =>
        match skip_space r1 with
        | "" => Failed unexpected_end
        | String c2 r2 =>
          if negb (Ascii.eqb c2 ":") then Failed (invalid_char c2 "after object key") else
          let start := skip_space r2 in
          match parse_value fuel' depth start with
          | Parsed v r3 =>
            let m := (unquote key, consumed start r3, v) in
            match skip_space r3 with
            | "" => Failed unexpected_end
            | String c4 r4 =>
              if Ascii.eqb c4 "," then
                match parse_members fuel' depth r4 with
                | Parsed ms rest => Parsed (m :: ms) rest
                | Failed e => Failed e
                | OutOfFuel => OutOfFuel
                end
              else if Ascii.eqb c4 "}" then Parsed [m] r4
              else Failed (invalid_char c4 "after object key:value pair")
            end
          | Failed e => Failed e
          | OutOfFuel => OutOfFuel
          end
        end
      end
    end
  end.

(** The whole input is one value, with white space around it at most
    (checkValid followed by the decoder's walk). *)
Definition json_parse (data : string) : result json :=
  match parse_value (2 * String.length data + 1) 0 data with
  | Parsed v rest =>
    match skip_space rest with
    | "" => Ok v
    | String c _ => Err (invalid_char c "after top-level value")
    end
  | Failed e => Err e
  | OutOfFuel => Err unexpected_end
  end.

(** ** encoding/json: Unmarshal

    [json.Unmarshal] first checks the whole input, then stores the value
    into the Go variable.  A JSON value of the wrong kind is skipped, the
    first such mismatch is kept as the error to return and the walk goes
    on; [null] leaves a string or a struct as it is and resets a map or a
    slice to nil. *)

Definition kind_of (v : json) : string :=
  match v with
  | JNull => "null"
  | JBool _ => "bool"
  | JNumber _ => "number"
  | JString _ => "string"
  | JArray _ => "array"
  | JObject _ => "object"
  end.

(** [saveError]: the first error stays. *)
Definition save (saved new : option error) : option error :=
  match saved with
  | Some _ => saved
  | None => new
  end.

(** *** Numbers into [interface{}]

    A number stored into an [interface{}] goes through
    [strconv.ParseFloat(s, 64)], which fails where the value rounds beyond
    the largest float64.  This is decided on integers, on the decimal
    ParseFloat falls back to when its fast paths give no finite value:
    0.d1d2...dn x 10^dp, d1 not 0, of at most 800 digits, the digits being
    the integer [mantissa]; it overflows from 2^1024 - 2^970 on.  The
    exponent stops growing once it has reached 10000. *)

Record decimal : Type := mkDecimal {
  mantissa : Z;     (* the digits, as an integer *)
  nd : Z;           (* how many digits, leading zeros left out *)
  dp : Z;           (* the position of the decimal point *)
  sawdot : bool;
}.

Definition digit_value (c : ascii) : Z := Z.of_N (code c - 48).

(** The digits and the point, up to the exponent, which is returned. *)
Fixpoint read_digits (d : decimal) (s : string) : decimal * string :=
  match s with
  | "" => (d, "")
  | String c s' =>
    if Ascii.eqb c "." then read_digits (mkDecimal (mantissa d) (nd d) (nd d) true) s'
    else if isDigit c then
      if Ascii.eqb c "0" && (nd d =? 0)%Z
      then read_digits (mkDecimal (mantissa d) (nd d) (dp d - 1) (sawdot d)) s'
      else if (nd d <? 800)%Z
      then read_digits (mkDecimal (mantissa d * 10 + digit_value c) (nd d + 1) (dp d) (sawdot d)) s'
      else read_digits d s'
    else (d, s)
  end.

Fixpoint read_exponent (e : Z) (s : string) : Z :=
  match s with
  | "" => e
  | String c s' =>
    if isDigit c
    then read_exponent (if (e <? 10000)%Z then e * 10 + digit_value c else e) s'
    else e
  end.

Definition float64_limit : Z := 2 ^ 1024 - 2 ^ 970.

(** [strconv.ParseFloat(lit, 64)] returns a range error. *)
Definition float64_overflows (lit : string) : bool :=
  let unsigned :=
    match lit with
    | String c s' => if Ascii.eqb c "-" then s' else lit
    | "" => lit
    end in
  let '(d, rest) := read_digits (mkDecimal 0 0 0 false) unsigned in
  let point := if sawdot d then dp d else nd d in
  let exponent :=
    match rest with
    | String _ (String c s') =>
      if Ascii.eqb c "-" then (- read_exponent 0 s')%Z
      else if Ascii.eqb c "+" then read_exponent 0 s'
      else read_exponent 0 (String c s')
    | _ => 0%Z
    end in
  let point := (point + exponent)%Z in
  (0 <? mantissa d)%Z
  && ((310 <=? point)%Z
      || (point =? 309)%Z
         && (if (nd d <=? 309)%Z
             then (float64_limit <=? mantissa d * 10 ^ (309 - nd d))%Z
             else (float64_limit * 10 ^ (nd d - 309) <=? mantissa d)%Z)).

(** The first number, in the order of the text, that does not fit. *)
Fixpoint number_error (v : json) : option error :=
  match v with
  | JNumber lit =>
    if float64_overflows lit
    then Some (UnmarshalTypeError ("number " +:+ lit) "float64" "" "")
    else None
  | JArray elems =>
    (fix first (l : list json) : option error :=
       match l with
       | [] => None
       | x :: l' => save (number_error x) (first l')
       end) elems
  | JObject members =>
    (fix first (l : list (string * string * json)) : option error :=
       match l with
       | [] => None
       | (_, _, x) :: l' => save (number_error x) (first l')
       end) members
  | JNull | JBool _ | JString _ => None
  end.

(** [json.Unmarshal(data, &map[string]interface{}{})]: only the error
    matters.  Every value fits an [interface{}], but for a number too
    large for a float64. *)
Definition Unmarshal_map_interface (data : string) : option error :=
  match json_parse data with
  | Err e => Some e
  | Ok (JObject members) => number_error (JObject members)
  | Ok JNull => None
  | Ok v => Some (UnmarshalTypeError (kind_of v) "map[string]interface {}" "" "")
  end.

(** [json.Unmarshal(data, &respData)] for a nil
    [respData map[string]json.RawMessage]: each member's bytes are stored
    under its key, a later member replacing an earlier one of the same
    key.  A nil map reads like the empty one. *)
Definition store_raw (m : gmap string string) (member : string * string * json)
  : gmap string string :=
  let '(key, raw, _) := member in <[key := raw]> m.

Definition Unmarshal_map_RawMessage (data : string) : gmap string string * option error :=
  match json_parse data with
  | Err e => (∅, Some e)
  | Ok (JObject members) => (fold_left store_raw members ∅, None)
  | Ok JNull => (∅, None)
  | Ok v => (∅, Some (UnmarshalTypeError (kind_of v) "map[string]json.RawMessage" "" ""))
  end.

(** [foldName], as far as it decides equality with a name of ASCII
    letters: ASCII letters go to upper case, U+212A (Kelvin sign) to K and
    U+017F (long s) to S; no other character folds to an ASCII one. *)
Definition upper (c : ascii) : ascii :=
  if between 97 122 c then chr (code c - 32) else c.

Fixpoint foldName (s : string) : string :=
  match s with
  | "" => ""
  | String c s1 =>
    match s1 with
    | "" => str1 (upper c)
    | String c2 s2 =>
      if (code c =? 197) && (code c2 =? 191) then String "S" (foldName s2)
      else
        match s2 with
        | "" => String (upper c) (foldName s1)
        | String c3 s3 =>
          if (code c =? 226) && (code c2 =? 132) && (code c3 =? 170)
          then String "K" (foldName s3)
          else String (upper c) (foldName s1)
        end
    end
  end.

(** The field a key selects: the one of that very name, else the first
    one equal to it under folding. *)
Definition find_field {F : Type} (name : F -> string) (fields : list F) (key : string)
  : option F :=
  match List.find (fun f => bool_decide (name f = key)) fields with
  | Some f => Some f
  | None => List.find (fun f => bool_decide (foldName (name f) = foldName key)) fields
  end.

(** *** The types of airstack.go *)

(** TokenBalance represents the structure of a token balance response. *)
Record TokenBalance : Type := mkTokenBalance {
  Amount : string;            (* `json:"amount"` *)
  FormattedAmount : string;   (* `json:"formattedAmount"` *)
  Blockchain : string;        (* `json:"blockchain"` *)
  TokenAddress : string;      (* `json:"tokenAddress"` *)
  TokenId : string;           (* `json:"tokenId"` *)
}.

Definition zero_TokenBalance : TokenBalance := mkTokenBalance "" "" "" "" "".

Inductive TokenBalance_field : Type :=
| F_Amount | F_FormattedAmount | F_Blockchain | F_TokenAddress | F_TokenId.

Definition TokenBalance_fields : list TokenBalance_field :=
  [F_Amount; F_FormattedAmount; F_Blockchain; F_TokenAddress; F_TokenId].

Definition json_name (f : TokenBalance_field) : string :=
  match f with
  | F_Amount => "amount"
  | F_FormattedAmount => "formattedAmount"
  | F_Blockchain => "blockchain"
  | F_TokenAddress => "tokenAddress"
  | F_TokenId => "tokenId"
  end.

Definition get_field (f : TokenBalance_field) (t : TokenBalance) : string :=
  match f with
  | F_Amount => Amount t
  | F_FormattedAmount => FormattedAmount t
  | F_Blockchain => Blockchain t
  | F_TokenAddress => TokenAddress t
  | F_TokenId => TokenId t
  end.

Definition set_field (f : TokenBalance_field) (s : string) (t : TokenBalance) : TokenBalance :=
  match f with
  | F_Amount => mkTokenBalance s (FormattedAmount t) (Blockchain t) (TokenAddress t) (TokenId t)
  | F_FormattedAmount => mkTokenBalance (Amount t) s (Blockchain t) (TokenAddress t) (TokenId t)
  | F_Blockchain => mkTokenBalance (Amount t) (FormattedAmount t) s (TokenAddress t) (TokenId t)
  | F_TokenAddress => mkTokenBalance (Amount t) (FormattedAmount t) (Blockchain t) s (TokenId t)
  | F_TokenId => mkTokenBalance (Amount t) (FormattedAmount t) (Blockchain t) (TokenAddress t) s
  end.

(** A Go slice of TokenBalance: its backing array and its length.  The
    decoder stores the elements of a JSON array into the backing array it
    finds, on top of what an earlier array of the same input left there. *)
Record TokenBalance_slice : Type := mkSlice {
  backing : list TokenBalance;
  len : nat;
}.

Definition nil_slice : TokenBalance_slice := mkSlice [] 0.

Definition elements (s : TokenBalance_slice) : list TokenBalance :=
  take (len s) (backing s).

(** The variable [respData] of GetTokenBalances:
    [struct { TokenBalances struct { TokenBalance []TokenBalance } }]. *)
Record respData_TokenBalances : Type := mkInner {
  TokenBalance_ : TokenBalance_slice;   (* `json:"TokenBalance"` *)
}.

Record respData_t : Type := mkOuter {
  TokenBalances : respData_TokenBalances;   (* `json:"TokenBalances"` *)
}.

Definition zero_respData : respData_t := mkOuter (mkInner nil_slice).

(** The names reflect prints for these types. *)
Definition type_slice : string := "[]airstack.TokenBalance".

Definition type_inner : string :=
  "struct { TokenBalance []airstack.TokenBalance "
  +:+ String dq ("json:" +:+ String bs (String dq ("TokenBalance" +:+ String bs (String dq (str1 dq)))))
  +:+ " }".

Definition type_outer : string :=
  "struct { TokenBalances " +:+ type_inner +:+ " "
  +:+ String dq ("json:" +:+ String bs (String dq ("TokenBalances" +:+ String bs (String dq (str1 dq)))))
  +:+ " }".

(** *** Storing into the fields *)

Definition decode_string (struct_ field : string) (v : json) (old : string)
  : string * option error :=
  match v with
  | JString s => (s, None)
  | JNull => (old, None)
  | _ => (old, Some (UnmarshalTypeError (kind_of v) "string" struct_ field))
  end.

Definition decode_TokenBalance_member (st : TokenBalance * option error)
    (member : string * string * json) : TokenBalance * option error :=
  let '(t, saved) := st in
  let '(key, _, v) := member in
  match find_field json_name TokenBalance_fields key with
  | None => st
  | Some f =>
    let '(s, e) :=
      decode_string "TokenBalance" ("TokenBalances.TokenBalance." +:+ json_name f)
        v (get_field f t) in
    (set_field f s t, save saved e)
  end.

Definition decode_TokenBalance (v : json) (old : TokenBalance) : TokenBalance * option error :=
  match v with
  | JObject members => fold_left decode_TokenBalance_member members (old, None)
  | JNull => (old, None)
  | _ => (old, Some (UnmarshalTypeError (kind_of v) "airstack.TokenBalance"
                       "" "TokenBalances.TokenBalance"))
  end.

(** Element [i] of the array goes into slot [i] of the backing array, a
    zero value where the backing array ends. *)
Fixpoint decode_elements (elems : list json) (slots : list TokenBalance)
  : list TokenBalance * option error :=
  match elems with
  | [] => (slots, None)
  | v :: elems' =>
    let '(t, e) := decode_TokenBalance v (hd zero_TokenBalance slots) in
    let '(ts, e') := decode_elements elems' (tl slots) in
    (t :: ts, save e e')
  end.

Definition decode_slice (v : json) (old : TokenBalance_slice)
  : TokenBalance_slice * option error :=
  match v with
  | JArray [] => (mkSlice [] 0, None)
  | JArray elems =>
    let '(slots, e) := decode_elements elems (backing old) in
    (mkSlice slots (length elems), e)
  | JNull => (nil_slice, None)
  | _ => (old, Some (UnmarshalTypeError (kind_of v) type_slice "" "TokenBalances.TokenBalance"))
  end.

Definition decode_inner_member (st : respData_TokenBalances * option error)
    (member : string * string * json) : respData_TokenBalances * option error :=
  let '(r, saved) := st in
  let '(key, _, v) := member in
  match find_field (fun _ : unit => "TokenBalance") [()] key with
  | None => st
  | Some _ =>
    let '(s, e) := decode_slice v (TokenBalance_ r) in
    (mkInner s, save saved e)
  end.

Definition decode_inner (v : json) (old : respData_TokenBalances)
  : respData_TokenBalances * option error :=
  match v with
  | JObject members => fold_left decode_inner_member members (old, None)
  | JNull => (old, None)
  | _ => (old, Some (UnmarshalTypeError (kind_of v) type_inner "" "TokenBalances"))
  end.

Definition decode_outer_member (st : respData_t * option error)
    (member : string * string * json) : respData_t * option error :=
  let '(r, saved) := st in
  let '(key, _, v) := member in
  match find_field (fun _ : unit => "TokenBalances") [()] key with
  | None => st
  | Some _ =>
    let '(i, e) := decode_inner v (TokenBalances r) in
    (mkOuter i, save saved e)
  end.

(** [json.Unmarshal(data, &respData)] in GetTokenBalances. *)
Definition Unmarshal_respData (data : string) : respData_t * option error :=
  match json_parse data with
  | Err e => (zero_respData, Some e)
  | Ok (JObject members) => fold_left decode_outer_member members (zero_respData, None)
  | Ok JNull => (zero_respData, None)
  | Ok v => (zero_respData, Some (UnmarshalTypeError (kind_of v) type_outer "" ""))
  end.

(** ** encoding/json: Marshal

    The values a [map[string]interface{}] of query variables holds, as a
    tagged union.  [VNil] is a nil interface, map or slice; [VMap] lists
    the entries of a map, whose keys are pairwise distinct;
    [VUnsupported] stands for a value Marshal refuses (a channel, a
    function, a complex number).  Floating-point values are left out. *)

Inductive Value : Type :=
| VNil
| VBool (b : bool)
| VInt (n : Z)
| VString (s : string)
| VSlice (elems : list Value)
| VMap (entries : list (string * Value))
| VUnsupported (type : string).

(** One step of [appendString] (with HTML escaping, as Marshal sets it):
    the bytes written for the character at the head of [s] and the number
    of bytes read. *)
Definition escape_step (s : string) : string * nat :=
  match s with
  | "" => ("", 1%nat)
  | String c _ =>
    let n := code c in
    if n <? 128 then
      if Ascii.eqb c bs || Ascii.eqb c dq then (String bs (str1 c), 1%nat)
      else if n =? 8 then (String bs "b", 1%nat)
      else if n =? 12 then (String bs "f", 1%nat)
      else if n =? 10 then (String bs "n", 1%nat)
      else if n =? 13 then (String bs "r", 1%nat)
      else if n =? 9 then (String bs "t", 1%nat)
      else if (n <? 32) || Ascii.eqb c "<" || Ascii.eqb c ">" || Ascii.eqb c "&"
      then (String bs (String "u" (String "0" (String "0" (hex2 n)))), 1%nat)
      else (str1 c, 1%nat)
    else
      match utf8_len s with
      | O => (String bs "ufffd", 1%nat)
      | k =>
        let r := take_s k s in
        if bool_decide (r = String (chr 226) (String (chr 128) (str1 (chr 168))))
        then (String bs "u2028", k)
        else if bool_decide (r = String (chr 226) (String (chr 128) (str1 (chr 169))))
        then (String bs "u2029", k)
        else (r, k)
      end
  end.

Fixpoint escape_from (skip : nat) (s : string) : string :=
  match s with
  | "" => ""
  | String _ rest =>
    match skip with
    | S k => escape_from k rest
    | O =>
      let '(out, n) := escape_step s in
      out +:+ escape_from (n - 1) rest
    end
  end.

Definition appendString (s : string) : string :=
  String dq (escape_from 0 s +:+ str1 dq).

(** Map entries are written in the order of their keys. *)
Fixpoint insert_entry {A : Type} (e : string * A) (l : list (string * A)) : list (string * A) :=
  match l with
  | [] => [e]
  | e' :: l' =>
    if String.leb (fst e) (fst e') then e :: l else e' :: insert_entry e l'
  end.

Definition sort_entries {A : Type} (l : list (string * A)) : list (string * A) :=
  fold_right insert_entry [] l.

(** The parts of an array or object, from first to last, up to the first
    one that fails. *)
Fixpoint join_parts (parts : list (result string)) : result string :=
  match parts with
  | [] => Ok ""
  | p :: parts' =>
    match p with
    | Err e => Err e
    | Ok t =>
      match parts' with
      | [] => Ok t
      | _ =>
        match join_parts parts' with
        | Ok ts => Ok (t +:+ "," +:+ ts)
        | Err e => Err e
        end
      end
    end
  end.

Definition member_part (e : string * result string) : result string :=
  match snd e with
  | Ok t => Ok (appendString (fst e) +:+ ":" +:+ t)
  | Err err => Err err
  end.

Fixpoint json_Marshal (v : Value) : result string :=
  match v with
  | VNil => Ok "null"
  | VBool b => Ok (if b then "true" else "false")
  | VInt n => Ok (itoa n)
  | VString s => Ok (appendString s)
  | VSlice elems =>
    match join_parts (List.map json_Marshal elems) with
    | Ok t => Ok ("[" +:+ t +:+ "]")
    | Err e => Err e
    end
  | VMap entries =>
    let parts := List.map (fun e => (fst e, json_Marshal (snd e))) entries in
    match join_parts (List.map member_part (sort_entries parts)) with
    | Ok t => Ok ("{" +:+ t +:+ "}")
    | Err e => Err e
    end
  | VUnsupported type => Err (UnsupportedTypeError type)
  end.

(** ** fmt

    [fmt.Sprintf("HTTP error: %s, Status Code: %d", err, statusCode)]:
    [%s] prints the Error() of an error and [%!s(<nil>)] for a nil one. *)
Definition Sprintf_HTTP_error (err : option error) (statusCode : Z) : string :=
  "HTTP error: "
  +:+ match err with Some e => Error_msg e | None => "%!s(<nil>)" end
  +:+ ", Status Code: " +:+ itoa statusCode.

(** ** net/http

    One exchange of [SendRequest] with the network: what
    [http.NewRequestWithContext], [client.Do] and [io.ReadAll] come to.
    It is an input of the model.  Timeouts and cancellation of the
    context show as [DoFails] or [ReadFails]. *)

Inductive Context : Type :=
| context_Background
| context_Other (id : N).

Record Request : Type := mkRequest {
  req_ctx : Context;
  req_method : string;
  req_url : string;
  req_headers : gmap string string;   (* as added by req.Header.Add *)
  req_body : string;
}.

Inductive Exchange : Type :=
| NewRequestFails (err : error)            (* no request is made *)
| DoFails (err : error)                    (* no response *)
| ReadFails (status : Z) (err : error)     (* a response whose body cannot be read *)
| Responds (status : Z) (body : string).

(** The world a call runs in: how the network answers a request, given
    the requests made before, and the requests made so far. *)
Record World : Type := mkWorld {
  network : list Request -> Request -> Exchange;
  requests : list Request;
}.

Definition made (req : Request) (w : World) : World :=
  mkWorld (network w) (requests w ++ [req]).

(** ** airstack.go *)

(** Constants.  [apiTimeout], the 60 seconds the HTTP client waits, is
    real time: a request that takes longer shows as [DoFails] or
    [ReadFails]. *)
Definition apiEndpointProd : string := "https://api.airstack.xyz/gql".
Definition successStatusCode : Z := 200.
Definition unprocessableEntityStatus : Z := 422.

(** SendRequest handles HTTP requests to the Airstack API.
    The result is the triple (response, statusCode, err). *)
Definition SendRequest (ctx : Context) (method url : string)
    (headers : gmap string string) (body : string) (w : World)
  : (string * Z * option error) * World :=
  let req := mkRequest ctx method url headers body in
  match network w (requests w) req with
  | NewRequestFails err => (("", 0%Z, Some err), w)
  | DoFails err => (("", 0%Z, Some err), made req w)
  | ReadFails status err => (("", status, Some err), made req w)
  | Responds statusCode response =>
    if negb (statusCode =? successStatusCode)%Z then
      match Unmarshal_map_interface response with
      | Some err =>
        (* Handle JSON parse error *)
        ((response, statusCode, Some err), made req w)
      | None => ((response, statusCode, None), made req w)
      end
    else ((response, statusCode, None), made req w)
  end.

(** AirstackClient manages the API client for Airstack. *)
Record AirstackClient : Type := mkAirstackClient {
  APIKey : string;
  URL : string;
}.

(** NewAirstackClient initializes a new Airstack client. *)
Definition NewAirstackClient (apiKey : string) : AirstackClient :=
  {| APIKey := apiKey; URL := apiEndpointProd |}.

(** QueryResponse holds the GraphQL query response structure.  A nil
    function value is [None]. *)
Inductive QueryResponse : Type := mkQueryResponse {
  Data : string;
  StatusCode : Z;
  Error : string;
  HasNextPage : bool;
  HasPrevPage : bool;
  NextPageFunc : option (World -> (option QueryResponse * option error) * World);
  PrevPageFunc : option (World -> (option QueryResponse * option error) * World);
}.

(** ExecuteQuery sends a GraphQL query to the Airstack API and returns
    the parsed response.  The result is the pair of a QueryResponse
    pointer, [None] when nil, and an error; the fields a composite literal
    does not name are zero. *)
Definition ExecuteQuery (client : AirstackClient) (ctx : Context) (query : string)
    (variables : Value) (w : World)
  : (option QueryResponse * option error) * World :=
  match json_Marshal (VMap [("query", VString query); ("variables", variables)]) with
  | Err err => ((None, Some err), w)
  | Ok body =>
    let headers : gmap string string :=
      <["Content-Type" := "application/json"]> (<["Authorization" := APIKey client]> ∅) in
    let '((response, statusCode, err), w') :=
      SendRequest ctx "POST" (URL client) headers body w in
    if bool_decide (is_Some err) || negb (statusCode =? successStatusCode)%Z then
      ((Some {| Data := ""; StatusCode := statusCode;
                Error := Sprintf_HTTP_error err statusCode;
                HasNextPage := false; HasPrevPage := false;
                NextPageFunc := None; PrevPageFunc := None |}, None), w')
    else
      match Unmarshal_map_RawMessage response with
      | (_, Some err) => ((None, Some err), w')
      | (respData, None) =>
        (* Check for "errors" field in response JSON *)
        match respData !! "errors" with
        | Some errorField =>
          ((Some {| Data := ""; StatusCode := statusCode; Error := errorField;
                    HasNextPage := false; HasPrevPage := false;
                    NextPageFunc := None; PrevPageFunc := None |}, None), w')
        | None =>
          ((Some {| Data := default "" (respData !! "data"); StatusCode := statusCode;
                    Error := "";
                    HasNextPage := false; HasPrevPage := false;
                    NextPageFunc := None; PrevPageFunc := None |}, None), w')
        end
      end
  end.

Definition tabs (n : nat) : string :=
  Nat.iter n (String "009"%char) "".

Definition line (indent : nat) (text : string) : string :=
  tabs indent +:+ text +:+ str1 "010"%char.

(** The query text of GetTokenBalances: the raw string literal as it
    stands between its backquotes, from the line break after the first to
    the tab before the second. *)
Definition GetTokensHeldByWalletAddress : string :=
  line 0 ""
  +:+ line 1 "query GetTokensHeldByWalletAddress($identity: Identity, $tokenType: [TokenType!], $blockchain: TokenBlockchain!, $limit: Int) {"
  +:+ line 2 "TokenBalances("
  +:+ line 3 "input: {filter: {owner: {_eq: $identity}, tokenType: {_in: $tokenType}}, blockchain: $blockchain, limit: $limit}"
  +:+ line 2 ") {"
  +:+ line 3 "TokenBalance {"
  +:+ line 4 "amount"
  +:+ line 4 "formattedAmount"
  +:+ line 4 "blockchain"
  +:+ line 4 "tokenAddress"
  +:+ line 4 "tokenId"
  +:+ line 4 "// Include other fields as needed"
  +:+ line 3 "}"
  +:+ line 2 "}"
  +:+ line 1 "}"
  +:+ tabs 1.

(** What a call comes to: it returns, or the program panics. *)
Inductive outcome (A : Type) : Type :=
| Returns (a : A)
| Panics (msg : string).
Arguments Returns {A} a.
Arguments Panics {A} msg.

(** GetTokenBalances queries for token balances with given parameters.
    The result is the pair ([]TokenBalance, error); a nil slice is the
    empty list.  [resp.Data] of a nil [resp] is a nil dereference. *)
Definition GetTokenBalances (client : AirstackClient) (ctx : Context)
    (variables : Value) (w : World)
  : outcome (list TokenBalance * option error) * World :=
  let query := GetTokensHeldByWalletAddress in
  let '((resp, err), w') := ExecuteQuery client ctx query variables w in
  match err with
  | Some err => (Returns ([], Some err), w')
  | None =>
    match resp with
    | None =>
      (Panics "runtime error: invalid memory address or nil pointer dereference", w')
    | Some resp =>
      (* Parsing part of the response into the structure we defined above. *)
      match Unmarshal_respData (Data resp) with
      | (_, Some err) => (Returns ([], Some err), w')
      | (respData, None) =>
        (Returns (elements (TokenBalance_ (TokenBalances respData)), None), w')
      end
    end
  end.

(** ** The demo program (package main)

    The program writes to its standard output; what it writes is the
    result of [main]. *)

(** [fmt.Println(a, err)]: the operands with a space between them and a
    line break; an error prints as its Error(). *)
Definition Println (a : string) (err : error) : string :=
  a +:+ " " +:+ Error_msg err +:+ str1 "010"%char.

(** [fmt.Printf("Token Address: %s, Amount: %s\n", tokenAddress, amount)]. *)
Definition Printf_balance (tokenAddress amount : string) : string :=
  "Token Address: " +:+ tokenAddress +:+ ", Amount: " +:+ amount +:+ str1 "010"%char.

Definition main (w : World) : outcome string * World :=
  let client := NewAirstackClient "your_api_key_here" in
  let variables :=
    VMap [("identity", VString "wallet_address_here");
          ("tokenType", VSlice [VString "ERC20"; VString "ERC721"]);   (* Example token types *)
          ("blockchain", VString "ethereum");
          ("limit", VInt 10)] in
  let '(r, w') := GetTokenBalances client context_Background variables w in
  match r with
  | Panics msg => (Panics msg, w')
  | Returns (_, Some err) =>
    (Returns (Println "Error fetching token balances:" err), w')
  | Returns (balances, None) =>
    (Returns (fold_left
                (fun out balance =>
                   out +:+ Printf_balance (TokenAddress balance) (Amount balance))
                balances ""), w')
  end.

(** ** The vocabulary of the properties *)

(** The request ExecuteQuery hands to SendRequest for a marshalled body. *)
Definition query_request (client : AirstackClient) (ctx : Context) (body : string) : Request :=
  mkRequest ctx "POST" (URL client)
    (<["Content-Type" := "application/json"]> (<["Authorization" := APIKey client]> ∅))
    body.

(** The body of that request: the serialization of
    [{query: queryText, variables: variables}]. *)
Definition query_body (query : string) (variables : Value) : result string :=
  json_Marshal (VMap [("query", VString query); ("variables", variables)]).

(** How the network answers the request of a call made in world [w]. *)
Definition answer (w : World) (req : Request) : Exchange :=
  network w (requests w) req.

(** The status code of the response, where one has arrived. *)
Definition response_status (ex : Exchange) : option Z :=
  match ex with
  | ReadFails status _ | Responds status _ => Some status
  | NewRequestFails _ | DoFails _ => None
  end.

(** What SendRequest returns for an exchange: the body, the status code
    and the error, and the world it leaves. *)
Definition exchange_body (ex : Exchange) : string :=
  match ex with
  | Responds _ body => body
  | NewRequestFails _ | DoFails _ | ReadFails _ _ => ""
  end.

Definition exchange_code (ex : Exchange) : Z :=
  match ex with
  | ReadFails status _ | Responds status _ => status
  | NewRequestFails _ | DoFails _ => 0%Z
  end.

Definition after (ex : Exchange) (req : Request) (w : World) : World :=
  match ex with
  | NewRequestFails _ => w
  | DoFails _ | ReadFails _ _ | Responds _ _ => made req w
  end.

(** The error is that of the exchange or, for a response whose status is
    not 200, that of checking its body. *)
Definition exchange_error (ex : Exchange) : option error :=
  match ex with
  | NewRequestFails err | DoFails err | ReadFails _ err => Some err
  | Responds status body =>
    if (status =? successStatusCode)%Z then None else Unmarshal_map_interface body
  end.

(** An envelope without pagination. *)
Definition envelope (data : string) (statusCode : Z) (err : string) : QueryResponse :=
  {| Data := data; StatusCode := statusCode; Error := err;
     HasNextPage := false; HasPrevPage := false;
     NextPageFunc := None; PrevPageFunc := None |}.

(** The bytes of the field [key] of a JSON mapping: those of its last
    member of that key. *)
Definition field_raw (key : string) (members : list (string * string * json)) : option string :=
  fold_left (fun found '(k, raw, _) => if bool_decide (k = key) then Some raw else found)
    members None.

(** [sub] occurs in [s]. *)
Definition contains (s sub : string) : Prop :=
  exists before after, s = before +:+ sub +:+ after.

(** A world whose network answers every request with status [status] and
    body [body], as a test server does. *)
Definition server (status : Z) (body : string) : World :=
  mkWorld (fun _ _ => Responds status body) [].

(** JSON text written with single quotes for double ones, for the
    examples. *)
Fixpoint js (s : string) : string :=
  match s with
  | "" => ""
  | String c s' => String (if Ascii.eqb c sq then dq else c) (js s')
  end.

(** *** A synthetic server of token balances

    The server writes the records as [json.Marshal] writes a
    [[]TokenBalance]: the five fields in order, no white space, each
    string by [appendString].  A well-formed record has fields that are
    valid UTF-8: these are the strings JSON can carry as they are. *)

(** [utf8.ValidString]. *)
Fixpoint valid_utf8_from (skip : nat) (s : string) : bool :=
  match s with
  | "" => true
  | String _ rest =>
    match skip with
    | S k => valid_utf8_from k rest
    | O =>
      match utf8_len s with
      | O => false
      | S k => valid_utf8_from k rest
      end
    end
  end.

Definition valid_utf8 (s : string) : bool := valid_utf8_from 0 s.

Definition well_formed (t : TokenBalance) : bool :=
  valid_utf8 (Amount t) && valid_utf8 (FormattedAmount t) && valid_utf8 (Blockchain t)
  && valid_utf8 (TokenAddress t) && valid_utf8 (TokenId t).

(** The field names need no escape. *)
Definition plain_char (c : ascii) : bool :=
  (32 <=? code c) && (code c <? 128) && negb (Ascii.eqb c dq) && negb (Ascii.eqb c bs).

Fixpoint plain (s : string) : bool :=
  match s with
  | "" => true
  | String c s' => plain_char c && plain s'
  end.

Definition quoted (s : string) : string := String dq (s +:+ str1 dq).

Definition render_TokenBalance (t : TokenBalance) : string :=
  "{" +:+ quoted "amount" +:+ ":" +:+ appendString (Amount t)
  +:+ "," +:+ quoted "formattedAmount" +:+ ":" +:+ appendString (FormattedAmount t)
  +:+ "," +:+ quoted "blockchain" +:+ ":" +:+ appendString (Blockchain t)
  +:+ "," +:+ quoted "tokenAddress" +:+ ":" +:+ appendString (TokenAddress t)
  +:+ "," +:+ quoted "tokenId" +:+ ":" +:+ appendString (TokenId t)
  +:+ "}".

Fixpoint render_records (ts : list TokenBalance) : string :=
  match ts with
  | [] => ""
  | [t] => render_TokenBalance t
  | t :: ts' => render_TokenBalance t +:+ "," +:+ render_records ts'
  end.

Definition render_array (ts : list TokenBalance) : string :=
  "[" +:+ render_records ts +:+ "]".

Definition render_inner (ts : list TokenBalance) : string :=
  "{" +:+ quoted "TokenBalance" +:+ ":" +:+ render_array ts +:+ "}".

Definition render_data (ts : list TokenBalance) : string :=
  "{" +:+ quoted "TokenBalances" +:+ ":" +:+ render_inner ts +:+ "}".

Definition token_balance_response (ts : list TokenBalance) : string :=
  "{" +:+ quoted "data" +:+ ":" +:+ render_data ts +:+ "}".

(** The values the decoder reads these texts as. *)
Definition tree_TokenBalance (t : TokenBalance) : json :=
  JObject [("amount", appendString (Amount t), JString (Amount t));
           ("formattedAmount", appendString (FormattedAmount t), JString (FormattedAmount t));
           ("blockchain", appendString (Blockchain t), JString (Blockchain t));
           ("tokenAddress", appendString (TokenAddress t), JString (TokenAddress t));
           ("tokenId", appendString (TokenId t), JString (TokenId t))].

Definition tree_array (ts : list TokenBalance) : json :=
  JArray (List.map tree_TokenBalance ts).

Definition tree_inner (ts : list TokenBalance) : json :=
  JObject [("TokenBalance", render_array ts, tree_array ts)].

Definition tree_data (ts : list TokenBalance) : json :=
  JObject [("TokenBalances", render_inner ts, tree_inner ts)].

Definition wrap {A B : Type} (f : A -> B) (p : parsed A) : parsed B :=
  match p with
  | Parsed a rest => Parsed (f a) rest
  | Failed e => Failed e
  | OutOfFuel => OutOfFuel
  end.

(** *** Notions for the proofs about the decoder *)

(** The parse, where it succeeds, leaves less than it was given. *)
Definition shorter {A : Type} (p : parsed A) (s : string) : Prop :=
  match p with
  | Parsed _ rest => (String.length rest < String.length s)%nat
  | Failed _ | OutOfFuel => True
  end.

(** [r] is an end of [s]. *)
Definition suffix_of (r s : string) : Prop := exists p, s = p +:+ r.

(** The bytes kept with each member are not empty and occur in [s]. *)
Definition raws_in (s : string) (ms : list (string * string * json)) : Prop :=
  Forall (fun m => snd (fst m) ≠ "" /\ contains s (snd (fst m))) ms.

(** The scanner takes the bytes [e] one after the other. *)
Fixpoint pushes (e : string) (r : result (string * string)) : result (string * string) :=
  match e with
  | "" => r
  | String c e' => push c (pushes e' r)
  end.

(** The bytes of a character outside ASCII. *)
Definition high (c : ascii) : bool := 128 <=? code c.

Fixpoint all_high (s : string) : bool :=
  match s with
  | "" => true
  | String c s' => high c && all_high s'
  end.

(** *** The demo program: its client, its variables and its request *)

Definition demo_client : AirstackClient := NewAirstackClient "your_api_key_here".

Definition demo_variables : Value :=
  VMap [("identity", VString "wallet_address_here");
        ("tokenType", VSlice [VString "ERC20"; VString "ERC721"]);
        ("blockchain", VString "ethereum");
        ("limit", VInt 10)].

Definition demo_body : string :=
  "{" +:+ quoted "query" +:+ ":" +:+ appendString GetTokensHeldByWalletAddress
  +:+ "," +:+ quoted "variables" +:+ ":"
  +:+ js "{'blockchain':'ethereum','identity':'wallet_address_here','limit':10,'tokenType':['ERC20','ERC721']}"
  +:+ "}".

Definition demo_request : Request :=
  query_request demo_client context_Background demo_body.

(** What [main] prints for the records it receives. *)
Fixpoint print_balances (balances : list TokenBalance) : string :=
  match balances with
  | [] => ""
  | balance :: rest =>
    Printf_balance (TokenAddress balance) (Amount balance) +:+ print_balances rest
  end.

(** A world whose network fails every request before a response. *)
Definition unreachable (err : error) : World :=
  mkWorld (fun _ _ => DoFails err) [].

(** *** The values of a decoded mapping *)

(** The member of a JSON mapping a key selects, its bytes and its value:
    the last one of that key. *)
Definition field_member (key : string) (members : list (string * string * json))
  : option (string * json) :=
  fold_left (fun found '(k, raw, v) => if bool_decide (k = key) then Some (raw, v) else found)
    members None.

Definition field_value (key : string) (members : list (string * string * json))
  : option json :=
  snd <$> field_member key members.

(** What [json.Unmarshal(data, &respData)] stores for an input that reads
    as the value [v]. *)
Definition decode_respData (v : json) : respData_t * option error :=
  match v with
  | JObject members => fold_left decode_outer_member members (zero_respData, None)
  | JNull => (zero_respData, None)
  | _ => (zero_respData, Some (UnmarshalTypeError (kind_of v) type_outer "" ""))
  end.

(** What GetTokenBalances returns for an envelope whose Data reads as
    [v]. *)
Definition balances_of (v : json) : list TokenBalance * option error :=
  match decode_respData v with
  | (_, Some err) => ([], Some err)
  | (respData, None) => (elements (TokenBalance_ (TokenBalances respData)), None)
  end.

(** Two names are the same up to the case of their letters. *)
Definition same_name (a b : string) : bool :=
  bool_decide (foldName a = foldName b).

(** The key of a member selects the field [f] of a TokenBalance: it is
    the field's name in JSON, up to the case of letters. *)
Definition selects (f : TokenBalance_field) (member : string * string * json) : bool :=
  bool_decide (foldName (fst (fst member)) = foldName (json_name f)).

(** [x] is the value of the one member of [ms] whose key is [name] up to
    the case of letters. *)
Definition only (name : string) (x : json) (ms : list (string * string * json)) : Prop :=
  exists before k raw after,
    ms = before ++ (k, raw, x) :: after
    /\ same_name name k = true
    /\ Forall (fun m => same_name name (fst (fst m)) = false) (before ++ after).

(** The record a JSON value decodes to, from the zero record. *)
Definition record_of (v : json) : TokenBalance :=
  fst (decode_TokenBalance v zero_TokenBalance).

Definition string_or_null (v : json) : bool :=
  match v with
  | JString _ | JNull => true
  | _ => false
  end.

(** A JSON value fits a TokenBalance: it is null, or an object in which
    every member whose key selects a field holds a string or null. *)
Definition record_fits (v : json) : bool :=
  match v with
  | JNull => true
  | JObject ms =>
    forallb (fun m => implb (existsb (fun f => selects f m) TokenBalance_fields)
                        (string_or_null (snd m))) ms
  | _ => false
  end.

(** The error of a JSON value that does not fit its Go type. *)
Definition is_type_error (e : error) : Prop :=
  match e with
  | UnmarshalTypeError _ _ _ _ => True
  | _ => False
  end.

Definition type_errors (o : option error) : Prop :=
  forall e, o = Some e -> is_type_error e.

(** The bytes kept with a member read as the member's value. *)
Definition reads (member : string * string * json) : Prop :=
  json_parse (snd (fst member)) = Ok (snd member).

(** The tail [t] starts like [r], or is empty. *)
Definition same_head (t r : string) : Prop :=
  match t, r with
  | "", _ => True
  | String a _, String b _ => a = b
  | String _ _, "" => False
  end.

(** *** The values Marshal writes *)




(** * Properties *)

(** Tests on bytes that are known are decided by computation. *)
Ltac known_bytes :=
  repeat match goal with
  | |- context [Ascii.eqb ?a ?b] =>
    let v := eval vm_compute in (Ascii.eqb a b) in
    lazymatch v with
    | true => change (Ascii.eqb a b) with true
    | false => change (Ascii.eqb a b) with false
    end
  | |- context [isSpace ?a] =>
    let v := eval vm_compute in (isSpace a) in
    lazymatch v with
    | true => change (isSpace a) with true
    | false => change (isSpace a) with false
    end
  end;
  cbn [negb]; cbv iota.

(** ** Strings *)

Lemma app_cons (c : ascii) (s t : string) :
  String c s +:+ t = String c (s +:+ t).
Proof. reflexivity. Qed.

Lemma app_empty_l (t : string) : "" +:+ t = t.
Proof. reflexivity. Qed.

Lemma app_empty_r (s : string) : s +:+ "" = s.
Proof. induction s as [|c s IH]; [reflexivity|]. rewrite app_cons, IH. reflexivity. Qed.

Lemma app_assoc_s (s t u : string) : (s +:+ t) +:+ u = s +:+ (t +:+ u).
Proof.
  induction s as [|c s IH]; [reflexivity|].
  rewrite !app_cons, IH. reflexivity.
Qed.

Lemma length_app_s (s t : string) :
  String.length (s +:+ t) = (String.length s + String.length t)%nat.
Proof.
  induction s as [|c s IH]; [reflexivity|].
  rewrite app_cons. simpl. rewrite IH. reflexivity.
Qed.

Lemma take_s_app (p r : string) : take_s (String.length p) (p +:+ r) = p.
Proof.
  induction p as [|c p IH]; [destruct r; reflexivity|].
  rewrite app_cons. simpl. rewrite IH. reflexivity.
Qed.

Lemma consumed_app (p r : string) : consumed (p +:+ r) r = p.
Proof.
  unfold consumed. rewrite length_app_s.
  replace (String.length p + String.length r - String.length r)%nat
    with (String.length p) by lia.
  apply take_s_app.
Qed.

Lemma contains_middle (a b c : string) : contains (a +:+ b +:+ c) b.
Proof. exists a, c. reflexivity. Qed.


(** ** The decoder ends

    Every value read takes at least one byte, so that the fuel
    [json_parse] gives is never used up. *)

Lemma skip_space_length s : (String.length (skip_space s) <= String.length s)%nat.
Proof. induction s as [|c s IH]; simpl; [lia|]. destruct (isSpace c); simpl; lia. Qed.

Lemma push_inv c r lit rest :
  push c r = Ok (lit, rest) -> exists lit', r = Ok (lit', rest) /\ lit = String c lit'.
Proof. destruct r as [[l r']|e]; simpl; [|discriminate]. intros [= <- <-]. eauto. Qed.

Lemma scan_string_length s : forall st lit rest,
  scan_string st s = Ok (lit, rest) -> (String.length rest < String.length s)%nat.
Proof.
  induction s as [|c s IH]; intros st lit rest H.
  - destruct st; discriminate.
  - cbn [scan_string] in H. cbn [String.length].
    destruct st.
    + destruct (Ascii.eqb c dq); [injection H as _ <-; lia|].
      destruct (Ascii.eqb c bs); [apply push_inv in H as (l & H & _); apply IH in H; lia|].
      destruct (code c <? 32); [discriminate|].
      apply push_inv in H as (l & H & _); apply IH in H; lia.
    + destruct (_ || _); [apply push_inv in H as (l & H & _); apply IH in H; lia|].
      destruct (Ascii.eqb c "u"); [|discriminate].
      apply push_inv in H as (l & H & _); apply IH in H; lia.
    + destruct (hexval c); [|discriminate].
      apply push_inv in H as (l & H & _); apply IH in H; lia.
Qed.

Lemma scan_number_length s : forall st lit rest,
  scan_number st s = Ok (lit, rest) -> (String.length rest <= String.length s)%nat.
Proof.
  induction s as [|c s IH]; intros st lit rest H.
  - destruct st; try discriminate; injection H as _ <-; simpl; lia.
  - cbn [scan_number] in H. cbn [String.length].
    destruct st;
      repeat match type of H with
      | (if ?b then _ else _) = _ => destruct b
      | push _ _ = _ => apply push_inv in H as (l & H & _); apply IH in H
      | Ok _ = Ok _ => injection H as _ <-
      | Err _ = _ => discriminate
      end; cbn [String.length]; lia.
Qed.

Lemma scan_word_length name expect : forall s rest,
  scan_word name expect s = Ok rest -> (String.length rest <= String.length s)%nat.
Proof.
  induction expect as [|e expect IH]; intros s rest H.
  - injection H as <-. lia.
  - cbn [scan_word] in H. destruct s as [|c s]; [discriminate|].
    destruct (Ascii.eqb c e); [|discriminate]. apply IH in H. simpl. lia.
Qed.


Lemma shorter_wrap {A B : Type} (f : A -> B) p s : shorter p s -> shorter (wrap f p) s.
Proof. destruct p; exact id. Qed.

Lemma literal_shorter mk r s c :
  (match r with Ok (_, rest) => (String.length rest <= String.length s)%nat | Err _ => True end) ->
  shorter (literal mk r) (String c s).
Proof. destruct r as [[l rest]|e]; simpl; [lia|trivial]. Qed.

Lemma parse_shorter f :
  (forall d s, shorter (parse_value f d s) s)
  /\ (forall d s, shorter (parse_elements f d s) s)
  /\ (forall d s, shorter (parse_members f d s) s).
Proof.
  induction f as [|f (IHv & IHe & IHm)]; [repeat split; intros; exact I|].
  assert (Hv : forall d s, shorter (parse_value (S f) d s) s).
  { intros d s. cbn [parse_value].
    pose proof (skip_space_length s) as Hs.
    destruct (skip_space s) as [|c s0]; [exact I|]. cbn [String.length] in Hs.
    destruct (Ascii.eqb c "{").
    { destruct (maxNestingDepth <? d + 1); [exact I|].
      pose proof (skip_space_length s0) as Hs0.
      destruct (skip_space s0) as [|c1 s1]; [exact I|]. cbn [String.length] in Hs0.
      destruct (Ascii.eqb c1 "}"); [simpl; lia|].
      specialize (IHm (d + 1) (String c1 s1)).
      destruct (parse_members f (d + 1) (String c1 s1)); simpl in *; try exact I. lia. }
    destruct (Ascii.eqb c "[").
    { destruct (maxNestingDepth <? d + 1); [exact I|].
      pose proof (skip_space_length s0) as Hs0.
      destruct (skip_space s0) as [|c1 s1]; [exact I|]. cbn [String.length] in Hs0.
      destruct (Ascii.eqb c1 "]"); [simpl; lia|].
      specialize (IHe (d + 1) (String c1 s1)).
      destruct (parse_elements f (d + 1) (String c1 s1)); simpl in *; try exact I. lia. }
    destruct (Ascii.eqb c dq).
    { destruct (scan_string InString s0) as [[l r]|e] eqn:E; simpl; [|exact I].
      apply scan_string_length in E. lia. }
    destruct (Ascii.eqb c "-").
    { destruct (scan_number NumNeg s0) as [[l r]|e] eqn:E; simpl; [|exact I].
      apply scan_number_length in E. lia. }
    destruct (Ascii.eqb c "0").
    { destruct (scan_number Num0 s0) as [[l r]|e] eqn:E; simpl; [|exact I].
      apply scan_number_length in E. lia. }
    destruct (between 49 57 c).
    { destruct (scan_number Num1 s0) as [[l r]|e] eqn:E; simpl; [|exact I].
      apply scan_number_length in E. lia. }
    destruct (Ascii.eqb c "t").
    { destruct (scan_word "true" "rue" s0) as [r|e] eqn:E; simpl; [|exact I].
      apply scan_word_length in E. lia. }
    destruct (Ascii.eqb c "f").
    { destruct (scan_word "false" "alse" s0) as [r|e] eqn:E; simpl; [|exact I].
      apply scan_word_length in E. lia. }
    destruct (Ascii.eqb c "n").
    { destruct (scan_word "null" "ull" s0) as [r|e] eqn:E; simpl; [|exact I].
      apply scan_word_length in E. lia. }
    exact I. }
  split; [exact Hv|]. split.
  - intros d s. cbn [parse_elements].
    specialize (IHv d s). destruct (parse_value f d s) as [v r| |]; try exact I.
    simpl in IHv. pose proof (skip_space_length r) as Hr.
    destruct (skip_space r) as [|c r']; [exact I|]. cbn [String.length] in Hr.
    destruct (Ascii.eqb c ",").
    { specialize (IHe d r'). destruct (parse_elements f d r'); simpl in *; try exact I. lia. }
    destruct (Ascii.eqb c "]"); simpl; [lia|exact I].
  - intros d s. cbn [parse_members].
    pose proof (skip_space_length s) as Hs.
    destruct (skip_space s) as [|c s0]; [exact I|]. cbn [String.length] in Hs.
    destruct (negb (Ascii.eqb c dq)); [exact I|].
    destruct (scan_string InString s0) as [[key r1]|e] eqn:E; [|exact I].
    apply scan_string_length in E.
    pose proof (skip_space_length r1) as Hr1.
    destruct (skip_space r1) as [|c2 r2]; [exact I|]. cbn [String.length] in Hr1.
    destruct (negb (Ascii.eqb c2 ":")); [exact I|].
    pose proof (skip_space_length r2) as Hr2.
    specialize (IHv d (skip_space r2)).
    destruct (parse_value f d (skip_space r2)) as [v r3| |]; try exact I.
    simpl in IHv. pose proof (skip_space_length r3) as Hr3.
    destruct (skip_space r3) as [|c4 r4]; [exact I|]. cbn [String.length] in Hr3.
    destruct (Ascii.eqb c4 ",").
    { specialize (IHm d r4). destruct (parse_members f d r4); simpl in *; try exact I. lia. }
    destruct (Ascii.eqb c4 "}"); simpl; [lia|exact I].
Qed.

Lemma wrap_fuel {A B : Type} (f : A -> B) p : p ≠ OutOfFuel -> wrap f p ≠ OutOfFuel.
Proof. destruct p; simpl; congruence. Qed.

Lemma literal_fuel mk r : literal mk r ≠ OutOfFuel.
Proof. destruct r as [[l rest]|e]; discriminate. Qed.

Lemma keyword_fuel v r : keyword v r ≠ OutOfFuel.
Proof. destruct r; discriminate. Qed.

Lemma parse_fuel f :
  (forall d s, (2 * String.length s + 1 <= f)%nat -> parse_value f d s ≠ OutOfFuel)
  /\ (forall d s, (2 * String.length s + 2 <= f)%nat -> parse_elements f d s ≠ OutOfFuel)
  /\ (forall d s, (2 * String.length s + 2 <= f)%nat -> parse_members f d s ≠ OutOfFuel).
Proof.
  induction f as [|f (IHv & IHe & IHm)]; [repeat split; intros; lia|].
  split; [|split].
  - intros d s Hf. cbn [parse_value].
    pose proof (skip_space_length s) as Hs.
    destruct (skip_space s) as [|c s0]; [discriminate|]. cbn [String.length] in Hs.
    destruct (Ascii.eqb c "{").
    { destruct (maxNestingDepth <? d + 1); [discriminate|].
      pose proof (skip_space_length s0) as Hs0.
      destruct (skip_space s0) as [|c1 s1]; [discriminate|]. cbn [String.length] in Hs0.
      destruct (Ascii.eqb c1 "}"); [discriminate|].
      specialize (IHm (d + 1) (String c1 s1)). cbn [String.length] in IHm.
      destruct (parse_members f (d + 1) (String c1 s1)); try discriminate.
      exfalso. apply IHm; [lia | reflexivity]. }
    destruct (Ascii.eqb c "[").
    { destruct (maxNestingDepth <? d + 1); [discriminate|].
      pose proof (skip_space_length s0) as Hs0.
      destruct (skip_space s0) as [|c1 s1]; [discriminate|]. cbn [String.length] in Hs0.
      destruct (Ascii.eqb c1 "]"); [discriminate|].
      specialize (IHe (d + 1) (String c1 s1)). cbn [String.length] in IHe.
      destruct (parse_elements f (d + 1) (String c1 s1)); try discriminate.
      exfalso. apply IHe; [lia | reflexivity]. }
    repeat match goal with
    | |- (if ?b then _ else _) ≠ _ => destruct b
    | |- literal _ _ ≠ _ => apply literal_fuel
    | |- keyword _ _ ≠ _ => apply keyword_fuel
    end. discriminate.
  - intros d s Hf. cbn [parse_elements].
    specialize (IHv d s). pose proof (proj1 (parse_shorter f) d s) as Hsh.
    destruct (parse_value f d s) as [v r| |]; [|discriminate|exfalso; apply IHv; [lia|reflexivity]].
    simpl in Hsh. pose proof (skip_space_length r) as Hr.
    destruct (skip_space r) as [|c r']; [discriminate|]. cbn [String.length] in Hr.
    destruct (Ascii.eqb c ",").
    { specialize (IHe d r'). destruct (parse_elements f d r'); try discriminate.
      exfalso. apply IHe; [lia | reflexivity]. }
    destruct (Ascii.eqb c "]"); discriminate.
  - intros d s Hf. cbn [parse_members].
    pose proof (skip_space_length s) as Hs.
    destruct (skip_space s) as [|c s0]; [discriminate|]. cbn [String.length] in Hs.
    destruct (negb (Ascii.eqb c dq)); [discriminate|].
    destruct (scan_string InString s0) as [[key r1]|e] eqn:E; [|discriminate].
    apply scan_string_length in E.
    pose proof (skip_space_length r1) as Hr1.
    destruct (skip_space r1) as [|c2 r2]; [discriminate|]. cbn [String.length] in Hr1.
    destruct (negb (Ascii.eqb c2 ":")); [discriminate|].
    pose proof (skip_space_length r2) as Hr2.
    specialize (IHv d (skip_space r2)).
    pose proof (proj1 (parse_shorter f) d (skip_space r2)) as Hsh.
    destruct (parse_value f d (skip_space r2)) as [v r3| |]; [|discriminate|exfalso; apply IHv; [lia|reflexivity]].
    simpl in Hsh. pose proof (skip_space_length r3) as Hr3.
    destruct (skip_space r3) as [|c4 r4]; [discriminate|]. cbn [String.length] in Hr3.
    destruct (Ascii.eqb c4 ",").
    { specialize (IHm d r4). destruct (parse_members f d r4); try discriminate.
      exfalso. apply IHm; [lia | reflexivity]. }
    destruct (Ascii.eqb c4 "}"); discriminate.
Qed.

(** [json_parse] never runs out of fuel. *)
Lemma json_parse_fuel data :
  parse_value (2 * String.length data + 1) 0 data ≠ OutOfFuel.
Proof. apply (proj1 (parse_fuel _)). lia. Qed.

(** ** The bytes of a field stand in the input *)



Lemma suffix_refl s : suffix_of s s.
Proof. exists "". reflexivity. Qed.

Lemma suffix_trans a b c : suffix_of a b -> suffix_of b c -> suffix_of a c.
Proof. intros [p ->] [q ->]. exists (q +:+ p). rewrite app_assoc_s. reflexivity. Qed.

Lemma suffix_cons c s : suffix_of s (String c s).
Proof. exists (str1 c). reflexivity. Qed.

Lemma suffix_length r s : suffix_of r s -> (String.length r <= String.length s)%nat.
Proof. intros [p ->]. rewrite length_app_s. lia. Qed.

Lemma contains_suffix s' s raw : contains s' raw -> suffix_of s' s -> contains s raw.
Proof.
  intros (a & b & ->) [p ->]. exists (p +:+ a), b. rewrite !app_assoc_s. reflexivity.
Qed.

Lemma raws_in_suffix s' s ms : raws_in s' ms -> suffix_of s' s -> raws_in s ms.
Proof.
  unfold raws_in. intros H Hs. eapply Forall_impl; [exact H|].
  intros m [H1 H2]. split; [exact H1|]. eapply contains_suffix; eauto.
Qed.

Lemma skip_space_suffix s : suffix_of (skip_space s) s.
Proof.
  induction s as [|c s IH]; [apply suffix_refl|]. simpl.
  destruct (isSpace c); [|apply suffix_refl].
  eapply suffix_trans; [exact IH | apply suffix_cons].
Qed.

(** Chains of ends are found by search. *)
Create HintDb suffix.
#[local] Hint Resolve suffix_refl suffix_cons skip_space_suffix : suffix.
#[local] Hint Extern 4 (suffix_of _ _) =>
  eapply suffix_trans; [eassumption|] : suffix.
#[local] Hint Extern 5 (suffix_of _ _) =>
  eapply suffix_trans; [apply suffix_cons|] : suffix.
#[local] Hint Extern 5 (suffix_of _ _) =>
  eapply suffix_trans; [apply skip_space_suffix|] : suffix.


Lemma scan_string_suffix s : forall st lit rest,
  scan_string st s = Ok (lit, rest) -> suffix_of rest s.
Proof.
  induction s as [|c s IH]; intros st lit rest H.
  - destruct st; discriminate.
  - cbn [scan_string] in H.
    destruct st;
      repeat match type of H with
      | (if ?b then _ else _) = _ => destruct b
      | match ?x with Some _ => _ | None => _ end = _ => destruct x
      | push _ _ = _ =>
        apply push_inv in H as (l & H & _); apply IH in H;
        exact (suffix_trans _ _ _ H (suffix_cons c s))
      | Ok _ = Ok _ => injection H as _ <-; apply suffix_cons
      | Err _ = _ => discriminate
      end.
Qed.

Lemma scan_number_suffix s : forall st lit rest,
  scan_number st s = Ok (lit, rest) -> suffix_of rest s.
Proof.
  induction s as [|c s IH]; intros st lit rest H.
  - destruct st; try discriminate; injection H as _ <-; apply suffix_refl.
  - cbn [scan_number] in H.
    destruct st;
      repeat match type of H with
      | (if ?b then _ else _) = _ => destruct b
      | push _ _ = _ =>
        apply push_inv in H as (l & H & _); apply IH in H;
        exact (suffix_trans _ _ _ H (suffix_cons c s))
      | Ok _ = Ok _ => injection H as _ <-; apply suffix_refl
      | Err _ = _ => discriminate
      end.
Qed.

Lemma scan_word_suffix name expect : forall s rest,
  scan_word name expect s = Ok rest -> suffix_of rest s.
Proof.
  induction expect as [|e expect IH]; intros s rest H.
  - injection H as <-. apply suffix_refl.
  - cbn [scan_word] in H. destruct s as [|c s]; [discriminate|].
    destruct (Ascii.eqb c e); [|discriminate]. apply IH in H.
    exact (suffix_trans _ _ _ H (suffix_cons c s)).
Qed.

Lemma literal_inv mk r v rest :
  literal mk r = Parsed v rest -> exists lit, r = Ok (lit, rest) /\ v = mk lit.
Proof. destruct r as [[l r']|e]; simpl; [|discriminate]. intros [= <- <-]. eauto. Qed.

Lemma keyword_inv v0 r v rest :
  keyword v0 r = Parsed v rest -> r = Ok rest /\ v = v0.
Proof. destruct r as [r'|e]; simpl; [|discriminate]. intros [= <- <-]. eauto. Qed.

Lemma consumed_prefix s r :
  suffix_of r s -> (String.length r < String.length s)%nat ->
  consumed s r ≠ "" /\ contains s (consumed s r).
Proof.
  intros [p ->] Hlen. rewrite consumed_app. split.
  - intros ->. rewrite app_empty_l in Hlen. lia.
  - exists "", r. reflexivity.
Qed.

Lemma parse_suffix f :
  (forall d s v r, parse_value f d s = Parsed v r ->
     suffix_of r s /\ forall ms, v = JObject ms -> raws_in s ms)
  /\ (forall d s vs r, parse_elements f d s = Parsed vs r -> suffix_of r s)
  /\ (forall d s ms r, parse_members f d s = Parsed ms r -> suffix_of r s /\ raws_in s ms).
Proof.
  induction f as [|f (IHv & IHe & IHm)]; [repeat split; intros; discriminate|].
  split; [|split].
  - intros d s v r. cbn [parse_value].
    pose proof (skip_space_suffix s) as Hs.
    destruct (skip_space s) as [|c s0]; [discriminate|].
    pose proof (suffix_trans _ _ _ (suffix_cons c s0) Hs) as Hs0.
    destruct (Ascii.eqb c "{").
    { destruct (maxNestingDepth <? d + 1); [discriminate|].
      pose proof (skip_space_suffix s0) as Hk.
      destruct (skip_space s0) as [|c1 s1]; [discriminate|].
      destruct (Ascii.eqb c1 "}").
      { intros [= <- <-]. split.
        - eauto 6 with suffix.
        - intros ms [= <-]. constructor. }
      destruct (parse_members f (d + 1) (String c1 s1)) as [ms rest| |] eqn:E; try discriminate.
      intros [= <- <-]. apply IHm in E as [E1 E2]. split.
      - eauto 6 with suffix.
      - intros ms' [= <-]. eapply raws_in_suffix; [exact E2|]. eauto 6 with suffix. }
    destruct (Ascii.eqb c "[").
    { destruct (maxNestingDepth <? d + 1); [discriminate|].
      pose proof (skip_space_suffix s0) as Hk.
      destruct (skip_space s0) as [|c1 s1]; [discriminate|].
      destruct (Ascii.eqb c1 "]").
      { intros [= <- <-]. split; [|discriminate]. eauto 6 with suffix. }
      destruct (parse_elements f (d + 1) (String c1 s1)) as [vs rest| |] eqn:E; try discriminate.
      intros [= <- <-]. apply IHe in E. split; [|discriminate]. eauto 6 with suffix. }
    repeat match goal with
    | |- (if ?b then _ else _) = _ -> _ => destruct b
    | |- literal _ _ = _ -> _ =>
      let H := fresh in
      intros H; apply literal_inv in H as (lit & H & ->); split; [|discriminate];
      first [apply scan_string_suffix in H | apply scan_number_suffix in H];
      exact (suffix_trans _ _ _ H Hs0)
    | |- keyword _ _ = _ -> _ =>
      let H := fresh in
      intros H; apply keyword_inv in H as (H & ->); split; [|discriminate];
      apply scan_word_suffix in H; exact (suffix_trans _ _ _ H Hs0)
    end. discriminate.
  - intros d s vs r. cbn [parse_elements].
    destruct (parse_value f d s) as [v r0| |] eqn:E; try discriminate.
    apply IHv in E as [E _].
    pose proof (skip_space_suffix r0) as Hr.
    destruct (skip_space r0) as [|c r']; [discriminate|].
    pose proof (suffix_trans _ _ _ (suffix_trans _ _ _ (suffix_cons c r') Hr) E) as Hr'.
    destruct (Ascii.eqb c ",").
    { destruct (parse_elements f d r') as [vs' rest| |] eqn:E'; try discriminate.
      intros [= <- <-]. apply IHe in E'. exact (suffix_trans _ _ _ E' Hr'). }
    destruct (Ascii.eqb c "]"); [|discriminate]. intros [= <- <-]. exact Hr'.
  - intros d s ms r. cbn [parse_members].
    pose proof (skip_space_suffix s) as Hs.
    destruct (skip_space s) as [|c s0]; [discriminate|].
    pose proof (suffix_trans _ _ _ (suffix_cons c s0) Hs) as Hs0.
    destruct (negb (Ascii.eqb c dq)); [discriminate|].
    destruct (scan_string InString s0) as [[key r1]|e] eqn:E; [|discriminate].
    apply scan_string_suffix in E.
    pose proof (skip_space_suffix r1) as Hr1.
    destruct (skip_space r1) as [|c2 r2]; [discriminate|].
    destruct (negb (Ascii.eqb c2 ":")); [discriminate|].
    assert (Hstart : suffix_of (skip_space r2) s).
    { eauto 8 with suffix. }
    pose proof (proj1 (parse_shorter f) d (skip_space r2)) as Hsh.
    destruct (parse_value f d (skip_space r2)) as [v r3| |] eqn:Ev; try discriminate.
    apply IHv in Ev as [Ev _]. simpl in Hsh.
    destruct (consumed_prefix _ _ Ev Hsh) as [Hne Hin].
    pose proof (contains_suffix _ _ _ Hin Hstart) as Hin'.
    pose proof (skip_space_suffix r3) as Hr3.
    destruct (skip_space r3) as [|c4 r4]; [discriminate|].
    assert (Hr4 : suffix_of r4 s).
    { eauto 8 with suffix. }
    destruct (Ascii.eqb c4 ",").
    { destruct (parse_members f d r4) as [ms' rest| |] eqn:Em; try discriminate.
      intros [= <- <-]. apply IHm in Em as [Em1 Em2]. split.
      - exact (suffix_trans _ _ _ Em1 Hr4).
      - constructor; [split; [exact Hne|exact Hin']|].
        eapply raws_in_suffix; [exact Em2|exact Hr4]. }
    destruct (Ascii.eqb c4 "}"); [|discriminate]. intros [= <- <-]. split; [exact Hr4|].
    constructor; [split; [exact Hne|exact Hin']|constructor].
Qed.

Lemma field_raw_In key ms raw :
  field_raw key ms = Some raw -> exists k v, In (k, raw, v) ms.
Proof.
  unfold field_raw.
  assert (G : forall found,
    fold_left (fun found '(k, raw, _) => if bool_decide (k = key) then Some raw else found)
      ms found = Some raw ->
    found = Some raw \/ exists k v, In (k, raw, v) ms).
  { induction ms as [|[[k r] v] ms IH]; intros found H; [left; exact H|].
    cbn [fold_left] in H. apply IH in H as [H|(k' & v' & H)].
    - destruct (bool_decide (k = key)); [|left; exact H].
      injection H as ->. right. exists k, v. left. reflexivity.
    - right. exists k', v'. right. exact H. }
  intros H. apply G in H as [H|H]; [discriminate|exact H].
Qed.

(** The bytes [field_raw] gives are not empty and occur in the input as
    they are. *)
Lemma field_raw_verbatim data members key raw :
  json_parse data = Ok (JObject members) ->
  field_raw key members = Some raw ->
  raw ≠ "" /\ contains data raw.
Proof.
  unfold json_parse. intros Hp Hf.
  destruct (parse_value (2 * String.length data + 1) 0 data) as [v rest| |] eqn:E;
    try discriminate.
  destruct (skip_space rest); [|discriminate]. injection Hp as ->.
  apply (proj1 (parse_suffix _)) in E as [_ E]. specialize (E members eq_refl).
  apply field_raw_In in Hf as (k & v & Hin).
  unfold raws_in in E. rewrite Forall_forall in E.
  apply list_elem_of_In in Hin. exact (E _ Hin).
Qed.
(** ** The envelope of SendRequest and ExecuteQuery *)

Lemma SendRequest_exchange ctx method url headers body w :
  let req := mkRequest ctx method url headers body in
  let ex := answer w req in
  SendRequest ctx method url headers body w
  = ((exchange_body ex, exchange_code ex, exchange_error ex), after ex req w).
Proof.
  unfold SendRequest, answer. cbv zeta.
  destruct (network w (requests w) (mkRequest ctx method url headers body))
    as [e|e|st e|st resp]; try reflexivity.
  cbn [exchange_body exchange_code exchange_error after].
  destruct (st =? successStatusCode)%Z; cbn [negb]; [reflexivity|].
  destruct (Unmarshal_map_interface resp); reflexivity.
Qed.

Lemma ExecuteQuery_marshal_error client ctx query variables w err :
  query_body query variables = Err err ->
  ExecuteQuery client ctx query variables w = ((None, Some err), w).
Proof. unfold ExecuteQuery, query_body. intros ->. reflexivity. Qed.

Lemma Sprintf_HTTP_error_contains err statusCode :
  contains (Sprintf_HTTP_error err statusCode) (itoa statusCode).
Proof.
  unfold Sprintf_HTTP_error.
  exists ("HTTP error: " +:+ match err with Some e => Error_msg e | None => "%!s(<nil>)" end
          +:+ ", Status Code: "), "".
  rewrite app_empty_r, !app_assoc_s. reflexivity.
Qed.

Lemma Sprintf_HTTP_error_set err statusCode : Sprintf_HTTP_error err statusCode ≠ "".
Proof. unfold Sprintf_HTTP_error. discriminate. Qed.

Lemma store_raw_lookup key members : forall (m : gmap string string) found,
  m !! key = found ->
  fold_left store_raw members m !! key
  = fold_left (fun found '(k, raw, _) => if bool_decide (k = key) then Some raw else found)
      members found.
Proof.
  induction members as [|[[k raw] v] members IH]; intros m found Hm; [exact Hm|].
  cbn [fold_left]. apply IH. unfold store_raw.
  rewrite lookup_insert. destruct (decide (k = key)) as [->|Hne].
  - rewrite bool_decide_eq_true_2 by reflexivity. reflexivity.
  - rewrite bool_decide_eq_false_2 by assumption. exact Hm.
Qed.

Lemma Unmarshal_map_RawMessage_object data members :
  json_parse data = Ok (JObject members) ->
  exists m, Unmarshal_map_RawMessage data = (m, None)
    /\ forall key, m !! key = field_raw key members.
Proof.
  intros H. unfold Unmarshal_map_RawMessage. rewrite H.
  eexists. split; [reflexivity|].
  intros key. apply store_raw_lookup. apply lookup_empty.
Qed.

(** ** ExecuteQuery

    A call whose variables are serialized: the request is made, and the
    result depends on the exchange. *)

Section Exchange.

Variables (client : AirstackClient) (ctx : Context) (query : string).
Variables (variables : Value) (w : World) (body : string).
Hypothesis marshalled : query_body query variables = Ok body.

Lemma ExecuteQuery_exchange :
  let req := query_request client ctx body in
  let ex := answer w req in
  ExecuteQuery client ctx query variables w
  = (if bool_decide (is_Some (exchange_error ex))
        || negb (exchange_code ex =? successStatusCode)%Z
     then (Some (envelope "" (exchange_code ex)
                   (Sprintf_HTTP_error (exchange_error ex) (exchange_code ex))), None)
     else
       match Unmarshal_map_RawMessage (exchange_body ex) with
       | (_, Some err) => (None, Some err)
       | (respData, None) =>
         match respData !! "errors" with
         | Some errorField => (Some (envelope "" (exchange_code ex) errorField), None)
         | None =>
           (Some (envelope (default "" (respData !! "data")) (exchange_code ex) ""), None)
         end
       end,
     after ex req w).
Proof.
  unfold ExecuteQuery. unfold query_body in marshalled. rewrite marshalled. cbv zeta.
  rewrite SendRequest_exchange. cbv zeta. fold (query_request client ctx body).
  destruct (bool_decide (is_Some (exchange_error (answer w (query_request client ctx body))))
            || negb (exchange_code (answer w (query_request client ctx body)) =? successStatusCode)%Z);
    [reflexivity|].
  destruct (Unmarshal_map_RawMessage _) as [m [e|]]; [reflexivity|].
  destruct (m !! "errors"); reflexivity.
Qed.

Lemma ExecuteQuery_200 response :
  answer w (query_request client ctx body) = Responds 200 response ->
  ExecuteQuery client ctx query variables w
  = (match Unmarshal_map_RawMessage response with
     | (_, Some err) => (None, Some err)
     | (respData, None) =>
       match respData !! "errors" with
       | Some errorField => (Some (envelope "" 200 errorField), None)
       | None => (Some (envelope (default "" (respData !! "data")) 200 ""), None)
       end
     end,
     made (query_request client ctx body) w).
Proof.
  intros Hex. rewrite ExecuteQuery_exchange. cbv zeta.
  rewrite Hex. reflexivity.
Qed.

(** C1: a response whose status code is not 200 (422 among them) makes
    ExecuteQuery return no call-level error and an envelope whose Error is
    the formatted string, which contains the status code, and whose Data is
    unset. *)
Theorem ExecuteQuery_status_not_200 status :
  response_status (answer w (query_request client ctx body)) = Some status ->
  status ≠ successStatusCode ->
  exists q w',
    ExecuteQuery client ctx query variables w = ((Some q, None), w')
    /\ Error q
       = Sprintf_HTTP_error (exchange_error (answer w (query_request client ctx body))) status
    /\ contains (Error q) (itoa status)
    /\ Error q ≠ ""
    /\ Data q = ""
    /\ StatusCode q = status.
Proof.
  intros Hst Hne.
  rewrite ExecuteQuery_exchange. cbv zeta.
  set (ex := answer w (query_request client ctx body)) in *.
  assert (Hc : exchange_code ex = status).
  { destruct ex; cbn in Hst |- *; congruence. }
  rewrite Hc.
  assert (Hz : (status =? successStatusCode)%Z = false) by (apply Z.eqb_neq; exact Hne).
  rewrite Hz, orb_true_r.
  eexists _, _. split; [reflexivity|]. cbn [Error Data StatusCode envelope].
  repeat split.
  - apply Sprintf_HTTP_error_contains.
  - apply Sprintf_HTTP_error_set.
Qed.

(** C2: an HTTP 200 response whose body is a JSON mapping without an
    [errors] field makes ExecuteQuery return no call-level error and an
    envelope with Error unset, status code 200 and, as Data, the bytes of
    the body's [data] field as they stand in the body (unset where the
    body has none). *)
Theorem ExecuteQuery_success response members :
  answer w (query_request client ctx body) = Responds 200 response ->
  json_parse response = Ok (JObject members) ->
  field_raw "errors" members = None ->
  exists q,
    ExecuteQuery client ctx query variables w
    = ((Some q, None), made (query_request client ctx body) w)
    /\ Error q = ""
    /\ Data q = default "" (field_raw "data" members)
    /\ StatusCode q = 200%Z
    /\ (forall raw, field_raw "data" members = Some raw -> contains response raw).
Proof.
  intros Hex Hp Hno.
  rewrite (ExecuteQuery_200 _ Hex).
  destruct (Unmarshal_map_RawMessage_object _ _ Hp) as (m & -> & Hm).
  rewrite (Hm "errors"), Hno, (Hm "data").
  eexists. split; [reflexivity|]. repeat split.
  intros raw Hraw. exact (proj2 (field_raw_verbatim _ _ _ _ Hp Hraw)).
Qed.

(** C3: an HTTP 200 response whose body is a JSON mapping with an
    [errors] field makes ExecuteQuery return an envelope whose Error is the
    bytes of that field as they stand in the body, so is set, whose Data is
    unset and whose status code is the received one. *)
Theorem ExecuteQuery_errors_field response members raw :
  answer w (query_request client ctx body) = Responds 200 response ->
  json_parse response = Ok (JObject members) ->
  field_raw "errors" members = Some raw ->
  exists q,
    ExecuteQuery client ctx query variables w
    = ((Some q, None), made (query_request client ctx body) w)
    /\ Error q = raw
    /\ Data q = ""
    /\ StatusCode q = 200%Z
    /\ Error q ≠ ""
    /\ contains response (Error q).
Proof.
  intros Hex Hp Hsome.
  rewrite (ExecuteQuery_200 _ Hex).
  destruct (Unmarshal_map_RawMessage_object _ _ Hp) as (m & -> & Hm).
  rewrite (Hm "errors"), Hsome.
  eexists. split; [reflexivity|]. cbn [Error Data StatusCode envelope].
  destruct (field_raw_verbatim _ _ _ _ Hp Hsome) as [H1 H2]. repeat split; assumption.
Qed.

(** C10, as the code has it: an HTTP 200 response whose body is not a
    JSON mapping makes ExecuteQuery return the decoder's error and no
    envelope, but for the body [null], for which it returns an envelope
    with neither Error nor Data and no error. *)
Theorem ExecuteQuery_not_a_mapping response :
  answer w (query_request client ctx body) = Responds 200 response ->
  (forall members, json_parse response ≠ Ok (JObject members)) ->
  ExecuteQuery client ctx query variables w
  = (match json_parse response with
     | Err err => (None, Some err)
     | Ok JNull => (Some (envelope "" 200 ""), None)
     | Ok v => (None, Some (UnmarshalTypeError (kind_of v) "map[string]json.RawMessage" "" ""))
     end,
     made (query_request client ctx body) w).
Proof.
  intros Hex Hobj.
  rewrite (ExecuteQuery_200 _ Hex).
  unfold Unmarshal_map_RawMessage.
  destruct (json_parse response) as [[| | | | |members]|e]; try reflexivity.
  exfalso. exact (Hobj members eq_refl).
Qed.

End Exchange.

Lemma ExecuteQuery_status_not_200_witness :
  let client := NewAirstackClient "key" in
  let w := server unprocessableEntityStatus (js "{'message':'bad request'}") in
  let body := js "{'query':'q','variables':null}" in
  query_body "q" VNil = Ok body
  /\ response_status (answer w (query_request client context_Background body))
     = Some unprocessableEntityStatus
  /\ unprocessableEntityStatus ≠ successStatusCode
  /\ exists q w',
       ExecuteQuery client context_Background "q" VNil w = ((Some q, None), w')
       /\ Error q
          = Sprintf_HTTP_error
              (exchange_error (answer w (query_request client context_Background body)))
              unprocessableEntityStatus
       /\ contains (Error q) (itoa unprocessableEntityStatus)
       /\ Error q ≠ ""
       /\ Data q = ""
       /\ StatusCode q = unprocessableEntityStatus.
Proof.
  cbv zeta.
  assert (Hne : unprocessableEntityStatus ≠ successStatusCode) by discriminate.
  split; [reflexivity|]. split; [reflexivity|]. split; [exact Hne|].
  apply (ExecuteQuery_status_not_200 (NewAirstackClient "key") context_Background "q" VNil
           (server unprocessableEntityStatus (js "{'message':'bad request'}"))
           (js "{'query':'q','variables':null}") eq_refl unprocessableEntityStatus);
    [reflexivity | exact Hne].
Defined.

(** The 422 scenario of the specification, evaluated. *)
Example ExecuteQuery_422_scenario :
  fst (ExecuteQuery (NewAirstackClient "key") context_Background "q" VNil
         (server 422 (js "{'message':'bad request'}")))
  = (Some (envelope "" 422 "HTTP error: %!s(<nil>), Status Code: 422"), None).
Proof. vm_compute. reflexivity. Qed.

Lemma ExecuteQuery_success_witness :
  let client := NewAirstackClient "key" in
  let response := js "{ 'data' : {'Wallet': {'addresses': ['0xabc']}}, 'extensions': {} }" in
  let w := server 200 response in
  let body := js "{'query':'q','variables':null}" in
  let members :=
    [("data", js "{'Wallet': {'addresses': ['0xabc']}}",
       JObject [("Wallet", js "{'addresses': ['0xabc']}",
                   JObject [("addresses", js "['0xabc']", JArray [JString "0xabc"])])]);
     ("extensions", "{}", JObject [])] in
  query_body "q" VNil = Ok body
  /\ answer w (query_request client context_Background body) = Responds 200 response
  /\ json_parse response = Ok (JObject members)
  /\ field_raw "errors" members = None
  /\ exists q,
       ExecuteQuery client context_Background "q" VNil w
       = ((Some q, None), made (query_request client context_Background body) w)
       /\ Error q = ""
       /\ Data q = default "" (field_raw "data" members)
       /\ StatusCode q = 200%Z
       /\ (forall raw, field_raw "data" members = Some raw -> contains response raw).
Proof.
  cbv zeta.
  split; [reflexivity|]. split; [reflexivity|]. split; [vm_compute; reflexivity|].
  split; [reflexivity|].
  eapply (ExecuteQuery_success (NewAirstackClient "key") context_Background "q" VNil
           (server 200 (js "{ 'data' : {'Wallet': {'addresses': ['0xabc']}}, 'extensions': {} }"))
           (js "{'query':'q','variables':null}") eq_refl
           (js "{ 'data' : {'Wallet': {'addresses': ['0xabc']}}, 'extensions': {} }"));
    [reflexivity | vm_compute; reflexivity | reflexivity].
Defined.

Lemma ExecuteQuery_errors_field_witness :
  let client := NewAirstackClient "key" in
  let response := js "{'data':null,'errors':[{'message':'Cannot query field'}]}" in
  let w := server 200 response in
  let body := js "{'query':'q','variables':null}" in
  let raw := js "[{'message':'Cannot query field'}]" in
  let members :=
    [("data", "null", JNull);
     ("errors", raw,
       JArray [JObject [("message", js "'Cannot query field'", JString "Cannot query field")]])] in
  query_body "q" VNil = Ok body
  /\ answer w (query_request client context_Background body) = Responds 200 response
  /\ json_parse response = Ok (JObject members)
  /\ field_raw "errors" members = Some raw
  /\ exists q,
       ExecuteQuery client context_Background "q" VNil w
       = ((Some q, None), made (query_request client context_Background body) w)
       /\ Error q = raw
       /\ Data q = ""
       /\ StatusCode q = 200%Z
       /\ Error q ≠ ""
       /\ contains response (Error q).
Proof.
  cbv zeta.
  split; [reflexivity|]. split; [reflexivity|]. split; [vm_compute; reflexivity|].
  split; [reflexivity|].
  eapply (ExecuteQuery_errors_field (NewAirstackClient "key") context_Background "q" VNil
           (server 200 (js "{'data':null,'errors':[{'message':'Cannot query field'}]}"))
           (js "{'query':'q','variables':null}") eq_refl
           (js "{'data':null,'errors':[{'message':'Cannot query field'}]}"));
    [reflexivity | vm_compute; reflexivity | reflexivity].
Defined.

Lemma ExecuteQuery_not_a_mapping_witness :
  let client := NewAirstackClient "key" in
  let response := "<html>Bad Gateway</html>" in
  let w := server 200 response in
  let body := js "{'query':'q','variables':null}" in
  query_body "q" VNil = Ok body
  /\ answer w (query_request client context_Background body) = Responds 200 response
  /\ (forall members, json_parse response ≠ Ok (JObject members))
  /\ ExecuteQuery client context_Background "q" VNil w
     = (match json_parse response with
        | Err err => (None, Some err)
        | Ok JNull => (Some (envelope "" 200 ""), None)
        | Ok v =>
          (None, Some (UnmarshalTypeError (kind_of v) "map[string]json.RawMessage" "" ""))
        end,
        made (query_request client context_Background body) w).
Proof.
  cbv zeta.
  assert (H1 : forall members, json_parse "<html>Bad Gateway</html>" ≠ Ok (JObject members))
    by (intros members; vm_compute; discriminate).
  split; [reflexivity|]. split; [reflexivity|]. split; [exact H1|].
  apply (ExecuteQuery_not_a_mapping (NewAirstackClient "key") context_Background "q" VNil
           (server 200 "<html>Bad Gateway</html>") (js "{'query':'q','variables':null}")
           eq_refl "<html>Bad Gateway</html>");
    [reflexivity | exact H1].
Defined.

(** That example and two others, evaluated: a body that is not JSON, one
    that is a JSON array, and one cut short. *)
Example ExecuteQuery_not_a_mapping_scenarios :
  let run response :=
    fst (ExecuteQuery (NewAirstackClient "key") context_Background "q" VNil
           (server 200 response)) in
  run "<html>Bad Gateway</html>"
  = (None, Some (SyntaxError "invalid character '<' looking for beginning of value"))
  /\ run "[1, 2]"
     = (None, Some (UnmarshalTypeError "array" "map[string]json.RawMessage" "" ""))
  /\ run (js "{'data': {'a': 1}")
     = (None, Some (SyntaxError "unexpected end of JSON input")).
Proof. cbv zeta. repeat split; vm_compute; reflexivity. Qed.

(** C10 as stated fails: the body [null] at HTTP 200 is not a JSON
    mapping, yet ExecuteQuery returns an envelope and no call-level
    error. *)
Lemma ExecuteQuery_null_body :
  (forall members, json_parse "null" ≠ Ok (JObject members))
  /\ fst (ExecuteQuery (NewAirstackClient "key") context_Background "q" VNil (server 200 "null"))
     = (Some (envelope "" 200 ""), None).
Proof.
  split; [intros members; vm_compute; discriminate | vm_compute; reflexivity].
Qed.

(** ** The envelopes *)

(** Every envelope ExecuteQuery returns is one of three, and comes
    without a call-level error. *)
Lemma ExecuteQuery_envelope client ctx query variables w q err w' :
  ExecuteQuery client ctx query variables w = ((Some q, err), w') ->
  err = None
  /\ ((exists e code, q = envelope "" code (Sprintf_HTTP_error e code))
      \/ (exists raw, q = envelope "" 200 raw)
      \/ (exists data, q = envelope data 200 "")).
Proof.
  destruct (query_body query variables) as [body|e] eqn:Hb.
  - rewrite (ExecuteQuery_exchange _ _ _ _ _ _ Hb). cbv zeta.
    set (ex := answer w (query_request client ctx body)).
    destruct (bool_decide (is_Some (exchange_error ex))) eqn:He; cbn [orb].
    { intros [= <- <- _]. split; [reflexivity|]. left. eauto. }
    destruct (exchange_code ex =? successStatusCode)%Z eqn:Hc; cbn [negb].
    2:{ intros [= <- <- _]. split; [reflexivity|]. left. eauto. }
    apply Z.eqb_eq in Hc. rewrite Hc.
    destruct (Unmarshal_map_RawMessage (exchange_body ex)) as [m [e|]]; [discriminate|].
    destruct (m !! "errors") as [raw|].
    + intros [= <- <- _]. split; [reflexivity|]. right. left. eauto.
    + intros [= <- <- _]. split; [reflexivity|]. right. right. eauto.
  - rewrite (ExecuteQuery_marshal_error _ _ _ _ _ _ Hb). discriminate.
Qed.

(** ExecuteQuery returns an envelope or an error, never both and never
    neither. *)
Lemma ExecuteQuery_result client ctx query variables w :
  (exists q, fst (ExecuteQuery client ctx query variables w) = (Some q, None))
  \/ (exists err, fst (ExecuteQuery client ctx query variables w) = (None, Some err)).
Proof.
  destruct (query_body query variables) as [body|e] eqn:Hb.
  - rewrite (ExecuteQuery_exchange _ _ _ _ _ _ Hb). cbv zeta. cbn [fst].
    destruct (_ || _); [left; eauto|].
    destruct (Unmarshal_map_RawMessage _) as [m [e|]]; [right; eauto|].
    destruct (m !! "errors"); left; eauto.
  - rewrite (ExecuteQuery_marshal_error _ _ _ _ _ _ Hb). right. eauto.
Qed.

(** C5, as the code has it: in every envelope ExecuteQuery returns, the
    Error field and the Data field are never both set, and a status code
    other than 200 implies that the Error field is set. *)
Theorem ExecuteQuery_envelope_invariant client ctx query variables w q err w' :
  ExecuteQuery client ctx query variables w = ((Some q, err), w') ->
  ¬ (Error q ≠ "" /\ Data q ≠ "")
  /\ (StatusCode q ≠ 200%Z -> Error q ≠ "").
Proof.
  intros H. apply ExecuteQuery_envelope in H as [_ [(e & code & ->)|[(raw & ->)|(data & ->)]]];
    cbn [Error Data StatusCode envelope]; split; try tauto.
  intros _. apply Sprintf_HTTP_error_set.
Qed.

Lemma ExecuteQuery_envelope_invariant_witness :
  let w := server 200 (js "{'data':{'a':1}}") in
  let q := envelope (js "{'a':1}") 200 "" in
  ExecuteQuery (NewAirstackClient "key") context_Background "q" VNil w
  = ((Some q, None),
     made (query_request (NewAirstackClient "key") context_Background
             (js "{'query':'q','variables':null}")) w)
  /\ ¬ (Error q ≠ "" /\ Data q ≠ "")
  /\ (StatusCode q ≠ 200%Z -> Error q ≠ "").
Proof.
  cbv zeta.
  assert (H : ExecuteQuery (NewAirstackClient "key") context_Background "q" VNil
                (server 200 (js "{'data':{'a':1}}"))
              = ((Some (envelope (js "{'a':1}") 200 ""), None),
                 made (query_request (NewAirstackClient "key") context_Background
                         (js "{'query':'q','variables':null}"))
                   (server 200 (js "{'data':{'a':1}}"))))
    by (vm_compute; reflexivity).
  split; [exact H|].
  exact (ExecuteQuery_envelope_invariant _ _ _ _ _ _ _ _ H).
Defined.

(** C5 as stated fails: for the body [{}] at HTTP 200 the envelope has
    neither its Error set nor any Data. *)
Lemma ExecuteQuery_envelope_neither :
  let q := envelope "" 200 "" in
  fst (ExecuteQuery (NewAirstackClient "key") context_Background "q" VNil (server 200 "{}"))
  = (Some q, None)
  /\ ¬ ((Error q ≠ "" \/ Data q ≠ "") /\ ¬ (Error q ≠ "" /\ Data q ≠ "")).
Proof.
  cbv zeta. split; [vm_compute; reflexivity|].
  cbn [Error Data envelope]. intros [[H|H] _]; apply H; reflexivity.
Qed.

(** C9: no envelope ExecuteQuery returns has a pagination field set,
    whatever the response holds. *)
Theorem ExecuteQuery_no_pagination client ctx query variables w q err w' :
  ExecuteQuery client ctx query variables w = ((Some q, err), w') ->
  HasNextPage q = false /\ HasPrevPage q = false
  /\ NextPageFunc q = None /\ PrevPageFunc q = None.
Proof.
  intros H. apply ExecuteQuery_envelope in H as [_ [(e & code & ->)|[(raw & ->)|(data & ->)]]];
    repeat split.
Qed.

Lemma ExecuteQuery_no_pagination_witness :
  let response :=
    js "{'data':{'TokenBalances':{'TokenBalance':[],'pageInfo':{'nextCursor':'abc','prevCursor':''}}}}" in
  let w := server 200 response in
  let q :=
    envelope (js "{'TokenBalances':{'TokenBalance':[],'pageInfo':{'nextCursor':'abc','prevCursor':''}}}")
      200 "" in
  ExecuteQuery (NewAirstackClient "key") context_Background "q" VNil w
  = ((Some q, None),
     made (query_request (NewAirstackClient "key") context_Background
             (js "{'query':'q','variables':null}")) w)
  /\ HasNextPage q = false /\ HasPrevPage q = false
  /\ NextPageFunc q = None /\ PrevPageFunc q = None.
Proof.
  cbv zeta.
  match goal with |- ?A /\ _ => assert (H : A) by (vm_compute; reflexivity) end.
  split; [exact H|].
  exact (ExecuteQuery_no_pagination _ _ _ _ _ _ _ _ H).
Defined.

(** ** SendRequest *)

(** C6: for a response whose status code is not the success code,
    SendRequest returns the body and the status code whatever the body is;
    its error is the outcome of decoding the body as a JSON mapping, and
    nothing else: the decoder's error for a body that is not JSON, nil for
    a mapping whose numbers fit a float64. *)
Theorem SendRequest_non_success ctx method url headers payload w status body :
  answer w (mkRequest ctx method url headers payload) = Responds status body ->
  status ≠ successStatusCode ->
  SendRequest ctx method url headers payload w
  = ((body, status, Unmarshal_map_interface body),
     made (mkRequest ctx method url headers payload) w)
  /\ (forall e, json_parse body = Err e -> Unmarshal_map_interface body = Some e)
  /\ (forall members, json_parse body = Ok (JObject members) ->
        number_error (JObject members) = None ->
        Unmarshal_map_interface body = None).
Proof.
  intros Hex Hne. split; [|split].
  - rewrite SendRequest_exchange. cbv zeta. rewrite Hex.
    cbn [exchange_body exchange_code exchange_error after].
    apply Z.eqb_neq in Hne. rewrite Hne. reflexivity.
  - intros e H. unfold Unmarshal_map_interface. rewrite H. reflexivity.
  - intros members H Hn. unfold Unmarshal_map_interface. rewrite H. exact Hn.
Qed.

Lemma SendRequest_non_success_witness :
  let w := server 502 "<html>Bad Gateway</html>" in
  let req := mkRequest context_Background "POST" apiEndpointProd ∅ "{}" in
  answer w req = Responds 502 "<html>Bad Gateway</html>"
  /\ 502%Z ≠ successStatusCode
  /\ SendRequest context_Background "POST" apiEndpointProd ∅ "{}" w
     = (("<html>Bad Gateway</html>", 502%Z, Unmarshal_map_interface "<html>Bad Gateway</html>"),
        made req w)
  /\ (forall e, json_parse "<html>Bad Gateway</html>" = Err e ->
        Unmarshal_map_interface "<html>Bad Gateway</html>" = Some e)
  /\ (forall members, json_parse "<html>Bad Gateway</html>" = Ok (JObject members) ->
        number_error (JObject members) = None ->
        Unmarshal_map_interface "<html>Bad Gateway</html>" = None).
Proof.
  cbv zeta.
  assert (Hne : 502%Z ≠ successStatusCode) by discriminate.
  split; [reflexivity|]. split; [exact Hne|].
  apply (SendRequest_non_success context_Background "POST" apiEndpointProd ∅ "{}"
           (server 502 "<html>Bad Gateway</html>") 502 "<html>Bad Gateway</html>");
    [reflexivity | exact Hne].
Defined.

(** The failing check of that example, evaluated, and the 422 scenario,
    whose body passes the check. *)
Example SendRequest_502_scenario :
  fst (SendRequest context_Background "POST" apiEndpointProd ∅ "{}"
         (server 502 "<html>Bad Gateway</html>"))
  = ("<html>Bad Gateway</html>", 502%Z,
     Some (SyntaxError "invalid character '<' looking for beginning of value")).
Proof. vm_compute. reflexivity. Qed.

Example SendRequest_422_scenario :
  fst (SendRequest context_Background "POST" apiEndpointProd ∅ "{}"
         (server 422 (js "{'message':'bad request'}")))
  = (js "{'message':'bad request'}", 422%Z, None).
Proof. vm_compute. reflexivity. Qed.

(** ** The request *)

(** C8: a call to ExecuteQuery makes at most one request, and none
    where the variables cannot be serialized or the request cannot be
    built.  The request has method POST, the client's URL, as body the JSON
    serialization of [{query, variables}], and two headers and no other:
    Content-Type, [application/json], and Authorization, the API key as it
    is. *)
Theorem ExecuteQuery_request client ctx query variables w :
  requests (snd (ExecuteQuery client ctx query variables w))
  = match query_body query variables with
    | Err _ => requests w
    | Ok body =>
      match answer w (query_request client ctx body) with
      | NewRequestFails _ => requests w
      | _ => requests w ++ [query_request client ctx body]
      end
    end
  /\ forall body,
       let req := query_request client ctx body in
       req_method req = "POST"
       /\ req_url req = URL client
       /\ req_body req = body
       /\ req_headers req !! "Content-Type" = Some "application/json"
       /\ req_headers req !! "Authorization" = Some (APIKey client)
       /\ forall name, name ≠ "Content-Type" -> name ≠ "Authorization" ->
            req_headers req !! name = None.
Proof.
  split.
  - destruct (query_body query variables) as [body|e] eqn:Hb.
    + rewrite (ExecuteQuery_exchange _ _ _ _ _ _ Hb). cbv zeta. cbn [snd].
      destruct (answer w (query_request client ctx body)); reflexivity.
    + rewrite (ExecuteQuery_marshal_error _ _ _ _ _ _ Hb). reflexivity.
  - intros body. cbv zeta. unfold query_request. cbn [req_method req_url req_body req_headers].
    split; [reflexivity|]. split; [reflexivity|]. split; [reflexivity|].
    split; [apply lookup_insert_eq|]. split.
    + rewrite lookup_insert_ne by discriminate. apply lookup_insert_eq.
    + intros name H1 H2. rewrite !lookup_insert_ne by congruence. apply lookup_empty.
Qed.

(** The request of the demo program, evaluated. *)
Example ExecuteQuery_request_scenario :
  let variables :=
    VMap [("identity", VString "wallet_address_here");
          ("tokenType", VSlice [VString "ERC20"; VString "ERC721"]);
          ("blockchain", VString "ethereum");
          ("limit", VInt 10)] in
  query_body "query { x }" variables
  = Ok (js "{'query':'query { x }','variables':{'blockchain':'ethereum','identity':'wallet_address_here','limit':10,'tokenType':['ERC20','ERC721']}}").
Proof. vm_compute. reflexivity. Qed.

(** ** GetTokenBalances *)

(** C4, as the code has it: GetTokenBalances never panics and fails in
    two ways only.  It returns the error of ExecuteQuery where there is
    one; otherwise it returns what decoding the envelope's Data gives, an
    error or the records.  It does not read the envelope's Error: when that
    is set, Data is unset and the call fails with the decoder's error for
    an empty input. *)
Theorem GetTokenBalances_failures client ctx variables w :
  match ExecuteQuery client ctx GetTokensHeldByWalletAddress variables w with
  | ((_, Some err), w') =>
    GetTokenBalances client ctx variables w = (Returns ([], Some err), w')
  | ((Some q, None), w') =>
    GetTokenBalances client ctx variables w
    = (Returns
         match Unmarshal_respData (Data q) with
         | (_, Some err) => ([], Some err)
         | (respData, None) => (elements (TokenBalance_ (TokenBalances respData)), None)
         end, w')
    /\ (Error q ≠ "" ->
        Data q = ""
        /\ GetTokenBalances client ctx variables w
           = (Returns ([], Some (SyntaxError "unexpected end of JSON input")), w'))
  | ((None, None), _) => False
  end.
Proof.
  unfold GetTokenBalances. cbv zeta.
  destruct (ExecuteQuery client ctx GetTokensHeldByWalletAddress variables w)
    as [[resp err] w'] eqn:HQ.
  destruct err as [err|]; [destruct resp; reflexivity|].
  destruct resp as [q|].
  - split.
    + destruct (Unmarshal_respData (Data q)) as [r [e|]]; reflexivity.
    + intros Hset.
      apply ExecuteQuery_envelope in HQ as [_ [(e & code & ->)|[(raw & ->)|(data & ->)]]];
        cbn [Error Data envelope] in *; try (split; reflexivity).
      contradiction.
  - destruct (ExecuteQuery_result client ctx GetTokensHeldByWalletAddress variables w)
      as [[q Hq]|[e He]]; rewrite HQ in *; discriminate.
Qed.

(** C4 as stated fails: for an HTTP 422 response the envelope has its
    Error set, and GetTokenBalances returns the decoder's error for an
    empty input, the very error it returns for the body [{}] at HTTP 200,
    whose envelope has no Error.  Nothing in the returned error tells the
    API-level failure. *)
Lemma GetTokenBalances_error_is_not_API_error :
  let client := NewAirstackClient "key" in
  let refused := server 422 (js "{'message':'bad request'}") in
  let empty := server 200 "{}" in
  let e := SyntaxError "unexpected end of JSON input" in
  fst (ExecuteQuery client context_Background GetTokensHeldByWalletAddress VNil refused)
  = (Some (envelope "" 422 "HTTP error: %!s(<nil>), Status Code: 422"), None)
  /\ fst (GetTokenBalances client context_Background VNil refused) = Returns ([], Some e)
  /\ fst (ExecuteQuery client context_Background GetTokensHeldByWalletAddress VNil empty)
     = (Some (envelope "" 200 ""), None)
  /\ fst (GetTokenBalances client context_Background VNil empty) = Returns ([], Some e)
  /\ ¬ exists signals : error -> bool,
         forall w q err,
           fst (ExecuteQuery client context_Background GetTokensHeldByWalletAddress VNil w)
           = (Some q, None) ->
           fst (GetTokenBalances client context_Background VNil w) = Returns ([], Some err) ->
           (signals err = true <-> Error q ≠ "").
Proof.
  cbv zeta.
  assert (H1 : fst (ExecuteQuery (NewAirstackClient "key") context_Background
                      GetTokensHeldByWalletAddress VNil
                      (server 422 (js "{'message':'bad request'}")))
               = (Some (envelope "" 422 "HTTP error: %!s(<nil>), Status Code: 422"), None))
    by (vm_compute; reflexivity).
  assert (H2 : fst (GetTokenBalances (NewAirstackClient "key") context_Background VNil
                      (server 422 (js "{'message':'bad request'}")))
               = Returns ([], Some (SyntaxError "unexpected end of JSON input")))
    by (vm_compute; reflexivity).
  assert (H3 : fst (ExecuteQuery (NewAirstackClient "key") context_Background
                      GetTokensHeldByWalletAddress VNil (server 200 "{}"))
               = (Some (envelope "" 200 ""), None))
    by (vm_compute; reflexivity).
  assert (H4 : fst (GetTokenBalances (NewAirstackClient "key") context_Background VNil
                      (server 200 "{}"))
               = Returns ([], Some (SyntaxError "unexpected end of JSON input")))
    by (vm_compute; reflexivity).
  repeat (split; [assumption|]).
  intros [signals Hs].
  pose proof (Hs _ _ _ H1 H2) as [_ Ha].
  pose proof (Hs _ _ _ H3 H4) as [Hb _].
  apply Hb; [|reflexivity]. apply Ha. discriminate.
Qed.

(** ** Strings through the encoder and back

    What [appendString] writes for a string of valid UTF-8, the scanner
    takes up to the closing quote and [unquote] turns back into the
    string. *)

Lemma between_spec lo hi c : between lo hi c = true <-> lo <= code c /\ code c <= hi.
Proof. unfold between. rewrite andb_true_iff, !N.leb_le. reflexivity. Qed.

(** A well-formed sequence: its length, its bytes, and that it is
    recognized whatever follows. *)
Lemma utf8_len_spec s k :
  utf8_len s = S k ->
  exists p s', s = p +:+ s' /\ String.length p = S k
    /\ (forall y, utf8_len (p +:+ y) = S k)
    /\ (match p with String c _ => (code c <? 128) = false | "" => True end -> all_high p = true)
    /\ (match p with String c _ => (code c <? 128) = true | "" => True end -> k = 0%nat).
Proof.
  unfold utf8_len.
  destruct s as [|c0 s1]; [discriminate|].
  destruct (code c0 <? 128) eqn:E0.
  { intros [= <-]. exists (str1 c0), s1.
    split; [reflexivity|]. split; [reflexivity|]. split; [|split].
    - intros y. unfold str1. rewrite app_cons. cbn. rewrite E0. reflexivity.
    - cbn. congruence.
    - reflexivity. }
  assert (H0 : high c0 = true) by (unfold high; apply N.leb_le; apply N.ltb_ge in E0; exact E0).
  destruct s1 as [|c1 s2]; [discriminate|].
  destruct (between 194 223 c0) eqn:E2.
  { destruct (between 128 191 c1) eqn:Ec1; [|discriminate].
    intros [= <-]. exists (String c0 (str1 c1)), s2.
    assert (H1 : high c1 = true) by (unfold high; apply N.leb_le; apply between_spec in Ec1; lia).
    split; [reflexivity|]. split; [reflexivity|]. split; [|split].
    - intros y. unfold str1. rewrite !app_cons. cbn. rewrite E0, E2, Ec1. reflexivity.
    - intros _. cbn. rewrite H0, H1. reflexivity.
    - cbn. congruence. }
  destruct s2 as [|c2 s3]; [discriminate|].
  match goal with |- (if ?three then _ else _) = _ -> _ => destruct three eqn:E3 end.
  { destruct (between 128 191 c2) eqn:Ec2; [|discriminate].
    intros [= <-]. exists (String c0 (String c1 (str1 c2))), s3.
    assert (H1 : high c1 = true).
    { unfold high. apply N.leb_le.
      repeat (apply orb_true_iff in E3 as [E3|E3]);
        apply andb_true_iff in E3 as [_ E3]; apply between_spec in E3; lia. }
    assert (H2 : high c2 = true) by (unfold high; apply N.leb_le; apply between_spec in Ec2; lia).
    split; [reflexivity|]. split; [reflexivity|]. split; [|split].
    - intros y. unfold str1. rewrite !app_cons. cbn. rewrite E0, E2, E3, Ec2. reflexivity.
    - intros _. cbn. rewrite H0, H1, H2. reflexivity.
    - cbn. congruence. }
  destruct s3 as [|c3 s4]; [discriminate|].
  match goal with |- (if ?four then _ else _) = _ -> _ => destruct four eqn:E4 end; [|discriminate].
  intros [= <-]. exists (String c0 (String c1 (String c2 (str1 c3)))), s4.
  apply andb_true_iff in E4 as [E4 Ec3]. apply andb_true_iff in E4 as [E4 Ec2].
  assert (H1 : high c1 = true).
  { unfold high. apply N.leb_le.
    repeat (apply orb_true_iff in E4 as [E4|E4]);
      apply andb_true_iff in E4 as [_ E4]; apply between_spec in E4; lia. }
  assert (H2 : high c2 = true) by (unfold high; apply N.leb_le; apply between_spec in Ec2; lia).
  assert (H3 : high c3 = true) by (unfold high; apply N.leb_le; apply between_spec in Ec3; lia).
  split; [reflexivity|]. split; [reflexivity|]. split; [|split].
  - intros y. unfold str1. rewrite !app_cons. cbn. rewrite E0, E2, E3, E4, Ec2, Ec3. reflexivity.
  - intros _. cbn. rewrite H0, H1, H2, H3. reflexivity.
  - cbn. congruence.
Qed.

Lemma pushes_Ok e lit rest : pushes e (Ok (lit, rest)) = Ok (e +:+ lit, rest).
Proof. induction e as [|c e IH]; [reflexivity|]. cbn [pushes]. rewrite IH. reflexivity. Qed.

Lemma high_inv c :
  high c = true ->
  Ascii.eqb c dq = false /\ Ascii.eqb c bs = false
  /\ (code c <? 32) = false /\ (code c <? 128) = false.
Proof.
  unfold high. intros H. apply N.leb_le in H.
  repeat split; try (apply N.ltb_ge; lia);
    apply Ascii.eqb_neq; intros ->; vm_compute in H; apply H; reflexivity.
Qed.

Lemma scan_string_high p y :
  all_high p = true -> scan_string InString (p +:+ y) = pushes p (scan_string InString y).
Proof.
  induction p as [|c p IH]; intros H; [reflexivity|].
  cbn [all_high] in H. apply andb_true_iff in H as [Hc Hp].
  destruct (high_inv c Hc) as (E1 & E2 & E3 & _).
  rewrite app_cons. cbn [scan_string pushes]. rewrite E1, E2, E3, (IH Hp). reflexivity.
Qed.

Lemma escape_from_skip p : forall y, escape_from (String.length p) (p +:+ y) = escape_from 0 y.
Proof. induction p as [|c p IH]; intros y; [reflexivity|]. rewrite app_cons. exact (IH y). Qed.

Lemma unquote_from_skip p : forall y, unquote_from (String.length p) (p +:+ y) = unquote_from 0 y.
Proof. induction p as [|c p IH]; intros y; [reflexivity|]. rewrite app_cons. exact (IH y). Qed.

Lemma valid_utf8_from_skip p : forall y,
  valid_utf8_from (String.length p) (p +:+ y) = valid_utf8_from 0 y.
Proof. induction p as [|c p IH]; intros y; [reflexivity|]. rewrite app_cons. exact (IH y). Qed.

(** What [appendString] writes for an ASCII character is read back as
    that character. *)
Lemma escape_ascii c r :
  (code c <? 128) = true ->
  exists out,
    escape_step (String c r) = (out, 1%nat)
    /\ (forall y, scan_string InString (out +:+ y) = pushes out (scan_string InString y))
    /\ (forall y, unquote_from 0 (out +:+ y) = String c (unquote_from 0 y)).
Proof.
  intros H. exists (fst (escape_step (String c ""))).
  destruct c as [b0 b1 b2 b3 b4 b5 b6 b7].
  destruct b7; [destruct b0, b1, b2, b3, b4, b5, b6; discriminate H|].
  destruct b0, b1, b2, b3, b4, b5, b6;
    (split; [reflexivity|]; split; intros y; reflexivity).
Qed.

(** What [appendString] writes for one character of a valid string is
    read back as that character. *)
Lemma escape_chunk s k :
  utf8_len s = S k ->
  exists c p s' out,
    s = String c (p +:+ s') /\ String.length p = k
    /\ escape_step s = (out, S k)
    /\ (forall y, scan_string InString (out +:+ y) = pushes out (scan_string InString y))
    /\ (forall y, unquote_from 0 (out +:+ y) = String c p +:+ unquote_from 0 y).
Proof.
  intros Hlen.
  destruct (utf8_len_spec s k Hlen) as (p & s' & -> & Hp & Hy & Hhigh & Hlow).
  destruct p as [|c p]; [discriminate|]. injection Hp as Hp.
  exists c, p, s'. rewrite app_cons.
  destruct (code c <? 128) eqn:Ec.
  - specialize (Hlow eq_refl). subst k. destruct p; [|discriminate].
    destruct (escape_ascii c ("" +:+ s') Ec) as (out & H1 & H2 & H3).
    exists out. repeat split; assumption.
  - specialize (Hhigh eq_refl).
    assert (Hstep : forall y,
      unquote_from 0 (String c p +:+ y) = String c p +:+ unquote_from 0 y).
    { intros y. rewrite app_cons. cbn [unquote_from]. unfold unquote_step.
      cbn [all_high] in Hhigh. apply andb_true_iff in Hhigh as [Hc _].
      destruct (high_inv c Hc) as (_ & E2 & _ & E4). rewrite E2, E4.
      rewrite <- app_cons, Hy. rewrite <- Hp at 1.
      change (S (String.length p)) with (String.length (String c p)).
      rewrite take_s_app. cbn [String.length Nat.sub]. rewrite Nat.sub_0_r.
      rewrite app_cons. cbn [unquote_from].
      rewrite <- Hp, unquote_from_skip. reflexivity. }
    assert (Htake : take_s (S k) (String c p +:+ s') = String c p).
    { rewrite <- Hp. change (S (String.length p)) with (String.length (String c p)).
      apply take_s_app. }
    unfold escape_step. rewrite Ec. rewrite <- app_cons, Hy, !Htake.
    destruct (bool_decide (String c p = String (chr 226) (String (chr 128) (str1 (chr 168)))))
      eqn:E1.
    { apply bool_decide_eq_true in E1. injection E1 as -> ->. cbn in Hp. subst k.
      eexists. split; [reflexivity|]. split; [reflexivity|]. split; [reflexivity|].
      split; intros y; reflexivity. }
    destruct (bool_decide (String c p = String (chr 226) (String (chr 128) (str1 (chr 169)))))
      eqn:E2.
    { apply bool_decide_eq_true in E2. injection E2 as -> ->. cbn in Hp. subst k.
      eexists. split; [reflexivity|]. split; [reflexivity|]. split; [reflexivity|].
      split; intros y; reflexivity. }
    exists (String c p). split; [reflexivity|]. split; [exact Hp|]. split; [reflexivity|].
    split; [|exact Hstep].
    intros y. apply scan_string_high. exact Hhigh.
Qed.

Lemma escape_round_trip n : forall s,
  (String.length s <= n)%nat ->
  valid_utf8 s = true ->
  (forall rest,
     scan_string InString (escape_from 0 s +:+ String dq rest) = Ok (escape_from 0 s, rest))
  /\ unquote (escape_from 0 s) = s.
Proof.
  unfold valid_utf8, unquote.
  induction n as [|n IH]; intros s Hn Hv.
  - destruct s; [|simpl in Hn; lia]. split; [intros rest|]; reflexivity.
  - destruct s as [|c0 s0]; [split; [intros rest|]; reflexivity|].
    cbn [valid_utf8_from] in Hv.
    destruct (utf8_len (String c0 s0)) as [|k] eqn:Hlen; [discriminate|].
    destruct (escape_chunk _ _ Hlen) as (c & p & s' & out & Hs & Hp & Hout & Hscan & Hunq).
    injection Hs as -> ->.
    rewrite <- Hp in Hv. rewrite valid_utf8_from_skip in Hv.
    assert (Hle : (String.length s' <= n)%nat).
    { cbn [String.length] in Hn. rewrite length_app_s in Hn. lia. }
    destruct (IH s' Hle Hv) as [IH1 IH2].
    assert (Hesc : escape_from 0 (String c (p +:+ s')) = out +:+ escape_from 0 s').
    { cbn [escape_from]. rewrite Hout. cbn [Nat.sub]. rewrite Nat.sub_0_r.
      rewrite <- Hp. rewrite escape_from_skip. reflexivity. }
    rewrite Hesc. split.
    + intros rest. rewrite app_assoc_s, Hscan, IH1, pushes_Ok. reflexivity.
    + rewrite Hunq, IH2. reflexivity.
Qed.

Lemma parse_value_appendString f d s rest :
  valid_utf8 s = true ->
  parse_value (S f) d (appendString s +:+ rest) = Parsed (JString s) rest.
Proof.
  intros Hv. destruct (escape_round_trip _ s (le_n _) Hv) as [Hscan Hunq].
  unfold appendString, str1.
  rewrite app_cons, app_assoc_s, app_cons, app_empty_l.
  cbn [parse_value skip_space]. known_bytes.
  rewrite Hscan. cbn [literal]. rewrite Hunq. reflexivity.
Qed.

(** ** The decoder on the synthetic server's text *)

Lemma plain_char_inv c :
  plain_char c = true ->
  Ascii.eqb c dq = false /\ Ascii.eqb c bs = false
  /\ (code c <? 32) = false /\ (code c <? 128) = true.
Proof.
  unfold plain_char. rewrite !andb_true_iff, !negb_true_iff.
  intros [[[H1 H2] H3] H4]. repeat split; auto.
  apply N.ltb_ge. apply N.leb_le in H1. exact H1.
Qed.

Lemma scan_string_plain s rest :
  plain s = true -> scan_string InString (s +:+ String dq rest) = Ok (s, rest).
Proof.
  induction s as [|c s IH]; intros Hp.
  - rewrite app_empty_l. simpl. reflexivity.
  - simpl in Hp. apply andb_true_iff in Hp as [Hc Hs].
    destruct (plain_char_inv c Hc) as (E1 & E2 & E3 & _).
    rewrite app_cons. simpl. rewrite E1, E2, E3, (IH Hs). reflexivity.
Qed.

Lemma unquote_plain s : plain s = true -> unquote s = s.
Proof.
  unfold unquote. induction s as [|c s IH]; intros Hp; [reflexivity|].
  simpl in Hp. apply andb_true_iff in Hp as [Hc Hs].
  destruct (plain_char_inv c Hc) as (E1 & E2 & E3 & E4).
  cbn [unquote_from]. unfold unquote_step. rewrite E2, E4.
  cbn [Nat.sub]. rewrite (IH Hs). reflexivity.
Qed.

Lemma parse_value_object f d key r :
  (maxNestingDepth <? d + 1) = false ->
  parse_value (S f) d ("{" +:+ quoted key +:+ r)
  = wrap JObject (parse_members f (d + 1) (quoted key +:+ r)).
Proof.
  intros Hd.
  change ("{" +:+ quoted key +:+ r) with (String "{" (String dq ((key +:+ str1 dq) +:+ r))).
  cbn [parse_value skip_space]. known_bytes. rewrite Hd.
  cbn [skip_space]. known_bytes. reflexivity.
Qed.

Lemma parse_value_array f d x :
  (maxNestingDepth <? d + 1) = false ->
  parse_value (S f) d ("[" +:+ "{" +:+ x)
  = wrap JArray (parse_elements f (d + 1) ("{" +:+ x)).
Proof.
  intros Hd.
  change ("[" +:+ "{" +:+ x) with (String "[" (String "{" x)).
  cbn [parse_value skip_space]. known_bytes. rewrite Hd.
  cbn [skip_space]. known_bytes. reflexivity.
Qed.

Lemma parse_value_empty_array f d r :
  (maxNestingDepth <? d + 1) = false ->
  parse_value (S f) d ("[" +:+ "]" +:+ r) = Parsed (JArray []) r.
Proof.
  intros Hd. change ("[" +:+ "]" +:+ r) with (String "[" (String "]" r)).
  cbn [parse_value skip_space]. known_bytes. rewrite Hd.
  cbn [skip_space]. known_bytes. reflexivity.
Qed.

Lemma parse_elements_S f d s :
  parse_elements (S f) d s =
  match parse_value f d s with
  | Parsed v r =>
    match skip_space r with
    | "" => Failed unexpected_end
    | String c r' =>
      if Ascii.eqb c "," then wrap (cons v) (parse_elements f d r')
      else if Ascii.eqb c "]" then Parsed [v] r'
      else Failed (invalid_char c "after array element")
    end
  | Failed e => Failed e
  | OutOfFuel => OutOfFuel
  end.
Proof. reflexivity. Qed.

(** A member whose value is written [text] and read [v], before the
    byte [sep]. *)
Lemma parse_members_step f d key text v sep r :
  plain key = true ->
  isSpace sep = false ->
  (forall x, skip_space (text +:+ x) = text +:+ x) ->
  parse_value f d (text +:+ String sep "" +:+ r) = Parsed v (String sep "" +:+ r) ->
  parse_members (S f) d (quoted key +:+ ":" +:+ text +:+ String sep "" +:+ r)
  = if Ascii.eqb sep "," then wrap (cons (key, text, v)) (parse_members f d r)
    else if Ascii.eqb sep "}" then Parsed [(key, text, v)] r
    else Failed (invalid_char sep "after object key:value pair").
Proof.
  intros Hk Hsep Htext Hv.
  change (String sep "" +:+ r) with (String sep r) in *.
  change (quoted key +:+ ":" +:+ text +:+ String sep r)
    with (String dq ((key +:+ str1 dq) +:+ ":" +:+ text +:+ String sep r)).
  rewrite app_assoc_s. unfold str1 at 1. rewrite app_cons, app_empty_l.
  cbn [parse_members skip_space]. known_bytes.
  rewrite scan_string_plain by assumption.
  rewrite app_cons, app_empty_l. cbn [skip_space]. known_bytes.
  rewrite Htext, Hv. cbn [skip_space]. rewrite Hsep, consumed_app, unquote_plain by assumption.
  reflexivity.
Qed.

Lemma parse_members_string f d key val sep r :
  plain key = true -> valid_utf8 val = true -> isSpace sep = false ->
  parse_members (S (S f)) d (quoted key +:+ ":" +:+ appendString val +:+ String sep "" +:+ r)
  = if Ascii.eqb sep ","
    then wrap (cons (key, appendString val, JString val)) (parse_members (S f) d r)
    else if Ascii.eqb sep "}" then Parsed [(key, appendString val, JString val)] r
    else Failed (invalid_char sep "after object key:value pair").
Proof.
  intros Hk Hv Hsep. apply parse_members_step; [assumption | assumption | | ].
  - intros x. reflexivity.
  - apply parse_value_appendString. exact Hv.
Qed.

Lemma parse_value_record f d t r :
  well_formed t = true ->
  (maxNestingDepth <? d + 1) = false ->
  (7 <= f)%nat ->
  parse_value f d (render_TokenBalance t +:+ r) = Parsed (tree_TokenBalance t) r.
Proof.
  unfold well_formed. rewrite !andb_true_iff. intros [[[[H1 H2] H3] H4] H5] Hd Hf.
  do 7 (destruct f as [|f]; [lia|]). clear Hf.
  unfold render_TokenBalance. rewrite !app_assoc_s.
  rewrite parse_value_object by assumption.
  do 4 (rewrite parse_members_string by (assumption || reflexivity); known_bytes).
  rewrite parse_members_string by (assumption || reflexivity).
  reflexivity.
Qed.

Lemma parse_elements_records ts : forall t f d r,
  forallb well_formed (t :: ts) = true ->
  (maxNestingDepth <? d + 1) = false ->
  (length ts + 8 <= f)%nat ->
  parse_elements f d (render_records (t :: ts) +:+ "]" +:+ r)
  = Parsed (List.map tree_TokenBalance (t :: ts)) r.
Proof.
  induction ts as [|t' ts IH]; intros t f d r Hwf Hd Hf.
  - simpl in Hwf. rewrite andb_true_r in Hwf.
    destruct f as [|f]; [simpl in Hf; lia|]. simpl in Hf.
    rewrite parse_elements_S. cbn [render_records].
    rewrite parse_value_record by (assumption || lia).
    reflexivity.
  - cbn [forallb] in Hwf. apply andb_true_iff in Hwf as [Hw Hwf].
    destruct f as [|f]; [simpl in Hf; lia|]. simpl in Hf.
    change (render_records (t :: t' :: ts))
      with (render_TokenBalance t +:+ "," +:+ render_records (t' :: ts)).
    rewrite !app_assoc_s.
    rewrite parse_elements_S. rewrite parse_value_record by (assumption || lia).
    change ("," +:+ render_records (t' :: ts) +:+ "]" +:+ r)
      with (String "," (render_records (t' :: ts) +:+ "]" +:+ r)).
    cbn [skip_space]. known_bytes.
    rewrite IH; [reflexivity | exact Hwf | exact Hd | lia].
Qed.

Lemma render_records_head t ts :
  exists x, render_records (t :: ts) = "{" +:+ x.
Proof.
  destruct ts as [|t' ts]; cbn [render_records]; unfold render_TokenBalance;
    rewrite ?app_assoc_s; eexists; reflexivity.
Qed.

Lemma parse_value_render_array ts f d r :
  forallb well_formed ts = true ->
  d + 2 <= maxNestingDepth ->
  (length ts + 9 <= f)%nat ->
  parse_value f d (render_array ts +:+ r) = Parsed (tree_array ts) r.
Proof.
  intros Hwf Hd Hf. destruct f as [|f]; [lia|].
  assert (Hd1 : (maxNestingDepth <? d + 1) = false) by (apply N.ltb_ge; lia).
  assert (Hd2 : (maxNestingDepth <? d + 1 + 1) = false) by (apply N.ltb_ge; lia).
  unfold render_array, tree_array. rewrite !app_assoc_s.
  destruct ts as [|t ts].
  - cbn [render_records]. rewrite app_empty_l. apply parse_value_empty_array. exact Hd1.
  - destruct (render_records_head t ts) as [x Hx].
    assert (Hpe := parse_elements_records ts t f (d + 1) r Hwf Hd2).
    rewrite Hx in *. rewrite app_assoc_s in *.
    rewrite parse_value_array by exact Hd1.
    rewrite Hpe by (simpl in Hf; lia). reflexivity.
Qed.

Lemma parse_value_render_inner ts f d r :
  forallb well_formed ts = true ->
  d + 3 <= maxNestingDepth ->
  (length ts + 11 <= f)%nat ->
  parse_value f d (render_inner ts +:+ r) = Parsed (tree_inner ts) r.
Proof.
  intros Hwf Hd Hf. do 2 (destruct f as [|f]; [lia|]).
  unfold render_inner, tree_inner. rewrite !app_assoc_s.
  rewrite parse_value_object by (apply N.ltb_ge; lia).
  rewrite parse_members_step with (v := tree_array ts); [reflexivity ..| ].
  apply parse_value_render_array; [exact Hwf | lia | lia].
Qed.

Lemma parse_value_render_data ts f d r :
  forallb well_formed ts = true ->
  d + 4 <= maxNestingDepth ->
  (length ts + 13 <= f)%nat ->
  parse_value f d (render_data ts +:+ r) = Parsed (tree_data ts) r.
Proof.
  intros Hwf Hd Hf. do 2 (destruct f as [|f]; [lia|]).
  unfold render_data, tree_data. rewrite !app_assoc_s.
  rewrite parse_value_object by (apply N.ltb_ge; lia).
  rewrite parse_members_step with (v := tree_inner ts); [reflexivity ..| ].
  apply parse_value_render_inner; [exact Hwf | lia | lia].
Qed.

Lemma parse_value_response ts f r :
  forallb well_formed ts = true ->
  (length ts + 15 <= f)%nat ->
  parse_value f 0 (token_balance_response ts +:+ r)
  = Parsed (JObject [("data", render_data ts, tree_data ts)]) r.
Proof.
  intros Hwf Hf. do 2 (destruct f as [|f]; [lia|]).
  unfold token_balance_response. rewrite !app_assoc_s.
  rewrite parse_value_object by reflexivity.
  rewrite parse_members_step with (v := tree_data ts); [reflexivity ..| ].
  apply parse_value_render_data; [exact Hwf | unfold maxNestingDepth; lia | lia].
Qed.

Lemma length_render_records ts : (length ts <= String.length (render_records ts))%nat.
Proof.
  induction ts as [|t ts IH]; [simpl; lia|].
  assert (H1 : (1 <= String.length (render_TokenBalance t))%nat).
  { unfold render_TokenBalance. rewrite app_cons. simpl. lia. }
  destruct ts as [|t' ts]; [simpl; lia|].
  change (render_records (t :: t' :: ts))
    with (render_TokenBalance t +:+ "," +:+ render_records (t' :: ts)).
  rewrite !length_app_s. cbn [length] in *. lia.
Qed.

Lemma length_render_data ts : (length ts + 6 <= String.length (render_data ts))%nat.
Proof.
  unfold render_data, render_inner, render_array, quoted.
  rewrite ?length_app_s. cbn [String.length]. rewrite ?length_app_s. cbn [String.length].
  rewrite ?length_app_s. cbn [String.length].
  pose proof (length_render_records ts). lia.
Qed.

Lemma json_parse_render_data ts :
  forallb well_formed ts = true ->
  json_parse (render_data ts) = Ok (tree_data ts).
Proof.
  intros Hwf. unfold json_parse.
  rewrite <- (app_empty_r (render_data ts)) at 2.
  rewrite parse_value_render_data; [reflexivity | exact Hwf | unfold maxNestingDepth; lia | ].
  pose proof (length_render_data ts). lia.
Qed.

Lemma json_parse_response ts :
  forallb well_formed ts = true ->
  json_parse (token_balance_response ts)
  = Ok (JObject [("data", render_data ts, tree_data ts)]).
Proof.
  intros Hwf. unfold json_parse.
  rewrite <- (app_empty_r (token_balance_response ts)) at 2.
  rewrite parse_value_response; [reflexivity | exact Hwf | ].
  unfold token_balance_response. rewrite ?length_app_s.
  pose proof (length_render_data ts). cbn [String.length quoted]. lia.
Qed.

(** *** Storing the records *)

Lemma decode_TokenBalance_tree t old :
  decode_TokenBalance (tree_TokenBalance t) old = (t, None).
Proof. destruct t, old. reflexivity. Qed.

Lemma decode_elements_trees ts : forall slots,
  (length slots <= length ts)%nat ->
  decode_elements (List.map tree_TokenBalance ts) slots = (ts, None).
Proof.
  induction ts as [|t ts IH]; intros slots Hs.
  - destruct slots; [reflexivity | simpl in Hs; lia].
  - cbn [List.map decode_elements]. rewrite decode_TokenBalance_tree.
    rewrite IH; [reflexivity|]. destruct slots; simpl in *; lia.
Qed.

Lemma Unmarshal_respData_render ts :
  forallb well_formed ts = true ->
  exists r, Unmarshal_respData (render_data ts) = (r, None)
    /\ elements (TokenBalance_ (TokenBalances r)) = ts.
Proof.
  intros Hwf. unfold Unmarshal_respData. rewrite (json_parse_render_data ts Hwf).
  unfold tree_data, tree_inner, tree_array.
  destruct ts as [|t ts].
  - eexists. split; reflexivity.
  - cbn [fold_left decode_outer_member].
    change (find_field (λ _ : (), "TokenBalances") [()] "TokenBalances") with (Some ()).
    cbv iota. cbn [decode_inner fold_left decode_inner_member].
    change (find_field (λ _ : (), "TokenBalance") [()] "TokenBalance") with (Some ()).
    cbv iota. cbn [decode_slice List.map].
    change (tree_TokenBalance t :: List.map tree_TokenBalance ts)
      with (List.map tree_TokenBalance (t :: ts)).
    rewrite decode_elements_trees by (simpl; lia).
    eexists. split; [reflexivity|].
    cbn [TokenBalances TokenBalance_ elements len backing].
    rewrite length_map. apply firstn_all.
Qed.

(** C7: when the server answers HTTP 200 with N well-formed token-balance
    records under data.TokenBalances.TokenBalance, GetTokenBalances
    returns exactly these N records, each field byte for byte, and no
    error. *)
Theorem GetTokenBalances_round_trip client ctx variables w body records :
  query_body GetTokensHeldByWalletAddress variables = Ok body ->
  answer w (query_request client ctx body) = Responds 200 (token_balance_response records) ->
  forallb well_formed records = true ->
  GetTokenBalances client ctx variables w
  = (Returns (records, None), made (query_request client ctx body) w).
Proof.
  intros Hb Hex Hwf.
  unfold GetTokenBalances. cbv zeta.
  rewrite (ExecuteQuery_200 _ _ _ _ _ _ Hb _ Hex).
  destruct (Unmarshal_map_RawMessage_object _ _ (json_parse_response records Hwf))
    as (m & -> & Hm).
  rewrite (Hm "errors"), (Hm "data"). cbn [field_raw fold_left].
  change (bool_decide ("data" = "errors")) with false.
  change (bool_decide ("data" = "data")) with true. cbv iota.
  cbn [default Data envelope from_option id].
  destruct (Unmarshal_respData_render records Hwf) as (r & -> & Hr).
  rewrite Hr. reflexivity.
Qed.

(** The scenario of the specification: one record, Amount 100 on
    ethereum. *)
Lemma GetTokenBalances_round_trip_witness :
  let client := NewAirstackClient "key" in
  let variables :=
    VMap [("identity", VString "0xabc"); ("tokenType", VSlice [VString "ERC20"]);
          ("blockchain", VString "ethereum"); ("limit", VInt 10)] in
  let body :=
    match query_body GetTokensHeldByWalletAddress variables with
    | Ok body => body
    | Err _ => ""
    end in
  let records := [mkTokenBalance "100" "1.0" "ethereum" "0xabc" ""] in
  let w :=
    server 200
      (js "{'data':{'TokenBalances':{'TokenBalance':[{'amount':'100','formattedAmount':'1.0','blockchain':'ethereum','tokenAddress':'0xabc','tokenId':''}]}}}") in
  query_body GetTokensHeldByWalletAddress variables = Ok body
  /\ answer w (query_request client context_Background body)
     = Responds 200 (token_balance_response records)
  /\ forallb well_formed records = true
  /\ GetTokenBalances client context_Background variables w
     = (Returns (records, None), made (query_request client context_Background body) w).
Proof.
  cbv zeta.
  split; [vm_compute; reflexivity|]. split; [vm_compute; reflexivity|].
  split; [reflexivity|].
  apply GetTokenBalances_round_trip; [vm_compute; reflexivity | vm_compute; reflexivity | reflexivity].
Defined.

(** A record whose fields need escapes or are not ASCII comes back the
    same. *)
Example GetTokenBalances_escaped_scenario :
  let name := String dq ("Caf" +:+ String (chr 195) (String (chr 169) (String bs "<1>"))) in
  let records := [mkTokenBalance "1" "0.000000000000000001" name "0xabc" "7"] in
  well_formed (mkTokenBalance "1" "0.000000000000000001" name "0xabc" "7") = true
  /\ appendString name
     = String dq (String bs (String dq ("Caf" +:+ String (chr 195) (String (chr 169)
         (String bs (String bs ("\u003c1\u003e" +:+ str1 dq)))))))
  /\ fst (GetTokenBalances (NewAirstackClient "key") context_Background VNil
            (server 200 (token_balance_response records)))
     = Returns (records, None).
Proof. cbv zeta. split; [reflexivity|]. split; vm_compute; reflexivity. Qed.

(** * Further properties

    The failures of the transport, the requests made, the demo program,
    the request body, and what GetTokenBalances makes of the value of the
    [data] field. *)

(** ** SendRequest: failures of the transport, and the request made *)

(** X1: when no response body is received (the request cannot be built, the
    transport fails, or the body cannot be read), SendRequest returns an
    empty body, the error of that step as it is, and as status code 0 or,
    where a response arrived, the status code of that response. *)
Theorem SendRequest_transport_failure ctx method url headers payload w :
  let ex := answer w (mkRequest ctx method url headers payload) in
  (forall status body, ex ≠ Responds status body) ->
  exists err,
    (ex = NewRequestFails err \/ ex = DoFails err \/ exists status, ex = ReadFails status err)
    /\ fst (SendRequest ctx method url headers payload w)
       = ("", default 0%Z (response_status ex), Some err).
Proof.
  cbv zeta. intros Hno. rewrite SendRequest_exchange. cbv zeta. cbn [fst].
  destruct (answer w (mkRequest ctx method url headers payload)) as [e|e|st e|st b].
  - exists e. split; [auto|reflexivity].
  - exists e. split; [auto|reflexivity].
  - exists e. split; [eauto|reflexivity].
  - exfalso. exact (Hno st b eq_refl).
Qed.

Lemma SendRequest_transport_failure_witness :
  let w := unreachable (TransportError "dial tcp: i/o timeout") in
  let ex := answer w (mkRequest context_Background "POST" apiEndpointProd ∅ "{}") in
  (forall status body, ex ≠ Responds status body)
  /\ exists err,
       (ex = NewRequestFails err \/ ex = DoFails err \/ exists status, ex = ReadFails status err)
       /\ fst (SendRequest context_Background "POST" apiEndpointProd ∅ "{}" w)
          = ("", default 0%Z (response_status ex), Some err).
Proof.
  cbv zeta.
  assert (H : forall status body,
    answer (unreachable (TransportError "dial tcp: i/o timeout"))
      (mkRequest context_Background "POST" apiEndpointProd ∅ "{}") ≠ Responds status body)
    by (intros status body; discriminate).
  split; [exact H|].
  exact (SendRequest_transport_failure context_Background "POST" apiEndpointProd ∅ "{}"
           (unreachable (TransportError "dial tcp: i/o timeout")) H).
Defined.

(** X2: SendRequest returns a nil error exactly when a response has arrived
    and been read and either its status code is 200 or
    [json.Unmarshal] of its body into a [map[string]interface{}] succeeds;
    it then returns the body and the status code as received.  A body
    received with status 200 is not looked at. *)
Theorem SendRequest_no_error ctx method url headers payload w :
  snd (fst (SendRequest ctx method url headers payload w)) = None
  <-> exists status body,
        answer w (mkRequest ctx method url headers payload) = Responds status body
        /\ (status = successStatusCode \/ Unmarshal_map_interface body = None)
        /\ fst (SendRequest ctx method url headers payload w) = (body, status, None).
Proof.
  rewrite SendRequest_exchange. cbv zeta. cbn [fst snd].
  destruct (answer w (mkRequest ctx method url headers payload)) as [e|e|st e|st b];
    cbn [exchange_error exchange_body exchange_code].
  1-3: split; [discriminate | intros (s & b & H & _); discriminate].
  destruct (st =? successStatusCode)%Z eqn:E.
  - apply Z.eqb_eq in E. split; [|reflexivity].
    intros _. exists st, b. auto.
  - apply Z.eqb_neq in E. split.
    + intros H. exists st, b. rewrite H. auto.
    + intros (s & b' & [= <- <-] & [H|H] & _); [contradiction|exact H].
Qed.

(** X3: SendRequest leaves the network as it is and makes exactly one
    request, the one of its arguments, after those made before; it makes
    none only where the request cannot be built. *)
Theorem SendRequest_one_request ctx method url headers payload w :
  let req := mkRequest ctx method url headers payload in
  let w' := snd (SendRequest ctx method url headers payload w) in
  network w' = network w
  /\ (requests w' = requests w ++ [req]
      \/ requests w' = requests w /\ exists err, answer w req = NewRequestFails err).
Proof.
  cbv zeta. rewrite SendRequest_exchange. cbv zeta. cbn [snd].
  destruct (answer w (mkRequest ctx method url headers payload)) as [e|e|st e|st b];
    cbn [after made network requests]; split; try reflexivity; eauto.
Qed.

(** ** ExecuteQuery: the call-level error and the envelope's Error *)

(** X4: a failure of the transport (no request built, no response, or a
    body that cannot be read) is not a call-level error of ExecuteQuery: it
    returns an envelope whose Error is the formatted string with the
    message of the transport's error and the status code, 0 where no
    response arrived, and whose Data is unset. *)
Theorem ExecuteQuery_transport_failure client ctx query variables w body err :
  query_body query variables = Ok body ->
  let ex := answer w (query_request client ctx body) in
  (ex = NewRequestFails err \/ ex = DoFails err \/ exists status, ex = ReadFails status err) ->
  exists q,
    fst (ExecuteQuery client ctx query variables w) = (Some q, None)
    /\ Error q
       = "HTTP error: " +:+ Error_msg err +:+ ", Status Code: " +:+ itoa (StatusCode q)
    /\ StatusCode q = default 0%Z (response_status ex)
    /\ Data q = "".
Proof.
  intros Hb. cbv zeta. intros Hex.
  rewrite (ExecuteQuery_exchange _ _ _ _ _ _ Hb). cbv zeta. cbn [fst].
  destruct Hex as [->|[->|[st ->]]]; cbn [exchange_error exchange_code response_status default];
    (rewrite bool_decide_eq_true_2 by eauto); cbn [orb];
    eexists; (split; [reflexivity|]); repeat split.
Qed.

Lemma ExecuteQuery_transport_failure_witness :
  let client := NewAirstackClient "key" in
  let err := TransportError "context deadline exceeded" in
  let w := unreachable err in
  let body := js "{'query':'q','variables':null}" in
  let ex := answer w (query_request client context_Background body) in
  query_body "q" VNil = Ok body
  /\ (ex = NewRequestFails err \/ ex = DoFails err \/ exists status, ex = ReadFails status err)
  /\ exists q,
       fst (ExecuteQuery client context_Background "q" VNil w) = (Some q, None)
       /\ Error q
          = "HTTP error: " +:+ Error_msg err +:+ ", Status Code: " +:+ itoa (StatusCode q)
       /\ StatusCode q = default 0%Z (response_status ex)
       /\ Data q = "".
Proof.
  cbv zeta.
  assert (Hb : query_body "q" VNil = Ok (js "{'query':'q','variables':null}"))
    by (vm_compute; reflexivity).
  assert (Hex : let ex := answer (unreachable (TransportError "context deadline exceeded"))
                  (query_request (NewAirstackClient "key") context_Background
                     (js "{'query':'q','variables':null}")) in
                ex = NewRequestFails (TransportError "context deadline exceeded")
                \/ ex = DoFails (TransportError "context deadline exceeded")
                \/ exists status, ex = ReadFails status (TransportError "context deadline exceeded"))
    by (right; left; reflexivity).
  split; [exact Hb|]. split; [exact Hex|].
  exact (ExecuteQuery_transport_failure (NewAirstackClient "key") context_Background "q" VNil
           (unreachable (TransportError "context deadline exceeded")) _ _ Hb Hex).
Defined.

(** X5: ExecuteQuery returns a call-level error in two cases only: the
    request body cannot be serialized, or the response has status 200 and
    its body does not decode as a mapping of raw fields.  The error is that
    of the serialization or that of the decoder. *)
Theorem ExecuteQuery_call_error client ctx query variables w err :
  fst (ExecuteQuery client ctx query variables w) = (None, Some err)
  <-> query_body query variables = Err err
      \/ exists body response,
           query_body query variables = Ok body
           /\ answer w (query_request client ctx body) = Responds 200 response
           /\ snd (Unmarshal_map_RawMessage response) = Some err.
Proof.
  destruct (query_body query variables) as [body|e] eqn:Hb.
  - rewrite (ExecuteQuery_exchange _ _ _ _ _ _ Hb). cbv zeta. cbn [fst].
    set (ex := answer w (query_request client ctx body)).
    split.
    + destruct (bool_decide (is_Some (exchange_error ex))) eqn:He; cbn [orb]; [discriminate|].
      destruct (exchange_code ex =? successStatusCode)%Z eqn:Hc; cbn [negb]; [|discriminate].
      apply Z.eqb_eq in Hc. apply bool_decide_eq_false in He.
      destruct ex as [e|e|st e|st b] eqn:Eex; cbn [exchange_error exchange_code exchange_body] in *;
        try (exfalso; apply He; eauto; fail).
      subst st. intros H. right. exists body, b. split; [reflexivity|]. split; [exact Eex|].
      destruct (Unmarshal_map_RawMessage b) as [m [e|]]; cbn [snd].
      * congruence.
      * destruct (m !! "errors"); discriminate.
    + intros [H|(body' & response & [= <-] & Hex & Herr)]; [discriminate|].
      subst ex. rewrite Hex. cbn [exchange_error exchange_code exchange_body].
      change (200 =? successStatusCode)%Z with true. cbv iota.
      rewrite bool_decide_eq_false_2 by (intros [x Hx]; discriminate). cbn [orb negb].
      destruct (Unmarshal_map_RawMessage response) as [m [e|]]; cbn [snd] in Herr; congruence.
  - rewrite (ExecuteQuery_marshal_error _ _ _ _ _ _ Hb). cbn [fst]. split.
    + intros [= <-]. left. reflexivity.
    + intros [[= <-]|(body' & response & H & _)]; [reflexivity|discriminate].
Qed.

Lemma query_body_text query variables :
  query_body query variables
  = match json_Marshal variables with
    | Ok text =>
      Ok ("{" +:+ quoted "query" +:+ ":" +:+ appendString query
          +:+ "," +:+ quoted "variables" +:+ ":" +:+ text +:+ "}")
    | Err err => Err err
    end.
Proof.
  unfold query_body. cbn [json_Marshal List.map fst snd].
  change (sort_entries [("query", Ok (appendString query)); ("variables", json_Marshal variables)])
    with [("query", Ok (appendString query)); ("variables", json_Marshal variables)].
  cbn [List.map member_part fst snd join_parts].
  destruct (json_Marshal variables) as [text|err]; [|reflexivity].
  cbn [join_parts member_part fst snd].
  change (appendString "query") with (quoted "query").
  change (appendString "variables") with (quoted "variables").
  rewrite !app_assoc_s. reflexivity.
Qed.

(** X6: the request body is the JSON object of the query text, whatever
    its bytes, followed by the variables, in this order.  Only variables
    that Marshal refuses make the serialization fail, and ExecuteQuery then
    returns Marshal's error and makes no request. *)
Theorem ExecuteQuery_variables_serialization client ctx query variables w :
  match json_Marshal variables with
  | Err err => ExecuteQuery client ctx query variables w = ((None, Some err), w)
  | Ok text =>
    query_body query variables
    = Ok ("{" +:+ quoted "query" +:+ ":" +:+ appendString query
          +:+ "," +:+ quoted "variables" +:+ ":" +:+ text +:+ "}")
  end.
Proof.
  pose proof (query_body_text query variables) as H.
  destruct (json_Marshal variables) as [text|err]; [exact H|].
  apply ExecuteQuery_marshal_error. exact H.
Qed.

Lemma RawMessage_not_empty response respData key raw :
  Unmarshal_map_RawMessage response = (respData, None) ->
  respData !! key = Some raw -> raw ≠ "".
Proof.
  intros H Hk.
  destruct (json_parse response) as [v|e] eqn:Hp.
  - destruct v as [| | | | |members];
      try (unfold Unmarshal_map_RawMessage in H; rewrite Hp in H; cbn in H;
           first [discriminate | injection H as <-; rewrite lookup_empty in Hk; discriminate]).
    destruct (Unmarshal_map_RawMessage_object _ _ Hp) as (m & Hm & Hl).
    rewrite Hm in H. injection H as <-. rewrite Hl in Hk.
    exact (proj1 (field_raw_verbatim _ _ _ _ Hp Hk)).
  - unfold Unmarshal_map_RawMessage in H. rewrite Hp in H. discriminate.
Qed.

(** X8: the Error of an envelope ExecuteQuery returns is unset exactly
    when the response had status 200 and a body that [json.Unmarshal]
    stores into the map of raw fields, leaving it without an [errors]
    key. *)
Theorem ExecuteQuery_Error_unset client ctx query variables w q :
  fst (ExecuteQuery client ctx query variables w) = (Some q, None) ->
  (Error q = ""
   <-> exists body response respData,
         query_body query variables = Ok body
         /\ answer w (query_request client ctx body) = Responds 200 response
         /\ Unmarshal_map_RawMessage response = (respData, None)
         /\ respData !! "errors" = None).
Proof.
  destruct (query_body query variables) as [body|e] eqn:Hb.
  2:{ rewrite (ExecuteQuery_marshal_error _ _ _ _ _ _ Hb). discriminate. }
  rewrite (ExecuteQuery_exchange _ _ _ _ _ _ Hb). cbv zeta. cbn [fst].
  set (ex := answer w (query_request client ctx body)).
  destruct (bool_decide (is_Some (exchange_error ex))) eqn:He; cbn [orb].
  { intros [= <-]. cbn [Error envelope]. split.
    - intros H. exfalso. exact (Sprintf_HTTP_error_set _ _ H).
    - intros (body' & response & m & [= <-] & Hex & _). exfalso.
      apply bool_decide_eq_true in He. fold ex in Hex. rewrite Hex in He.
      destruct He as [x Hx]. discriminate. }
  destruct (exchange_code ex =? successStatusCode)%Z eqn:Hc; cbn [negb].
  2:{ intros [= <-]. cbn [Error envelope]. split.
      - intros H. exfalso. exact (Sprintf_HTTP_error_set _ _ H).
      - intros (body' & response & m & [= <-] & Hex & _). exfalso.
        fold ex in Hex. rewrite Hex in Hc. discriminate. }
  apply Z.eqb_eq in Hc. apply bool_decide_eq_false in He.
  destruct ex as [e|e|st e|st b] eqn:Eex; cbn [exchange_error exchange_code exchange_body] in *;
    try (exfalso; apply He; eauto; fail).
  subst st.
  destruct (Unmarshal_map_RawMessage b) as [m [e|]] eqn:Hu; [discriminate|].
  destruct (m !! "errors") as [raw|] eqn:Hraw.
  - intros [= <-]. cbn [Error envelope]. split.
    + intros ->. exfalso. exact (RawMessage_not_empty _ _ _ _ Hu Hraw eq_refl).
    + intros (body' & response & m' & [= <-] & Hex & Hu' & Hno).
      unfold ex in Eex. rewrite Eex in Hex. injection Hex as <-.
      rewrite Hu in Hu'. injection Hu' as <-. congruence.
  - intros [= <-]. cbn [Error envelope]. split; [|reflexivity].
    intros _. exists body, b, m. unfold ex in Eex. auto.
Qed.

Lemma ExecuteQuery_Error_unset_witness :
  let client := NewAirstackClient "key" in
  let w := server 200 (js "{'data':{'a':1}}") in
  let q := envelope (js "{'a':1}") 200 "" in
  fst (ExecuteQuery client context_Background "q" VNil w) = (Some q, None)
  /\ (Error q = ""
      <-> exists body response respData,
            query_body "q" VNil = Ok body
            /\ answer w (query_request client context_Background body) = Responds 200 response
            /\ Unmarshal_map_RawMessage response = (respData, None)
            /\ respData !! "errors" = None).
Proof.
  cbv zeta.
  assert (H : fst (ExecuteQuery (NewAirstackClient "key") context_Background "q" VNil
                     (server 200 (js "{'data':{'a':1}}")))
              = (Some (envelope (js "{'a':1}") 200 ""), None))
    by (vm_compute; reflexivity).
  split; [exact H|].
  exact (ExecuteQuery_Error_unset _ _ _ _ _ _ H).
Defined.

(** X10: every request ExecuteQuery makes for a client built by
    NewAirstackClient is a POST to the production endpoint with the API
    key as it was given, empty or not, as its Authorization header. *)
Theorem NewAirstackClient_endpoint apiKey ctx query variables w req :
  In req (requests (snd (ExecuteQuery (NewAirstackClient apiKey) ctx query variables w))) ->
  In req (requests w)
  \/ req_method req = "POST"
     /\ req_url req = "https://api.airstack.xyz/gql"
     /\ req_headers req !! "Authorization" = Some apiKey.
Proof.
  destruct (query_body query variables) as [body|e] eqn:Hb.
  - rewrite (ExecuteQuery_exchange _ _ _ _ _ _ Hb). cbv zeta. cbn [snd].
    destruct (answer w (query_request (NewAirstackClient apiKey) ctx body));
      cbn [after made requests]; try (left; assumption).
    all: intros H; apply in_app_or in H as [H|[<-|[]]]; [left; exact H|right];
      unfold query_request; cbn [req_method req_url req_headers NewAirstackClient URL APIKey];
      (split; [reflexivity|]); (split; [reflexivity|]);
      rewrite lookup_insert_ne by discriminate; apply lookup_insert_eq.
  - rewrite (ExecuteQuery_marshal_error _ _ _ _ _ _ Hb). left. assumption.
Qed.

Lemma NewAirstackClient_endpoint_witness :
  let w := server 200 "{}" in
  let req := query_request (NewAirstackClient "") context_Background
               (js "{'query':'q','variables':null}") in
  In req (requests (snd (ExecuteQuery (NewAirstackClient "") context_Background "q" VNil w)))
  /\ (In req (requests w)
      \/ req_method req = "POST"
         /\ req_url req = "https://api.airstack.xyz/gql"
         /\ req_headers req !! "Authorization" = Some "").
Proof.
  cbv zeta.
  assert (H : In (query_request (NewAirstackClient "") context_Background
                    (js "{'query':'q','variables':null}"))
                (requests (snd (ExecuteQuery (NewAirstackClient "") context_Background "q" VNil
                                  (server 200 "{}")))))
    by (left; reflexivity).
  split; [exact H|].
  exact (NewAirstackClient_endpoint _ _ _ _ _ _ H).
Defined.

(** ** GetTokenBalances without an HTTP 200 response *)

Lemma GetTokenBalances_no_response client ctx variables w body :
  query_body GetTokensHeldByWalletAddress variables = Ok body ->
  (forall response, answer w (query_request client ctx body) ≠ Responds 200 response) ->
  GetTokenBalances client ctx variables w
  = (Returns ([], Some (SyntaxError "unexpected end of JSON input")),
     after (answer w (query_request client ctx body)) (query_request client ctx body) w).
Proof.
  intros Hb Hno. unfold GetTokenBalances. cbv zeta.
  rewrite (ExecuteQuery_exchange _ _ _ _ _ _ Hb). cbv zeta.
  destruct (answer w (query_request client ctx body)) as [e|e|st e|st b] eqn:Hex;
    cbn [exchange_error exchange_code].
  1-3: rewrite bool_decide_eq_true_2 by eauto; reflexivity.
  destruct (st =? successStatusCode)%Z eqn:E.
  - apply Z.eqb_eq in E. subst st. exfalso. exact (Hno b eq_refl).
  - cbn [negb]. rewrite orb_true_r. reflexivity.
Qed.

(** X11: whenever the exchange does not end in an HTTP 200 response (a
    failure of the transport, or any other status code, whatever the body),
    GetTokenBalances returns no records and the decoder's error for an
    empty input; neither the transport's error nor the status code is in
    the result. *)
Theorem GetTokenBalances_not_200 client ctx variables w body :
  query_body GetTokensHeldByWalletAddress variables = Ok body ->
  (forall response, answer w (query_request client ctx body) ≠ Responds 200 response) ->
  fst (GetTokenBalances client ctx variables w)
  = Returns ([], Some (SyntaxError "unexpected end of JSON input")).
Proof.
  intros Hb Hno. rewrite (GetTokenBalances_no_response _ _ _ _ _ Hb Hno). reflexivity.
Qed.

Lemma GetTokenBalances_not_200_witness :
  let client := NewAirstackClient "key" in
  let w := unreachable (TransportError "dial tcp: connection refused") in
  let body :=
    match query_body GetTokensHeldByWalletAddress VNil with
    | Ok body => body
    | Err _ => ""
    end in
  query_body GetTokensHeldByWalletAddress VNil = Ok body
  /\ (forall response,
        answer w (query_request client context_Background body) ≠ Responds 200 response)
  /\ fst (GetTokenBalances client context_Background VNil w)
     = Returns ([], Some (SyntaxError "unexpected end of JSON input")).
Proof.
  cbv zeta.
  assert (Hb : query_body GetTokensHeldByWalletAddress VNil
               = Ok match query_body GetTokensHeldByWalletAddress VNil with
                    | Ok body => body
                    | Err _ => ""
                    end)
    by (vm_compute; reflexivity).
  assert (Hno : forall response,
            answer (unreachable (TransportError "dial tcp: connection refused"))
              (query_request (NewAirstackClient "key") context_Background
                 match query_body GetTokensHeldByWalletAddress VNil with
                 | Ok body => body
                 | Err _ => ""
                 end) ≠ Responds 200 response)
    by (intros response; discriminate).
  split; [exact Hb|]. split; [exact Hno|].
  exact (GetTokenBalances_not_200 _ _ _ _ _ Hb Hno).
Defined.

(** ** The demo program *)

Lemma demo_body_marshalled :
  query_body GetTokensHeldByWalletAddress demo_variables = Ok demo_body.
Proof. vm_compute. reflexivity. Qed.

Lemma main_GetTokenBalances w :
  main w
  = let '(r, w') := GetTokenBalances demo_client context_Background demo_variables w in
    match r with
    | Panics msg => (Panics msg, w')
    | Returns (_, Some err) => (Returns (Println "Error fetching token balances:" err), w')
    | Returns (balances, None) =>
      (Returns (fold_left
                  (fun out balance =>
                     out +:+ Printf_balance (TokenAddress balance) (Amount balance))
                  balances ""), w')
    end.
Proof. reflexivity. Qed.

Lemma fold_left_print balances : forall out,
  fold_left (fun out balance => out +:+ Printf_balance (TokenAddress balance) (Amount balance))
    balances out
  = out +:+ print_balances balances.
Proof.
  induction balances as [|t ts IH]; intros out; cbn [fold_left print_balances].
  - rewrite app_empty_r. reflexivity.
  - rewrite IH, app_assoc_s. reflexivity.
Qed.

Lemma GetTokenBalances_rendered client ctx variables w body records :
  query_body GetTokensHeldByWalletAddress variables = Ok body ->
  answer w (query_request client ctx body) = Responds 200 (token_balance_response records) ->
  forallb well_formed records = true ->
  GetTokenBalances client ctx variables w
  = (Returns (records, None), made (query_request client ctx body) w).
Proof.
  intros Hb Hex Hwf.
  unfold GetTokenBalances. cbv zeta.
  rewrite (ExecuteQuery_200 _ _ _ _ _ _ Hb _ Hex).
  destruct (Unmarshal_map_RawMessage_object _ _ (json_parse_response records Hwf))
    as (m & -> & Hm).
  rewrite (Hm "errors"), (Hm "data"). cbn [field_raw fold_left].
  change (bool_decide ("data" = "errors")) with false.
  change (bool_decide ("data" = "data")) with true. cbv iota.
  cbn [default Data envelope from_option id].
  destruct (Unmarshal_respData_render records Hwf) as (r & -> & Hr).
  rewrite Hr. reflexivity.
Qed.

(** X23: whenever the exchange does not end in an HTTP 200 response, the
    demo program prints one line, always the same: the decoder's error for
    an empty input after [Error fetching token balances:]. *)
Theorem main_prints_error w :
  (forall response, answer w demo_request ≠ Responds 200 response) ->
  fst (main w)
  = Returns ("Error fetching token balances: unexpected end of JSON input" +:+ str1 "010"%char).
Proof.
  intros Hno. rewrite main_GetTokenBalances.
  rewrite (GetTokenBalances_no_response _ _ _ _ _ demo_body_marshalled Hno).
  reflexivity.
Qed.

Lemma main_prints_error_witness :
  let w := server 401 (js "{'message':'invalid API key'}") in
  (forall response, answer w demo_request ≠ Responds 200 response)
  /\ fst (main w)
     = Returns ("Error fetching token balances: unexpected end of JSON input" +:+ str1 "010"%char).
Proof.
  cbv zeta.
  assert (Hno : forall response,
            answer (server 401 (js "{'message':'invalid API key'}")) demo_request
            ≠ Responds 200 response)
    by (intros response; discriminate).
  split; [exact Hno|].
  exact (main_prints_error _ Hno).
Defined.

(** X24: when the server answers the demo program's request with HTTP 200
    and N well-formed records, the program prints one line per record, in
    order, with the record's token address and amount. *)
Theorem main_prints_balances w records :
  answer w demo_request = Responds 200 (token_balance_response records) ->
  forallb well_formed records = true ->
  fst (main w) = Returns (print_balances records).
Proof.
  intros Hex Hwf. rewrite main_GetTokenBalances.
  rewrite (GetTokenBalances_rendered _ _ _ _ _ _ demo_body_marshalled Hex Hwf).
  cbn [fst]. rewrite fold_left_print. rewrite app_empty_l. reflexivity.
Qed.

Lemma main_prints_balances_witness :
  let records := [mkTokenBalance "100" "1.0" "ethereum" "0xabc" "";
                  mkTokenBalance "7" "7" "ethereum" "0xdef" "42"] in
  let w := server 200 (token_balance_response records) in
  answer w demo_request = Responds 200 (token_balance_response records)
  /\ forallb well_formed records = true
  /\ fst (main w)
     = Returns ("Token Address: 0xabc, Amount: 100" +:+ str1 "010"%char
                +:+ "Token Address: 0xdef, Amount: 7" +:+ str1 "010"%char).
Proof.
  cbv zeta.
  split; [reflexivity|]. split; [reflexivity|].
  apply (main_prints_balances
           (server 200 (token_balance_response
              [mkTokenBalance "100" "1.0" "ethereum" "0xabc" "";
               mkTokenBalance "7" "7" "ethereum" "0xdef" "42"]))
           [mkTokenBalance "100" "1.0" "ethereum" "0xabc" "";
            mkTokenBalance "7" "7" "ethereum" "0xdef" "42"]); reflexivity.
Defined.

(** X25: the demo program never panics and makes at most one request: a
    POST to the production endpoint with the placeholder key as its
    Authorization header. *)
Theorem main_one_request w :
  (exists out, fst (main w) = Returns out)
  /\ (requests (snd (main w)) = requests w
      \/ requests (snd (main w)) = requests w ++ [demo_request])
  /\ req_method demo_request = "POST"
  /\ req_url demo_request = "https://api.airstack.xyz/gql"
  /\ req_headers demo_request !! "Authorization" = Some "your_api_key_here".
Proof.
  split; [|split].
  - rewrite main_GetTokenBalances.
    unfold GetTokenBalances. cbv zeta.
    destruct (ExecuteQuery_result demo_client context_Background GetTokensHeldByWalletAddress
                demo_variables w) as [[q Hq]|[e He]];
      destruct (ExecuteQuery demo_client context_Background GetTokensHeldByWalletAddress
                  demo_variables w) as [[resp err] w']; cbn [fst] in *.
    + injection Hq as -> ->.
      destruct (Unmarshal_respData (Data q)) as [r [e|]]; cbn [fst]; eauto.
    + injection He as -> ->. cbn [fst]; eauto.
  - rewrite main_GetTokenBalances.
    assert (H : snd (GetTokenBalances demo_client context_Background demo_variables w)
                = snd (ExecuteQuery demo_client context_Background GetTokensHeldByWalletAddress
                         demo_variables w)).
    { unfold GetTokenBalances. cbv zeta.
      destruct (ExecuteQuery _ _ _ _ _) as [[resp err] w'].
      destruct err; [reflexivity|]. destruct resp as [q|]; [|reflexivity].
      destruct (Unmarshal_respData (Data q)) as [r [e|]]; reflexivity. }
    assert (H' : snd (let '(r, w') := GetTokenBalances demo_client context_Background demo_variables w in
                 match r with
                 | Panics msg => (Panics msg, w')
                 | Returns (_, Some err) => (Returns (Println "Error fetching token balances:" err), w')
                 | Returns (balances, None) =>
                   (Returns (fold_left
                      (fun out balance =>
                         out +:+ Printf_balance (TokenAddress balance) (Amount balance))
                      balances ""), w')
                 end)
            = snd (GetTokenBalances demo_client context_Background demo_variables w)).
    { destruct (GetTokenBalances _ _ _ _) as [[[l [e|]]|msg] w']; reflexivity. }
    rewrite H', H.
    rewrite (ExecuteQuery_exchange _ _ _ _ _ _ demo_body_marshalled). cbv zeta. cbn [snd].
    fold demo_request.
    destruct (answer w demo_request); cbn [after made requests]; auto.
  - split; [reflexivity|]. split; reflexivity.
Qed.

(** ** The bytes of a value read as that value *)

Ltac norm_app := repeat (rewrite app_assoc_s || rewrite app_cons || rewrite app_empty_l).

Ltac known_tests :=
  repeat match goal with
  | E : ?b = _ |- context [if ?b then _ else _] => rewrite E
  end.

Lemma same_head_spaces ws c a b : same_head (ws +:+ String c a) (ws +:+ String c b).
Proof. destruct ws as [|x ws]; [rewrite !app_empty_l | rewrite !app_cons]; reflexivity. Qed.

Lemma skip_space_split s :
  exists ws, s = ws +:+ skip_space s /\ forall y, skip_space (ws +:+ y) = skip_space y.
Proof.
  induction s as [|c s (ws & IH1 & IH2)].
  - exists "". split; reflexivity.
  - cbn [skip_space]. destruct (isSpace c) eqn:E.
    + exists (String c ws). split.
      * rewrite app_cons. congruence.
      * intros y. rewrite app_cons. cbn [skip_space]. rewrite E. apply IH2.
    + exists "". split; reflexivity.
Qed.

Lemma skip_space_head s c s0 :
  skip_space s = String c s0 -> forall y, skip_space (String c y) = String c y.
Proof.
  induction s as [|a s IH]; [discriminate|]. cbn [skip_space].
  destruct (isSpace a) eqn:E; [exact IH|].
  intros [= <- <-] y. cbn [skip_space]. rewrite E. reflexivity.
Qed.

Lemma app_head c x p r :
  String c x = p +:+ r -> (String.length r < S (String.length x))%nat ->
  exists p', p = String c p' /\ x = p' +:+ r.
Proof.
  destruct p as [|a p].
  - rewrite app_empty_l. intros <-. cbn [String.length]. lia.
  - rewrite app_cons. intros [= <- ->] _. eauto.
Qed.

Lemma scan_string_local s : forall st lit r,
  scan_string st s = Ok (lit, r) ->
  s = lit +:+ String dq r
  /\ forall t, scan_string st (lit +:+ String dq t) = Ok (lit, t).
Proof.
  induction s as [|c s IH]; intros st lit r H.
  - destruct st; discriminate.
  - cbn [scan_string] in H.
    destruct st;
      repeat match type of H with
      | (if ?b then _ else _) = _ => let E := fresh "E" in destruct b eqn:E
      | match ?x with Some _ => _ | None => _ end = _ =>
        let E := fresh "E" in destruct x eqn:E
      | Err _ = _ => discriminate
      | push _ _ = _ =>
        apply push_inv in H as (l & H & ->); apply IH in H as [-> Ht];
        split; [reflexivity|]; intros t; rewrite app_cons; cbn [scan_string];
        known_tests; rewrite Ht; reflexivity
      | Ok _ = Ok _ =>
        injection H as <- <-; apply Ascii.eqb_eq in E as ->;
        split; [reflexivity|]; intros t; rewrite app_empty_l; cbn [scan_string];
        rewrite Ascii.eqb_refl; reflexivity
      end.
Qed.

Lemma scan_number_local s : forall st lit r,
  scan_number st s = Ok (lit, r) ->
  s = lit +:+ r
  /\ forall t, same_head t r -> scan_number st (lit +:+ t) = Ok (lit, t).
Proof.
  induction s as [|c s IH]; intros st lit r H.
  - destruct st; try discriminate;
      (injection H as <- <-; split; [reflexivity|];
       intros [|a t] Ht; [reflexivity|destruct Ht]).
  - cbn [scan_number] in H.
    destruct st;
      repeat match type of H with
      | (if ?b then _ else _) = _ => let E := fresh "E" in destruct b eqn:E
      | Err _ = _ => discriminate
      | push _ _ = _ =>
        apply push_inv in H as (l & H & ->); apply IH in H as [-> Ht];
        split; [reflexivity|]; intros t Hh; rewrite app_cons; cbn [scan_number];
        known_tests; rewrite (Ht _ Hh); reflexivity
      | Ok _ = Ok _ =>
        injection H as <- <-; split; [reflexivity|];
        intros [|a t] Hh; [reflexivity|];
        cbn [same_head] in Hh; subst a; rewrite app_empty_l; cbn [scan_number];
        known_tests; reflexivity
      end.
Qed.

Lemma scan_word_local name expect : forall s r,
  scan_word name expect s = Ok r ->
  s = expect +:+ r /\ forall t, scan_word name expect (expect +:+ t) = Ok t.
Proof.
  induction expect as [|e expect IH]; intros s r H.
  - injection H as <-. split; reflexivity.
  - cbn [scan_word] in H. destruct s as [|c s]; [discriminate|].
    destruct (Ascii.eqb c e) eqn:E; [|discriminate].
    apply Ascii.eqb_eq in E as ->. apply IH in H as [-> Ht].
    split; [reflexivity|]. intros t. rewrite app_cons. cbn [scan_word].
    rewrite Ascii.eqb_refl. apply Ht.
Qed.

(** More fuel changes nothing. *)
Lemma parse_fuel_mono f :
  (forall d s f', (f <= f')%nat -> parse_value f d s ≠ OutOfFuel ->
     parse_value f' d s = parse_value f d s)
  /\ (forall d s f', (f <= f')%nat -> parse_elements f d s ≠ OutOfFuel ->
        parse_elements f' d s = parse_elements f d s)
  /\ (forall d s f', (f <= f')%nat -> parse_members f d s ≠ OutOfFuel ->
        parse_members f' d s = parse_members f d s).
Proof.
  induction f as [|f (IHv & IHe & IHm)];
    [repeat split; intros d s f' _ H; exfalso; apply H; reflexivity|].
  split; [|split]; intros d s [|f'] Hf H; try lia.
  - cbn [parse_value] in *.
    destruct (skip_space s) as [|c s0]; [reflexivity|].
    destruct (Ascii.eqb c "{").
    { destruct (maxNestingDepth <? d + 1); [reflexivity|].
      destruct (skip_space s0) as [|c1 s1]; [reflexivity|].
      destruct (Ascii.eqb c1 "}"); [reflexivity|].
      rewrite (IHm (d + 1) (String c1 s1) f'); [reflexivity|lia|].
      intros E. rewrite E in H. apply H. reflexivity. }
    destruct (Ascii.eqb c "[").
    { destruct (maxNestingDepth <? d + 1); [reflexivity|].
      destruct (skip_space s0) as [|c1 s1]; [reflexivity|].
      destruct (Ascii.eqb c1 "]"); [reflexivity|].
      rewrite (IHe (d + 1) (String c1 s1) f'); [reflexivity|lia|].
      intros E. rewrite E in H. apply H. reflexivity. }
    reflexivity.
  - cbn [parse_elements] in *.
    rewrite (IHv d s f'); [|lia|intros E; rewrite E in H; apply H; reflexivity].
    destruct (parse_value f d s) as [v r| |]; try reflexivity.
    destruct (skip_space r) as [|c r']; [reflexivity|].
    destruct (Ascii.eqb c ","); [|reflexivity].
    rewrite (IHe d r' f'); [reflexivity|lia|].
    intros E. rewrite E in H. apply H. reflexivity.
  - cbn [parse_members] in *.
    destruct (skip_space s) as [|c s0]; [reflexivity|].
    destruct (negb (Ascii.eqb c dq)); [reflexivity|].
    destruct (scan_string InString s0) as [[key r1]|e]; [|reflexivity].
    destruct (skip_space r1) as [|c2 r2]; [reflexivity|].
    destruct (negb (Ascii.eqb c2 ":")); [reflexivity|].
    rewrite (IHv d (skip_space r2) f'); [|lia|intros E; rewrite E in H; apply H; reflexivity].
    destruct (parse_value f d (skip_space r2)) as [v r3| |]; try reflexivity.
    destruct (skip_space r3) as [|c4 r4]; [reflexivity|].
    destruct (Ascii.eqb c4 ","); [|reflexivity].
    rewrite (IHm d r4 f'); [reflexivity|lia|].
    intros E. rewrite E in H. apply H. reflexivity.
Qed.

Lemma depth_le d d' : d' <= d -> (maxNestingDepth <? d + 1) = false ->
  (maxNestingDepth <? d' + 1) = false.
Proof. intros H E. apply N.ltb_ge in E. apply N.ltb_ge. lia. Qed.

(** A value is read from its own bytes alone, whatever follows them and
    however many arrays and objects are open around it. *)
Lemma parse_local f :
  (forall d s v r, parse_value f d s = Parsed v r ->
     exists p, s = p +:+ r
       /\ forall d' t, d' <= d -> same_head t r -> parse_value f d' (p +:+ t) = Parsed v t)
  /\ (forall d s vs r, parse_elements f d s = Parsed vs r ->
        exists p, s = p +:+ r
          /\ forall d' t, d' <= d -> parse_elements f d' (p +:+ t) = Parsed vs t)
  /\ (forall d s ms r, parse_members f d s = Parsed ms r ->
        exists p, s = p +:+ r
          /\ forall d' t, d' <= d -> parse_members f d' (p +:+ t) = Parsed ms t).
Proof.
  induction f as [|f (IHv & IHe & IHm)]; [repeat split; intros; discriminate|].
  split; [|split].
  - intros d s v r. cbn [parse_value].
    destruct (skip_space_split s) as (ws & Hs & Hws).
    destruct (skip_space s) as [|c s0] eqn:Es; [discriminate|].
    pose proof (skip_space_head _ _ _ Es) as Hc.
    destruct (Ascii.eqb c "{") eqn:E1.
    { destruct (maxNestingDepth <? d + 1) eqn:Ed; [discriminate|].
      destruct (skip_space_split s0) as (ws1 & Hs0 & Hws1).
      destruct (skip_space s0) as [|c1 s1] eqn:Es0; [discriminate|].
      pose proof (skip_space_head _ _ _ Es0) as Hc1.
      destruct (Ascii.eqb c1 "}") eqn:E2.
      { intros [= <- <-]. exists (ws +:+ String c (ws1 +:+ String c1 "")). split.
        - norm_app. congruence.
        - intros d' t Hd _. norm_app. cbn [parse_value].
          rewrite Hws, Hc, E1, (depth_le _ _ Hd Ed), Hws1, Hc1, E2. reflexivity. }
      pose proof (proj2 (proj2 (parse_shorter f)) (d + 1) (String c1 s1)) as Hsh.
      destruct (parse_members f (d + 1) (String c1 s1)) as [ms rest| |] eqn:E; try discriminate.
      intros [= <- <-]. apply IHm in E as (pm & Hpm & Hm). cbn [shorter] in Hsh.
      apply app_head in Hpm as (pm' & -> & Hs1); [|exact Hsh].
      exists (ws +:+ String c (ws1 +:+ String c1 pm')). split.
      - norm_app. congruence.
      - intros d' t Hd _. norm_app. cbn [parse_value].
        rewrite Hws, Hc, E1, (depth_le _ _ Hd Ed), Hws1, Hc1, E2.
        rewrite <- app_cons. rewrite Hm by lia. reflexivity. }
    destruct (Ascii.eqb c "[") eqn:E2.
    { destruct (maxNestingDepth <? d + 1) eqn:Ed; [discriminate|].
      destruct (skip_space_split s0) as (ws1 & Hs0 & Hws1).
      destruct (skip_space s0) as [|c1 s1] eqn:Es0; [discriminate|].
      pose proof (skip_space_head _ _ _ Es0) as Hc1.
      destruct (Ascii.eqb c1 "]") eqn:E3.
      { intros [= <- <-]. exists (ws +:+ String c (ws1 +:+ String c1 "")). split.
        - norm_app. congruence.
        - intros d' t Hd _. norm_app. cbn [parse_value].
          rewrite Hws, Hc, E1, E2, (depth_le _ _ Hd Ed), Hws1, Hc1, E3. reflexivity. }
      pose proof (proj1 (proj2 (parse_shorter f)) (d + 1) (String c1 s1)) as Hsh.
      destruct (parse_elements f (d + 1) (String c1 s1)) as [vs rest| |] eqn:E; try discriminate.
      intros [= <- <-]. apply IHe in E as (pe & Hpe & He). cbn [shorter] in Hsh.
      apply app_head in Hpe as (pe' & -> & Hs1); [|exact Hsh].
      exists (ws +:+ String c (ws1 +:+ String c1 pe')). split.
      - norm_app. congruence.
      - intros d' t Hd _. norm_app. cbn [parse_value].
        rewrite Hws, Hc, E1, E2, (depth_le _ _ Hd Ed), Hws1, Hc1, E3.
        rewrite <- app_cons. rewrite He by lia. reflexivity. }
    destruct (Ascii.eqb c dq) eqn:E3.
    { intros H. apply literal_inv in H as (lit & H & ->).
      apply scan_string_local in H as [-> Ht].
      exists (ws +:+ String c (lit +:+ String dq "")). split.
      - norm_app. congruence.
      - intros d' t _ _. norm_app. cbn [parse_value].
        rewrite Hws, Hc, E1, E2, E3, Ht. reflexivity. }
    destruct (Ascii.eqb c "-") eqn:E4.
    { intros H. apply literal_inv in H as (lit & H & ->).
      apply scan_number_local in H as [-> Ht].
      exists (ws +:+ String c lit). split.
      - norm_app. congruence.
      - intros d' t _ Hh. norm_app. cbn [parse_value].
        rewrite Hws, Hc, E1, E2, E3, E4, (Ht _ Hh). reflexivity. }
    destruct (Ascii.eqb c "0") eqn:E5.
    { intros H. apply literal_inv in H as (lit & H & ->).
      apply scan_number_local in H as [-> Ht].
      exists (ws +:+ String c lit). split.
      - norm_app. congruence.
      - intros d' t _ Hh. norm_app. cbn [parse_value].
        rewrite Hws, Hc, E1, E2, E3, E4, E5, (Ht _ Hh). reflexivity. }
    destruct (between 49 57 c) eqn:E6.
    { intros H. apply literal_inv in H as (lit & H & ->).
      apply scan_number_local in H as [-> Ht].
      exists (ws +:+ String c lit). split.
      - norm_app. congruence.
      - intros d' t _ Hh. norm_app. cbn [parse_value].
        rewrite Hws, Hc, E1, E2, E3, E4, E5, E6, (Ht _ Hh). reflexivity. }
    destruct (Ascii.eqb c "t") eqn:E7.
    { intros H. apply keyword_inv in H as (H & ->).
      apply scan_word_local in H as [-> Ht].
      exists (ws +:+ String c "rue"). split.
      - rewrite Hs. norm_app. reflexivity.
      - intros d' t _ _. norm_app. cbn [parse_value].
        rewrite Hws, Hc, E1, E2, E3, E4, E5, E6, E7.
        change (String "r" (String "u" (String "e" t))) with ("rue" +:+ t).
        rewrite Ht. reflexivity. }
    destruct (Ascii.eqb c "f") eqn:E8.
    { intros H. apply keyword_inv in H as (H & ->).
      apply scan_word_local in H as [-> Ht].
      exists (ws +:+ String c "alse"). split.
      - rewrite Hs. norm_app. reflexivity.
      - intros d' t _ _. norm_app. cbn [parse_value].
        rewrite Hws, Hc, E1, E2, E3, E4, E5, E6, E7, E8.
        change (String "a" (String "l" (String "s" (String "e" t)))) with ("alse" +:+ t).
        rewrite Ht. reflexivity. }
    destruct (Ascii.eqb c "n") eqn:E9; [|discriminate].
    intros H. apply keyword_inv in H as (H & ->).
    apply scan_word_local in H as [-> Ht].
    exists (ws +:+ String c "ull"). split.
    + rewrite Hs. norm_app. reflexivity.
    + intros d' t _ _. norm_app. cbn [parse_value].
      rewrite Hws, Hc, E1, E2, E3, E4, E5, E6, E7, E8, E9.
      change (String "u" (String "l" (String "l" t))) with ("ull" +:+ t).
      rewrite Ht. reflexivity.
  - intros d s vs r. cbn [parse_elements].
    destruct (parse_value f d s) as [v r0| |] eqn:E; try discriminate.
    apply IHv in E as (pv & -> & Hv).
    destruct (skip_space_split r0) as (ws & Hr0 & Hws).
    destruct (skip_space r0) as [|c r'] eqn:Er0; [discriminate|].
    pose proof (skip_space_head _ _ _ Er0) as Hc.
    destruct (Ascii.eqb c ",") eqn:E1.
    { destruct (parse_elements f d r') as [vs' rest| |] eqn:E'; try discriminate.
      intros [= <- <-]. apply IHe in E' as (pe & -> & He).
      exists (pv +:+ ws +:+ String c pe). split.
      - norm_app. congruence.
      - intros d' t Hd. norm_app.
        rewrite (Hv d' (ws +:+ String c (pe +:+ t)) Hd)
          by (rewrite Hr0; apply same_head_spaces).
        rewrite Hws, Hc, E1, (He _ _ Hd). reflexivity. }
    destruct (Ascii.eqb c "]") eqn:E2; [|discriminate]. intros [= <- <-].
    exists (pv +:+ ws +:+ String c ""). split.
    + norm_app. congruence.
    + intros d' t Hd. norm_app.
      rewrite (Hv d' (ws +:+ String c t) Hd) by (rewrite Hr0; apply same_head_spaces).
      rewrite Hws, Hc, E1, E2. reflexivity.
  - intros d s ms r. cbn [parse_members].
    destruct (skip_space_split s) as (ws & Hs & Hws).
    destruct (skip_space s) as [|c s0] eqn:Es; [discriminate|].
    pose proof (skip_space_head _ _ _ Es) as Hc.
    destruct (negb (Ascii.eqb c dq)) eqn:E1; [discriminate|].
    destruct (scan_string InString s0) as [[key r1]|e] eqn:E; [|discriminate].
    apply scan_string_local in E as [-> Hkey].
    destruct (skip_space_split r1) as (ws1 & Hr1 & Hws1).
    destruct (skip_space r1) as [|c2 r2] eqn:Er1; [discriminate|].
    pose proof (skip_space_head _ _ _ Er1) as Hc2.
    destruct (negb (Ascii.eqb c2 ":")) eqn:E2; [discriminate|].
    destruct (skip_space_split r2) as (ws2 & Hr2 & Hws2).
    pose proof (proj1 (parse_shorter f) d (skip_space r2)) as Hsh.
    destruct (parse_value f d (skip_space r2)) as [v r3| |] eqn:Ev; try discriminate.
    cbn [shorter] in Hsh.
    apply IHv in Ev as (pv & Hstart & Hv).
    assert (Hpv : forall y, skip_space (pv +:+ y) = pv +:+ y).
    { destruct (skip_space r2) as [|a start] eqn:Ea.
      - cbn [String.length] in Hsh. lia.
      - apply app_head in Hstart as (pv' & -> & _); [|exact Hsh].
        intros y. rewrite app_cons. exact (skip_space_head _ _ _ Ea _). }
    rewrite Hstart, consumed_app.
    destruct (skip_space_split r3) as (ws3 & Hr3 & Hws3).
    destruct (skip_space r3) as [|c4 r4] eqn:Er3; [discriminate|].
    pose proof (skip_space_head _ _ _ Er3) as Hc4.
    destruct (Ascii.eqb c4 ",") eqn:E3.
    { destruct (parse_members f d r4) as [ms' rest| |] eqn:Em; try discriminate.
      intros [= <- <-]. apply IHm in Em as (pm & -> & Hm).
      exists (ws +:+ String c (key +:+ String dq (ws1 +:+ String c2
                (ws2 +:+ pv +:+ ws3 +:+ String c4 pm)))). split.
      - norm_app. congruence.
      - intros d' t Hd. norm_app. cbn [parse_members].
        rewrite Hws, Hc, E1, Hkey, Hws1, Hc2, E2, Hws2, Hpv.
        rewrite (Hv d' (ws3 +:+ String c4 (pm +:+ t)) Hd)
          by (rewrite Hr3; apply same_head_spaces).
        rewrite consumed_app, Hws3, Hc4, E3, (Hm _ _ Hd). reflexivity. }
    destruct (Ascii.eqb c4 "}") eqn:E4; [|discriminate]. intros [= <- <-].
    exists (ws +:+ String c (key +:+ String dq (ws1 +:+ String c2
              (ws2 +:+ pv +:+ ws3 +:+ String c4 "")))). split.
    + norm_app. congruence.
    + intros d' t Hd. norm_app. cbn [parse_members].
      rewrite Hws, Hc, E1, Hkey, Hws1, Hc2, E2, Hws2, Hpv.
      rewrite (Hv d' (ws3 +:+ String c4 t) Hd) by (rewrite Hr3; apply same_head_spaces).
      rewrite consumed_app, Hws3, Hc4, E3, E4. reflexivity.
Qed.

Lemma parse_value_alone f d s v r :
  parse_value f d s = Parsed v r -> json_parse (consumed s r) = Ok v.
Proof.
  intros H. pose proof H as H0.
  apply (proj1 (parse_local f)) in H as (p & -> & Hp).
  rewrite consumed_app.
  specialize (Hp 0 "" (N.le_0_l d) I). rewrite app_empty_r in Hp.
  unfold json_parse.
  pose proof (json_parse_fuel p) as Hfuel.
  set (g := (2 * String.length p + 1)%nat) in *.
  assert (E : parse_value g 0 p = Parsed v "").
  { rewrite <- (proj1 (parse_fuel_mono g) 0 p (Nat.max f g)) by (lia || exact Hfuel).
    rewrite (proj1 (parse_fuel_mono f) 0 p (Nat.max f g)); [exact Hp|lia|].
    rewrite Hp. discriminate. }
  rewrite E. reflexivity.
Qed.

Lemma parse_members_read f : forall d s ms r,
  parse_members f d s = Parsed ms r -> Forall reads ms.
Proof.
  induction f as [|f IH]; intros d s ms r; [discriminate|].
  cbn [parse_members].
  destruct (skip_space s) as [|c s0]; [discriminate|].
  destruct (negb (Ascii.eqb c dq)); [discriminate|].
  destruct (scan_string InString s0) as [[key r1]|e]; [|discriminate].
  destruct (skip_space r1) as [|c2 r2]; [discriminate|].
  destruct (negb (Ascii.eqb c2 ":")); [discriminate|].
  destruct (parse_value f d (skip_space r2)) as [v r3| |] eqn:Ev; try discriminate.
  apply parse_value_alone in Ev.
  destruct (skip_space r3) as [|c4 r4]; [discriminate|].
  destruct (Ascii.eqb c4 ",").
  { destruct (parse_members f d r4) as [ms' rest| |] eqn:Em; try discriminate.
    intros [= <- <-]. constructor; [exact Ev|]. exact (IH _ _ _ _ Em). }
  destruct (Ascii.eqb c4 "}"); [|discriminate].
  intros [= <- <-]. constructor; [exact Ev|constructor].
Qed.

Lemma parse_value_members f d s ms r :
  parse_value f d s = Parsed (JObject ms) r -> Forall reads ms.
Proof.
  destruct f as [|f]; [discriminate|]. cbn [parse_value].
  destruct (skip_space s) as [|c s0]; [discriminate|].
  destruct (Ascii.eqb c "{").
  { destruct (maxNestingDepth <? d + 1); [discriminate|].
    destruct (skip_space s0) as [|c1 s1]; [discriminate|].
    destruct (Ascii.eqb c1 "}"); [intros [= <- _]; constructor|].
    destruct (parse_members f (d + 1) (String c1 s1)) as [ms' rest| |] eqn:E; try discriminate.
    intros [= <- _]. exact (parse_members_read _ _ _ _ _ E). }
  destruct (Ascii.eqb c "[").
  { destruct (maxNestingDepth <? d + 1); [discriminate|].
    destruct (skip_space s0) as [|c1 s1]; [discriminate|].
    destruct (Ascii.eqb c1 "]"); [discriminate|].
    destruct (parse_elements f (d + 1) (String c1 s1)); discriminate. }
  repeat match goal with
  | |- (if ?b then _ else _) = _ -> _ => destruct b
  | |- literal _ _ = _ -> _ =>
    let H := fresh in intros H; apply literal_inv in H as (lit & _ & H); discriminate
  | |- keyword _ _ = _ -> _ =>
    let H := fresh in intros H; apply keyword_inv in H as (_ & H); discriminate
  end. discriminate.
Qed.

(** The bytes of every member of a decoded mapping read as the member's
    value. *)
Lemma json_parse_members data members :
  json_parse data = Ok (JObject members) -> Forall reads members.
Proof.
  unfold json_parse.
  destruct (parse_value (2 * String.length data + 1) 0 data) as [v rest| |] eqn:E;
    try discriminate.
  destruct (skip_space rest); [|discriminate]. intros [= ->].
  exact (parse_value_members _ _ _ _ _ E).
Qed.

Lemma field_member_In key ms raw v :
  field_member key ms = Some (raw, v) -> In (key, raw, v) ms.
Proof.
  unfold field_member.
  assert (G : forall found,
    fold_left (fun found '(k, raw, v) => if bool_decide (k = key) then Some (raw, v) else found)
      ms found = Some (raw, v) ->
    found = Some (raw, v) \/ In (key, raw, v) ms).
  { induction ms as [|[[k r] x] ms IH]; intros found H; [left; exact H|].
    cbn [fold_left] in H. apply IH in H as [H|H]; [|right; right; exact H].
    destruct (bool_decide (k = key)) eqn:E; [|left; exact H].
    apply bool_decide_eq_true in E. injection H as -> ->. subst k. right. left. reflexivity. }
  intros H. apply G in H as [H|H]; [discriminate|exact H].
Qed.

Lemma field_raw_member key ms : field_raw key ms = fst <$> field_member key ms.
Proof.
  unfold field_raw, field_member.
  change (@None string) with (fst <$> @None (string * json)).
  generalize (@None (string * json)).
  induction ms as [|[[k r] x] ms IH]; intros found; [reflexivity|].
  cbn [fold_left]. destruct (bool_decide (k = key)).
  - exact (IH (Some (r, x))).
  - exact (IH found).
Qed.

Lemma field_value_reads data members key v :
  json_parse data = Ok (JObject members) ->
  field_value key members = Some v ->
  exists raw, field_raw key members = Some raw /\ json_parse raw = Ok v.
Proof.
  intros Hp Hv. unfold field_value in Hv. rewrite field_raw_member.
  destruct (field_member key members) as [[raw x]|] eqn:E; [|discriminate].
  injection Hv as ->. exists raw. split; [reflexivity|].
  apply field_member_In in E. apply json_parse_members in Hp.
  rewrite Forall_forall in Hp. apply list_elem_of_In in E. exact (Hp _ E).
Qed.

Lemma field_value_None key members :
  field_value key members = None -> field_raw key members = None.
Proof.
  unfold field_value. rewrite field_raw_member.
  destruct (field_member key members); [discriminate|reflexivity].
Qed.

Lemma Unmarshal_respData_value data v :
  json_parse data = Ok v -> Unmarshal_respData data = decode_respData v.
Proof. intros H. unfold Unmarshal_respData. rewrite H. destruct v; reflexivity. Qed.

(** ** Storing a decoded value *)

Lemma find_field_one name key :
  find_field (fun _ : unit => name) [()] key
  = if same_name name key then Some () else None.
Proof.
  unfold find_field, same_name. cbn [List.find].
  destruct (bool_decide (name = key)) eqn:E.
  - apply bool_decide_eq_true in E as ->.
    rewrite bool_decide_eq_true_2 by reflexivity. reflexivity.
  - destruct (bool_decide (foldName name = foldName key)); reflexivity.
Qed.

Lemma json_name_fold_inj f g :
  foldName (json_name g) = foldName (json_name f) -> g = f.
Proof. destruct f, g; intros H; try reflexivity; vm_compute in H; discriminate. Qed.

Lemma find_field_selects key raw v f :
  find_field json_name TokenBalance_fields key = Some f <-> selects f (key, raw, v) = true.
Proof.
  unfold selects, find_field. cbn [fst]. rewrite bool_decide_eq_true. split.
  - destruct (List.find (fun f => bool_decide (json_name f = key)) TokenBalance_fields)
      as [g|] eqn:E1.
    + intros [= ->]. apply find_some in E1 as [_ E1].
      apply bool_decide_eq_true in E1. congruence.
    + intros E2. apply find_some in E2 as [_ E2].
      apply bool_decide_eq_true in E2. congruence.
  - intros H.
    destruct (List.find (fun f => bool_decide (json_name f = key)) TokenBalance_fields)
      as [g|] eqn:E1.
    + apply find_some in E1 as [_ E1]. apply bool_decide_eq_true in E1.
      f_equal. apply json_name_fold_inj. congruence.
    + destruct (List.find (fun f => bool_decide (foldName (json_name f) = foldName key))
                  TokenBalance_fields) as [g|] eqn:E2.
      * apply find_some in E2 as [_ E2]. apply bool_decide_eq_true in E2.
        f_equal. apply json_name_fold_inj. congruence.
      * exfalso. pose proof (find_none _ _ E2 f) as Hn. cbv beta in Hn.
        rewrite bool_decide_eq_true_2 in Hn by congruence.
        assert (In f TokenBalance_fields) by (destruct f; cbn; tauto).
        specialize (Hn H0). discriminate.
Qed.

Lemma find_field_none key raw v :
  find_field json_name TokenBalance_fields key = None
  <-> existsb (fun f => selects f (key, raw, v)) TokenBalance_fields = false.
Proof.
  split.
  - intros H. destruct (existsb _ _) eqn:E; [|reflexivity].
    apply existsb_exists in E as (f & _ & E).
    apply find_field_selects in E. congruence.
  - intros H. destruct (find_field json_name TokenBalance_fields key) as [f|] eqn:E;
      [|reflexivity].
    apply (find_field_selects key raw v) in E.
    assert (Hex : existsb (fun f => selects f (key, raw, v)) TokenBalance_fields = true).
    { apply existsb_exists. exists f. split; [destruct f; cbn; tauto|exact E]. }
    congruence.
Qed.

Lemma get_set_same f s t : get_field f (set_field f s t) = s.
Proof. destruct f; reflexivity. Qed.

Lemma get_set_other f g s t : g ≠ f -> get_field f (set_field g s t) = get_field f t.
Proof. destruct f, g; intros H; try reflexivity; contradiction. Qed.

Lemma decode_member_other f m st :
  selects f m = false ->
  get_field f (fst (decode_TokenBalance_member st m)) = get_field f (fst st).
Proof.
  destruct st as [t saved], m as [[k raw] v]. intros H.
  unfold decode_TokenBalance_member.
  destruct (find_field json_name TokenBalance_fields k) as [g|] eqn:E; [|reflexivity].
  apply (find_field_selects k raw v) in E.
  destruct (decode_string _ _ v (get_field g t)) as [s e]. cbn [fst].
  apply get_set_other. intros ->. congruence.
Qed.

Lemma decode_members_other f ms : forall st,
  Forall (fun m => selects f m = false) ms ->
  get_field f (fst (fold_left decode_TokenBalance_member ms st)) = get_field f (fst st).
Proof.
  induction ms as [|m ms IH]; intros st H; [reflexivity|].
  inversion H as [|? ? Hm Hms]; subst. cbn [fold_left].
  rewrite IH by exact Hms. apply decode_member_other. exact Hm.
Qed.

(** X20: where the last member of the JSON object whose key is a field's
    JSON name, up to the case of letters, holds a string, the field of the
    decoded TokenBalance is that string, whatever the other members
    are. *)
Theorem TokenBalance_field_last_wins f ms1 k raw s ms2 :
  selects f (k, raw, JString s) = true ->
  Forall (fun m => selects f m = false) ms2 ->
  get_field f (record_of (JObject (ms1 ++ (k, raw, JString s) :: ms2))) = s.
Proof.
  intros Hsel Hrest. unfold record_of. cbn [decode_TokenBalance].
  rewrite fold_left_app. cbn [fold_left].
  rewrite decode_members_other by exact Hrest.
  destruct (fold_left decode_TokenBalance_member ms1 (zero_TokenBalance, None)) as [t saved].
  unfold decode_TokenBalance_member.
  apply find_field_selects in Hsel. rewrite Hsel. cbn [decode_string fst].
  apply get_set_same.
Qed.

Lemma TokenBalance_field_last_wins_witness :
  let ms1 := [("amount", js "'1'", JString "1"); ("extra", "true", JBool true)] in
  let ms2 := [("tokenId", "7", JNumber "7")] in
  selects F_Amount ("AMOUNT", js "'2'", JString "2") = true
  /\ Forall (fun m => selects F_Amount m = false) ms2
  /\ get_field F_Amount
       (record_of (JObject (ms1 ++ ("AMOUNT", js "'2'", JString "2") :: ms2))) = "2".
Proof.
  cbv zeta.
  assert (H1 : selects F_Amount ("AMOUNT", js "'2'", JString "2") = true) by reflexivity.
  assert (H2 : Forall (fun m => selects F_Amount m = false) [("tokenId", "7", JNumber "7")])
    by (constructor; [reflexivity|constructor]).
  split; [exact H1|]. split; [exact H2|].
  exact (TokenBalance_field_last_wins F_Amount _ _ _ _ _ H1 H2).
Defined.

(** X21: a field of a TokenBalance whose JSON name, up to the case of
    letters, is the key of no member of the JSON object is left empty. *)
Theorem TokenBalance_field_missing f ms :
  Forall (fun m => selects f m = false) ms ->
  get_field f (record_of (JObject ms)) = "".
Proof.
  intros H. unfold record_of. cbn [decode_TokenBalance].
  rewrite decode_members_other by exact H. destruct f; reflexivity.
Qed.

Lemma TokenBalance_field_missing_witness :
  let ms := [("amount", js "'1'", JString "1"); ("token_id", js "'7'", JString "7")] in
  Forall (fun m => selects F_TokenId m = false) ms
  /\ get_field F_TokenId (record_of (JObject ms)) = "".
Proof.
  cbv zeta.
  assert (H : Forall (fun m => selects F_TokenId m = false)
                [("amount", js "'1'", JString "1"); ("token_id", js "'7'", JString "7")])
    by (repeat constructor).
  split; [exact H|].
  exact (TokenBalance_field_missing F_TokenId _ H).
Defined.

Lemma decode_members_error ms : forall t saved,
  snd (fold_left decode_TokenBalance_member ms (t, saved)) = None
  <-> saved = None
      /\ forallb (fun m => implb (existsb (fun f => selects f m) TokenBalance_fields)
                             (string_or_null (snd m))) ms = true.
Proof.
  induction ms as [|[[k raw] v] ms IH]; intros t saved.
  - cbn. tauto.
  - cbn [fold_left forallb]. unfold decode_TokenBalance_member at 2.
    destruct (find_field json_name TokenBalance_fields k) as [g|] eqn:E.
    + assert (Hex : existsb (fun f => selects f (k, raw, v)) TokenBalance_fields = true).
      { apply existsb_exists. exists g. split; [destruct g; cbn; tauto|].
        apply find_field_selects. exact E. }
      rewrite Hex. cbn [implb snd].
      destruct (decode_string "TokenBalance" ("TokenBalances.TokenBalance." +:+ json_name g)
                  v (get_field g t)) as [s e] eqn:Ed.
      rewrite IH. rewrite andb_true_iff.
      assert (He : e = None <-> string_or_null v = true).
      { destruct v; cbn in Ed; injection Ed as _ <-; cbn; split; congruence. }
      destruct saved; cbn [save]; [intuition congruence|]. tauto.
    + apply (find_field_none k raw v) in E. rewrite E. cbn [implb andb]. apply IH.
Qed.

Lemma TokenBalance_fit v :
  snd (decode_TokenBalance v zero_TokenBalance) = None <-> record_fits v = true.
Proof.
  destruct v; cbn [decode_TokenBalance record_fits snd]; try (split; congruence).
  rewrite decode_members_error. tauto.
Qed.

(** X22: decoding a JSON value into a TokenBalance fails exactly when the
    value is neither an object nor null, or some member whose key names a
    field holds something other than a string or null. *)
Theorem TokenBalance_fits v old :
  snd (decode_TokenBalance v old) = None <-> record_fits v = true.
Proof.
  destruct v; cbn [decode_TokenBalance record_fits snd]; try (split; congruence).
  rewrite decode_members_error. tauto.
Qed.

(** *** Only values of the wrong kind are refused *)

Lemma type_errors_None : type_errors None.
Proof. intros e H. discriminate. Qed.

Lemma type_errors_save a b : type_errors a -> type_errors b -> type_errors (save a b).
Proof. destruct a; intros Ha Hb; [exact Ha|exact Hb]. Qed.

Lemma type_errors_fold {S : Type} (step : S * option error -> string * string * json -> S * option error) :
  (forall st m, type_errors (snd st) -> type_errors (snd (step st m))) ->
  forall ms st, type_errors (snd st) -> type_errors (snd (fold_left step ms st)).
Proof.
  intros Hstep ms. induction ms as [|m ms IH]; intros st H; [exact H|].
  cbn [fold_left]. apply IH, Hstep, H.
Qed.

Lemma type_errors_decode_string struct_ field v old :
  type_errors (snd (decode_string struct_ field v old)).
Proof. destruct v; cbn; intros e [= <-]; exact I. Qed.

Lemma type_errors_TokenBalance v old : type_errors (snd (decode_TokenBalance v old)).
Proof.
  destruct v; cbn [decode_TokenBalance snd]; try (intros e [= <-]; exact I).
  apply type_errors_fold; [|apply type_errors_None].
  intros [t saved] [[k raw] x] H. unfold decode_TokenBalance_member.
  destruct (find_field json_name TokenBalance_fields k) as [g|]; [|exact H].
  pose proof (type_errors_decode_string "TokenBalance"
                ("TokenBalances.TokenBalance." +:+ json_name g) x (get_field g t)) as Hd.
  destruct (decode_string _ _ x (get_field g t)) as [s e]. cbn [snd] in *.
  apply type_errors_save; assumption.
Qed.

Lemma type_errors_elements elems : forall slots,
  type_errors (snd (decode_elements elems slots)).
Proof.
  induction elems as [|v elems IH]; intros slots; [apply type_errors_None|].
  cbn [decode_elements].
  pose proof (type_errors_TokenBalance v (hd zero_TokenBalance slots)) as Hv.
  destruct (decode_TokenBalance v (hd zero_TokenBalance slots)) as [t e].
  specialize (IH (tl slots)). destruct (decode_elements elems (tl slots)) as [ts e'].
  cbn [snd] in *. apply type_errors_save; assumption.
Qed.

Lemma type_errors_slice v old : type_errors (snd (decode_slice v old)).
Proof.
  destruct v as [| | | |elems|]; cbn [decode_slice snd]; try (intros e [= <-]; exact I).
  destruct elems as [|x elems]; [apply type_errors_None|].
  pose proof (type_errors_elements (x :: elems) (backing old)) as H.
  destruct (decode_elements (x :: elems) (backing old)) as [slots e]. exact H.
Qed.

Lemma type_errors_inner v old : type_errors (snd (decode_inner v old)).
Proof.
  destruct v; cbn [decode_inner snd]; try (intros e [= <-]; exact I).
  apply type_errors_fold; [|apply type_errors_None].
  intros [r saved] [[k raw] x] H. unfold decode_inner_member.
  destruct (find_field _ _ k); [|exact H].
  pose proof (type_errors_slice x (TokenBalance_ r)) as Hd.
  destruct (decode_slice x (TokenBalance_ r)) as [s e]. cbn [snd] in *.
  apply type_errors_save; assumption.
Qed.

Lemma type_errors_respData v : type_errors (snd (decode_respData v)).
Proof.
  destruct v; cbn [decode_respData snd]; try (intros e [= <-]; exact I).
  apply type_errors_fold; [|apply type_errors_None].
  intros [r saved] [[k raw] x] H. unfold decode_outer_member.
  destruct (find_field _ _ k); [|exact H].
  pose proof (type_errors_inner x (TokenBalances r)) as Hd.
  destruct (decode_inner x (TokenBalances r)) as [s e]. cbn [snd] in *.
  apply type_errors_save; assumption.
Qed.

Lemma type_errors_balances v : type_errors (snd (balances_of v)).
Proof.
  unfold balances_of. pose proof (type_errors_respData v) as H.
  destruct (decode_respData v) as [r [e|]]; [exact H|apply type_errors_None].
Qed.

(** *** Members that are not looked at *)

Lemma decode_outer_skip ms : forall st,
  Forall (fun m => same_name "TokenBalances" (fst (fst m)) = false) ms ->
  fold_left decode_outer_member ms st = st.
Proof.
  induction ms as [|[[k raw] x] ms IH]; intros st H; [reflexivity|].
  inversion H as [|? ? Hm Hms]; subst. cbn [fold_left fst] in *.
  rewrite <- (IH st Hms) at 2. f_equal.
  destruct st as [r saved]. unfold decode_outer_member.
  rewrite find_field_one, Hm. reflexivity.
Qed.

Lemma decode_inner_skip ms : forall st,
  Forall (fun m => same_name "TokenBalance" (fst (fst m)) = false) ms ->
  fold_left decode_inner_member ms st = st.
Proof.
  induction ms as [|[[k raw] x] ms IH]; intros st H; [reflexivity|].
  inversion H as [|? ? Hm Hms]; subst. cbn [fold_left fst] in *.
  rewrite <- (IH st Hms) at 2. f_equal.
  destruct st as [r saved]. unfold decode_inner_member.
  rewrite find_field_one, Hm. reflexivity.
Qed.

Lemma decode_respData_only x ms :
  only "TokenBalances" x ms ->
  decode_respData (JObject ms)
  = let '(i, e) := decode_inner x (TokenBalances zero_respData) in (mkOuter i, e).
Proof.
  intros (before & k & raw & after & -> & Hk & Hrest).
  apply Forall_app in Hrest as [Hb Ha].
  cbn [decode_respData]. rewrite fold_left_app. cbn [fold_left].
  rewrite (decode_outer_skip before) by exact Hb.
  rewrite decode_outer_skip by exact Ha.
  unfold decode_outer_member. rewrite find_field_one, Hk.
  destruct (decode_inner x (TokenBalances zero_respData)) as [i e]. reflexivity.
Qed.

Lemma decode_inner_only x ms old :
  only "TokenBalance" x ms ->
  decode_inner (JObject ms) old
  = let '(s, e) := decode_slice x (TokenBalance_ old) in (mkInner s, e).
Proof.
  intros (before & k & raw & after & -> & Hk & Hrest).
  apply Forall_app in Hrest as [Hb Ha].
  cbn [decode_inner]. rewrite fold_left_app. cbn [fold_left].
  rewrite (decode_inner_skip before) by exact Hb.
  rewrite decode_inner_skip by exact Ha.
  unfold decode_inner_member. rewrite find_field_one, Hk.
  destruct (decode_slice x (TokenBalance_ old)) as [i e]. reflexivity.
Qed.

Lemma decode_elements_fresh elems :
  fst (decode_elements elems []) = List.map record_of elems
  /\ (snd (decode_elements elems []) = None <-> forallb record_fits elems = true).
Proof.
  induction elems as [|v elems [IH1 IH2]]; [split; [reflexivity|cbn; tauto]|].
  cbn [decode_elements hd tl List.map forallb].
  pose proof (TokenBalance_fit v) as Hv.
  unfold record_of at 1.
  destruct (decode_TokenBalance v zero_TokenBalance) as [t e].
  destruct (decode_elements elems []) as [ts e']. cbn [fst snd] in *.
  split; [congruence|].
  rewrite andb_true_iff, <- Hv, <- IH2. destruct e; cbn [save]; intuition congruence.
Qed.

Lemma balances_of_records dms ims elems :
  only "TokenBalances" (JObject ims) dms ->
  only "TokenBalance" (JArray elems) ims ->
  balances_of (JObject dms)
  = if forallb record_fits elems then (List.map record_of elems, None)
    else ([], snd (decode_elements elems [])).
Proof.
  intros H1 H2. unfold balances_of.
  rewrite (decode_respData_only _ _ H1), (decode_inner_only _ _ _ H2).
  cbn [TokenBalances zero_respData TokenBalance_ decode_slice].
  destruct elems as [|x elems]; [reflexivity|].
  cbn [backing nil_slice].
  destruct (decode_elements_fresh (x :: elems)) as [Hf Hs].
  destruct (decode_elements (x :: elems) []) as [slots e]. cbn [fst snd] in *.
  destruct (forallb record_fits (x :: elems)).
  - rewrite (proj2 Hs eq_refl). cbn [TokenBalances TokenBalance_ elements len backing].
    subst slots. unfold elements. cbn [len backing].
    rewrite <- (length_map record_of (x :: elems)), firstn_all. reflexivity.
  - destruct e as [e|]; [reflexivity|]. destruct Hs as [Hs _]. discriminate (Hs eq_refl).
Qed.

(** ** GetTokenBalances on an HTTP 200 response *)

Section Response.

Variables (client : AirstackClient) (ctx : Context) (variables : Value) (w : World).
Variables (body response : string) (members : list (string * string * json)).
Hypothesis marshalled : query_body GetTokensHeldByWalletAddress variables = Ok body.
Hypothesis answered : answer w (query_request client ctx body) = Responds 200 response.
Hypothesis mapping : json_parse response = Ok (JObject members).
Hypothesis no_errors : field_value "errors" members = None.

Lemma GetTokenBalances_200 :
  GetTokenBalances client ctx variables w
  = (Returns
       match field_raw "data" members with
       | Some raw =>
         match Unmarshal_respData raw with
         | (_, Some err) => ([], Some err)
         | (respData, None) => (elements (TokenBalance_ (TokenBalances respData)), None)
         end
       | None => ([], Some (SyntaxError "unexpected end of JSON input"))
       end, made (query_request client ctx body) w).
Proof.
  unfold GetTokenBalances. cbv zeta.
  rewrite (ExecuteQuery_200 _ _ _ _ _ _ marshalled _ answered).
  destruct (Unmarshal_map_RawMessage_object _ _ mapping) as (m & -> & Hm).
  rewrite (Hm "errors"), (field_value_None _ _ no_errors), (Hm "data").
  destruct (field_raw "data" members) as [raw|]; cbn [default Data envelope from_option id].
  - destruct (Unmarshal_respData raw) as [r [e|]]; reflexivity.
  - reflexivity.
Qed.

Lemma GetTokenBalances_data v :
  field_value "data" members = Some v ->
  GetTokenBalances client ctx variables w
  = (Returns (balances_of v), made (query_request client ctx body) w).
Proof.
  intros Hv. rewrite GetTokenBalances_200.
  destruct (field_value_reads _ _ _ _ mapping Hv) as (raw & -> & Hraw).
  rewrite (Unmarshal_respData_value _ _ Hraw). reflexivity.
Qed.

(** X12: for an HTTP 200 response whose body is a mapping without an
    [errors] field, GetTokenBalances returns what decoding the value of the
    body's [data] field gives.  The raw bytes kept in the envelope read as
    that very value, so that the only errors are those of a value of the
    wrong kind, never a syntax error. *)
Theorem GetTokenBalances_decodes_data v :
  field_value "data" members = Some v ->
  fst (GetTokenBalances client ctx variables w) = Returns (balances_of v)
  /\ forall err, snd (balances_of v) = Some err -> is_type_error err.
Proof.
  intros Hv.
  rewrite (GetTokenBalances_data _ Hv).
  split; [reflexivity|]. exact (type_errors_balances v).
Qed.

(** X13: for an HTTP 200 response whose body is a mapping with neither an
    [errors] nor a [data] field, GetTokenBalances fails with the decoder's
    error for an empty input. *)
Theorem GetTokenBalances_missing_data :
  field_value "data" members = None ->
  fst (GetTokenBalances client ctx variables w)
  = Returns ([], Some (SyntaxError "unexpected end of JSON input")).
Proof.
  intros Hv.
  rewrite GetTokenBalances_200.
  rewrite (field_value_None _ _ Hv). reflexivity.
Qed.

(** X14: where the [data] field is [null], or an object without a member
    named TokenBalances (up to the case of letters), GetTokenBalances
    returns no records and no error. *)
Theorem GetTokenBalances_no_balances v :
  field_value "data" members = Some v ->
  v = JNull
  \/ (exists ms, v = JObject ms
        /\ Forall (fun m => same_name "TokenBalances" (fst (fst m)) = false) ms) ->
  fst (GetTokenBalances client ctx variables w) = Returns ([], None).
Proof.
  intros Hv Hshape.
  rewrite (GetTokenBalances_data _ Hv).
  cbn [fst]. f_equal. unfold balances_of.
  destruct Hshape as [->|(ms & -> & Hms)]; [reflexivity|].
  cbn [decode_respData]. rewrite decode_outer_skip by exact Hms. reflexivity.
Qed.

(** X15: where the [data] field is neither an object nor [null] (an array,
    a string, a number, a boolean), GetTokenBalances returns no records and
    the error of a value of the wrong kind. *)
Theorem GetTokenBalances_wrong_kind v :
  field_value "data" members = Some v ->
  kind_of v ≠ "object" -> kind_of v ≠ "null" ->
  exists err,
    fst (GetTokenBalances client ctx variables w) = Returns ([], Some err)
    /\ is_type_error err.
Proof.
  intros Hv Ho Hn.
  rewrite (GetTokenBalances_data _ Hv).
  cbn [fst]. destruct v; try (eexists; split; [reflexivity|exact I]); contradiction.
Qed.

(** X16: where [data] has one member named TokenBalances, an object with
    one member named TokenBalance, an array, whatever members of other
    names stand next to them, and every element of the array fits a
    TokenBalance, GetTokenBalances returns one record per element, in
    order, each decoded from the zero record. *)
Theorem GetTokenBalances_one_record_per_element dms ims elems :
  field_value "data" members = Some (JObject dms) ->
  only "TokenBalances" (JObject ims) dms ->
  only "TokenBalance" (JArray elems) ims ->
  forallb record_fits elems = true ->
  fst (GetTokenBalances client ctx variables w) = Returns (List.map record_of elems, None).
Proof.
  intros Hv H1 H2 Hfit.
  rewrite (GetTokenBalances_data _ Hv).
  rewrite (balances_of_records _ _ _ H1 H2), Hfit. reflexivity.
Qed.

(** X17: in that shape, if one element of the array does not fit a
    TokenBalance (a field that holds a number, say), GetTokenBalances
    returns no record at all and the error of a value of the wrong kind. *)
Theorem GetTokenBalances_all_or_nothing dms ims elems :
  field_value "data" members = Some (JObject dms) ->
  only "TokenBalances" (JObject ims) dms ->
  only "TokenBalance" (JArray elems) ims ->
  forallb record_fits elems = false ->
  exists err,
    fst (GetTokenBalances client ctx variables w) = Returns ([], Some err)
    /\ is_type_error err.
Proof.
  intros Hv H1 H2 Hfit.
  rewrite (GetTokenBalances_data _ Hv).
  rewrite (balances_of_records _ _ _ H1 H2), Hfit. cbn [fst].
  pose proof (type_errors_elements elems []) as Ht.
  destruct (decode_elements_fresh elems) as [_ Hs].
  destruct (snd (decode_elements elems [])) as [e|].
  - exists e. split; [reflexivity|]. exact (Ht e eq_refl).
  - rewrite (proj1 Hs eq_refl) in Hfit. discriminate.
Qed.

End Response.

(** X18: GetTokenBalances returns a nil error only where the response had
    status 200 and a body that is a JSON mapping without an [errors] field
    and with a [data] field, whose value decodes to the records
    returned. *)
Theorem GetTokenBalances_success client ctx variables w balances :
  fst (GetTokenBalances client ctx variables w) = Returns (balances, None) ->
  exists body response members v,
    query_body GetTokensHeldByWalletAddress variables = Ok body
    /\ answer w (query_request client ctx body) = Responds 200 response
    /\ json_parse response = Ok (JObject members)
    /\ field_value "errors" members = None
    /\ field_value "data" members = Some v
    /\ balances_of v = (balances, None).
Proof.
  intros H.
  destruct (query_body GetTokensHeldByWalletAddress variables) as [body|e] eqn:Hb.
  2:{ unfold GetTokenBalances in H. cbv zeta in H.
      rewrite (ExecuteQuery_marshal_error _ _ _ _ _ _ Hb) in H. discriminate. }
  destruct (answer w (query_request client ctx body)) as [e|e|st e|st response] eqn:Hex.
  1-3: rewrite (GetTokenBalances_no_response _ _ _ _ _ Hb) in H
         by (intros response; rewrite Hex; discriminate); discriminate.
  destruct (Z.eq_dec st 200%Z) as [->|Hst].
  2:{ rewrite (GetTokenBalances_no_response _ _ _ _ _ Hb) in H
        by (intros r; rewrite Hex; congruence). discriminate. }
  destruct (json_parse response) as [tree|e] eqn:Hp.
  2:{ unfold GetTokenBalances in H. cbv zeta in H.
      rewrite (ExecuteQuery_200 _ _ _ _ _ _ Hb _ Hex) in H.
      unfold Unmarshal_map_RawMessage in H. rewrite Hp in H. discriminate. }
  destruct tree as [| | | | |members];
    try (unfold GetTokenBalances in H; cbv zeta in H;
         rewrite (ExecuteQuery_200 _ _ _ _ _ _ Hb _ Hex) in H;
         unfold Unmarshal_map_RawMessage in H; rewrite Hp in H; discriminate).
  destruct (field_value "errors" members) as [x|] eqn:He.
  { unfold GetTokenBalances in H. cbv zeta in H.
    rewrite (ExecuteQuery_200 _ _ _ _ _ _ Hb _ Hex) in H.
    destruct (Unmarshal_map_RawMessage_object _ _ Hp) as (m & Hm & Hl). rewrite Hm in H.
    destruct (field_value_reads _ _ _ _ Hp He) as (raw & Hraw & _).
    rewrite (Hl "errors"), Hraw in H. discriminate. }
  destruct (field_value "data" members) as [v|] eqn:Hv.
  - rewrite (GetTokenBalances_data _ _ _ _ _ _ _ Hb Hex Hp He _ Hv) in H.
    cbn [fst] in H. injection H as H. exists body, response, members, v.
    repeat split; assumption.
  - rewrite (GetTokenBalances_200 _ _ _ _ _ _ _ Hb Hex Hp He) in H.
    rewrite (field_value_None _ _ Hv) in H. discriminate.
Qed.

(** The scenarios of these properties: a test server answers the demo
    program's request. *)
Ltac settle_response :=
  cbv zeta;
  match goal with
  | |- ?A /\ ?B /\ ?C /\ ?D /\ _ =>
    assert (Hb : A) by (vm_compute; reflexivity);
    assert (Hex : B) by reflexivity;
    assert (Hp : C) by (vm_compute; reflexivity);
    assert (He : D) by reflexivity;
    split; [exact Hb|]; split; [exact Hex|]; split; [exact Hp|]; split; [exact He|]
  end.

Lemma GetTokenBalances_decodes_data_witness :
  let response := js "{ 'data' : { 'TokenBalances' : { 'TokenBalance' : [ {'amount':'5'} ] } } }" in
  let w := server 200 response in
  let v :=
    JObject [("TokenBalances", js "{ 'TokenBalance' : [ {'amount':'5'} ] }",
              JObject [("TokenBalance", js "[ {'amount':'5'} ]",
                        JArray [JObject [("amount", js "'5'", JString "5")]])])] in
  let members :=
    [("data", js "{ 'TokenBalances' : { 'TokenBalance' : [ {'amount':'5'} ] } }", v)] in
  query_body GetTokensHeldByWalletAddress demo_variables = Ok demo_body
  /\ answer w (query_request demo_client context_Background demo_body) = Responds 200 response
  /\ json_parse response = Ok (JObject members)
  /\ field_value "errors" members = None
  /\ field_value "data" members = Some v
  /\ fst (GetTokenBalances demo_client context_Background demo_variables w)
     = Returns (balances_of v)
  /\ (forall err, snd (balances_of v) = Some err -> is_type_error err).
Proof.
  settle_response. split; [reflexivity|].
  exact (GetTokenBalances_decodes_data _ _ _ _ _ _ _ Hb Hex Hp He _ eq_refl).
Defined.

Lemma GetTokenBalances_missing_data_witness :
  let response := js "{'extensions':{}}" in
  let w := server 200 response in
  let members := [("extensions", "{}", JObject [])] in
  query_body GetTokensHeldByWalletAddress demo_variables = Ok demo_body
  /\ answer w (query_request demo_client context_Background demo_body) = Responds 200 response
  /\ json_parse response = Ok (JObject members)
  /\ field_value "errors" members = None
  /\ field_value "data" members = None
  /\ fst (GetTokenBalances demo_client context_Background demo_variables w)
     = Returns ([], Some (SyntaxError "unexpected end of JSON input")).
Proof.
  settle_response. split; [reflexivity|].
  exact (GetTokenBalances_missing_data _ _ _ _ _ _ _ Hb Hex Hp He eq_refl).
Defined.

Lemma GetTokenBalances_no_balances_witness :
  let response := js "{'data':{'Wallet':null}}" in
  let w := server 200 response in
  let v := JObject [("Wallet", "null", JNull)] in
  let members := [("data", js "{'Wallet':null}", v)] in
  query_body GetTokensHeldByWalletAddress demo_variables = Ok demo_body
  /\ answer w (query_request demo_client context_Background demo_body) = Responds 200 response
  /\ json_parse response = Ok (JObject members)
  /\ field_value "errors" members = None
  /\ field_value "data" members = Some v
  /\ (v = JNull
      \/ exists ms, v = JObject ms
           /\ Forall (fun m => same_name "TokenBalances" (fst (fst m)) = false) ms)
  /\ fst (GetTokenBalances demo_client context_Background demo_variables w) = Returns ([], None).
Proof.
  settle_response. split; [reflexivity|].
  assert (Hs : JObject [("Wallet", "null", JNull)] = JNull
               \/ exists ms, JObject [("Wallet", "null", JNull)] = JObject ms
                    /\ Forall (fun m => same_name "TokenBalances" (fst (fst m)) = false) ms).
  { right. eexists. split; [reflexivity|]. constructor; [reflexivity|constructor]. }
  split; [exact Hs|].
  exact (GetTokenBalances_no_balances _ _ _ _ _ _ _ Hb Hex Hp He _ eq_refl Hs).
Defined.

Lemma GetTokenBalances_wrong_kind_witness :
  let response := js "{'data':[]}" in
  let w := server 200 response in
  let members := [("data", "[]", JArray [])] in
  query_body GetTokensHeldByWalletAddress demo_variables = Ok demo_body
  /\ answer w (query_request demo_client context_Background demo_body) = Responds 200 response
  /\ json_parse response = Ok (JObject members)
  /\ field_value "errors" members = None
  /\ field_value "data" members = Some (JArray [])
  /\ kind_of (JArray []) ≠ "object"
  /\ kind_of (JArray []) ≠ "null"
  /\ exists err,
       fst (GetTokenBalances demo_client context_Background demo_variables w)
       = Returns ([], Some err)
       /\ is_type_error err.
Proof.
  settle_response. split; [reflexivity|].
  assert (H1 : kind_of (JArray []) ≠ "object") by discriminate.
  assert (H2 : kind_of (JArray []) ≠ "null") by discriminate.
  split; [exact H1|]. split; [exact H2|].
  exact (GetTokenBalances_wrong_kind _ _ _ _ _ _ _ Hb Hex Hp He _ eq_refl H1 H2).
Defined.

Lemma GetTokenBalances_one_record_per_element_witness :
  let response :=
    js "{'data':{'TokenBalances':{'TokenBalance':[{'amount':'5','tokenType':'ERC20'},{'TokenAddress':'0xabc'}],'pageInfo':{}}}}" in
  let w := server 200 response in
  let elems :=
    [JObject [("amount", js "'5'", JString "5"); ("tokenType", js "'ERC20'", JString "ERC20")];
     JObject [("TokenAddress", js "'0xabc'", JString "0xabc")]] in
  let ims :=
    [("TokenBalance", js "[{'amount':'5','tokenType':'ERC20'},{'TokenAddress':'0xabc'}]",
      JArray elems);
     ("pageInfo", "{}", JObject [])] in
  let dms :=
    [("TokenBalances",
      js "{'TokenBalance':[{'amount':'5','tokenType':'ERC20'},{'TokenAddress':'0xabc'}],'pageInfo':{}}",
      JObject ims)] in
  let members :=
    [("data",
      js "{'TokenBalances':{'TokenBalance':[{'amount':'5','tokenType':'ERC20'},{'TokenAddress':'0xabc'}],'pageInfo':{}}}",
      JObject dms)] in
  query_body GetTokensHeldByWalletAddress demo_variables = Ok demo_body
  /\ answer w (query_request demo_client context_Background demo_body) = Responds 200 response
  /\ json_parse response = Ok (JObject members)
  /\ field_value "errors" members = None
  /\ field_value "data" members = Some (JObject dms)
  /\ only "TokenBalances" (JObject ims) dms
  /\ only "TokenBalance" (JArray elems) ims
  /\ forallb record_fits elems = true
  /\ fst (GetTokenBalances demo_client context_Background demo_variables w)
     = Returns ([mkTokenBalance "5" "" "" "" ""; mkTokenBalance "" "" "" "0xabc" ""], None).
Proof.
  settle_response. split; [reflexivity|].
  match goal with
  | |- ?A /\ ?B /\ _ =>
    assert (H1 : A)
      by (exists [], "TokenBalances"; eexists _, []; split; [reflexivity|];
          split; [reflexivity|constructor]);
    assert (H2 : B)
      by (exists [], "TokenBalance"; eexists _, [_]; split; [reflexivity|];
          split; [reflexivity|repeat constructor])
  end.
  split; [exact H1|]. split; [exact H2|]. split; [reflexivity|].
  exact (GetTokenBalances_one_record_per_element _ _ _ _ _ _ _ Hb Hex Hp He _ _ _
           eq_refl H1 H2 eq_refl).
Defined.

Lemma GetTokenBalances_all_or_nothing_witness :
  let response := js "{'data':{'TokenBalances':{'TokenBalance':[{'amount':'5'},{'amount':7}]}}}" in
  let w := server 200 response in
  let elems :=
    [JObject [("amount", js "'5'", JString "5")]; JObject [("amount", "7", JNumber "7")]] in
  let ims := [("TokenBalance", js "[{'amount':'5'},{'amount':7}]", JArray elems)] in
  let dms := [("TokenBalances", js "{'TokenBalance':[{'amount':'5'},{'amount':7}]}", JObject ims)] in
  let members :=
    [("data", js "{'TokenBalances':{'TokenBalance':[{'amount':'5'},{'amount':7}]}}", JObject dms)] in
  query_body GetTokensHeldByWalletAddress demo_variables = Ok demo_body
  /\ answer w (query_request demo_client context_Background demo_body) = Responds 200 response
  /\ json_parse response = Ok (JObject members)
  /\ field_value "errors" members = None
  /\ field_value "data" members = Some (JObject dms)
  /\ only "TokenBalances" (JObject ims) dms
  /\ only "TokenBalance" (JArray elems) ims
  /\ forallb record_fits elems = false
  /\ exists err,
       fst (GetTokenBalances demo_client context_Background demo_variables w)
       = Returns ([], Some err)
       /\ is_type_error err.
Proof.
  settle_response. split; [reflexivity|].
  match goal with
  | |- ?A /\ ?B /\ _ =>
    assert (H1 : A)
      by (exists [], "TokenBalances"; eexists _, []; split; [reflexivity|];
          split; [reflexivity|constructor]);
    assert (H2 : B)
      by (exists [], "TokenBalance"; eexists _, []; split; [reflexivity|];
          split; [reflexivity|constructor])
  end.
  split; [exact H1|]. split; [exact H2|]. split; [reflexivity|].
  exact (GetTokenBalances_all_or_nothing _ _ _ _ _ _ _ Hb Hex Hp He _ _ _
           eq_refl H1 H2 eq_refl).
Defined.

Lemma GetTokenBalances_success_witness :
  let w := server 200 (js "{'data':null}") in
  fst (GetTokenBalances demo_client context_Background demo_variables w) = Returns ([], None)
  /\ exists body response members v,
       query_body GetTokensHeldByWalletAddress demo_variables = Ok body
       /\ answer w (query_request demo_client context_Background body) = Responds 200 response
       /\ json_parse response = Ok (JObject members)
       /\ field_value "errors" members = None
       /\ field_value "data" members = Some v
       /\ balances_of v = ([], None).
Proof.
  cbv zeta.
  assert (H : fst (GetTokenBalances demo_client context_Background demo_variables
                     (server 200 (js "{'data':null}"))) = Returns ([], None))
    by (vm_compute; reflexivity).
  split; [exact H|].
  exact (GetTokenBalances_success _ _ _ _ _ H).
Defined.

(** ** The envelope's Data, and the requests of GetTokenBalances *)

Lemma field_raw_reads data members key raw :
  json_parse data = Ok (JObject members) ->
  field_raw key members = Some raw ->
  exists v, field_value key members = Some v /\ json_parse raw = Ok v.
Proof.
  intros Hp Hraw. rewrite field_raw_member in Hraw. unfold field_value.
  destruct (field_member key members) as [[r v]|] eqn:E; [|discriminate].
  injection Hraw as ->. exists v. split; [reflexivity|].
  apply field_member_In in E. apply json_parse_members in Hp.
  rewrite Forall_forall in Hp. apply list_elem_of_In in E. exact (Hp _ E).
Qed.

(** X9: the Data of an envelope ExecuteQuery returns, where it is set, is
    a JSON text: the decoder reads it as one value. *)
Theorem ExecuteQuery_Data_is_JSON client ctx query variables w q :
  fst (ExecuteQuery client ctx query variables w) = (Some q, None) ->
  Data q ≠ "" ->
  exists v, json_parse (Data q) = Ok v.
Proof.
  destruct (query_body query variables) as [body|e] eqn:Hb.
  2:{ rewrite (ExecuteQuery_marshal_error _ _ _ _ _ _ Hb). discriminate. }
  rewrite (ExecuteQuery_exchange _ _ _ _ _ _ Hb). cbv zeta. cbn [fst].
  set (ex := answer w (query_request client ctx body)).
  destruct (_ || _); [intros [= <-] H; contradiction|].
  unfold Unmarshal_map_RawMessage.
  destruct (json_parse (exchange_body ex)) as [tree|e] eqn:Hp; [|discriminate].
  destruct tree as [| | | | |members]; try discriminate.
  - rewrite !lookup_empty. intros [= <-] H. contradiction.
  - destruct (Unmarshal_map_RawMessage_object _ _ Hp) as (m & Hm & Hl).
    unfold Unmarshal_map_RawMessage in Hm. rewrite Hp in Hm. injection Hm as Hm.
    rewrite Hm, (Hl "errors"), (Hl "data").
    destruct (field_raw "errors" members); [intros [= <-] H; contradiction|].
    destruct (field_raw "data" members) as [raw|] eqn:Hraw;
      intros [= <-] H; [|contradiction].
    cbn [Data envelope default from_option id].
    destruct (field_raw_reads _ _ _ _ Hp Hraw) as (v & _ & Hv). eauto.
Qed.

Lemma ExecuteQuery_Data_is_JSON_witness :
  let w := server 200 (js "{ 'data' : [1, {'a': null}] , 'extensions': {} }") in
  let q := envelope (js "[1, {'a': null}]") 200 "" in
  fst (ExecuteQuery (NewAirstackClient "key") context_Background "q" VNil w) = (Some q, None)
  /\ Data q ≠ ""
  /\ exists v, json_parse (Data q) = Ok v.
Proof.
  cbv zeta.
  assert (H : fst (ExecuteQuery (NewAirstackClient "key") context_Background "q" VNil
                     (server 200 (js "{ 'data' : [1, {'a': null}] , 'extensions': {} }")))
              = (Some (envelope (js "[1, {'a': null}]") 200 ""), None))
    by (vm_compute; reflexivity).
  assert (Hd : Data (envelope (js "[1, {'a': null}]") 200 "") ≠ "") by discriminate.
  split; [exact H|]. split; [exact Hd|].
  exact (ExecuteQuery_Data_is_JSON _ _ _ _ _ _ H Hd).
Defined.

(** X19: GetTokenBalances leaves the network as it is and makes at most
    one request, that of ExecuteQuery for its fixed query text and the
    variables; decoding the result makes none. *)
Theorem GetTokenBalances_one_request client ctx variables w :
  let w' := snd (GetTokenBalances client ctx variables w) in
  network w' = network w
  /\ (requests w' = requests w
      \/ exists body,
           query_body GetTokensHeldByWalletAddress variables = Ok body
           /\ requests w' = requests w ++ [query_request client ctx body]).
Proof.
  cbv zeta.
  assert (H : snd (GetTokenBalances client ctx variables w)
              = snd (ExecuteQuery client ctx GetTokensHeldByWalletAddress variables w)).
  { unfold GetTokenBalances. cbv zeta.
    destruct (ExecuteQuery _ _ _ _ _) as [[resp err] w'].
    destruct err; [reflexivity|]. destruct resp as [q|]; [|reflexivity].
    destruct (Unmarshal_respData (Data q)) as [r [e|]]; reflexivity. }
  rewrite H.
  destruct (query_body GetTokensHeldByWalletAddress variables) as [body|e] eqn:Hb.
  - rewrite (ExecuteQuery_exchange _ _ _ _ _ _ Hb). cbv zeta. cbn [snd].
    destruct (answer w (query_request client ctx body));
      cbn [after made network requests]; split; eauto.
  - rewrite (ExecuteQuery_marshal_error _ _ _ _ _ _ Hb). cbn [snd]. auto.
Qed.

(** ** What Marshal writes, the decoder reads *)






(** *** Numbers *)





(** *** Strings, valid UTF-8 or not *)



(** *** Arrays and objects *)












